(** * Moderation and relay layer of the two-way support bot

    A shallow embedding of [services/model_service.py],
    [services/gemini_service.py], [utils/message_sender.py] and
    [handlers/admin_handler.py], with the properties of the written
    specification proved (or refuted) against it.

    Conventions of the embedding:
    - a Python [str] is the list of its Unicode code points ([pystr]);
    - [None] is [option]'s [None]; Python truthiness is written out
      ([truthy_str], [truthy_opt]) wherever the source relies on it;
    - the random generator, the AI backend, the chat platform and the
      persistence boundary are explicit inputs; every call that leaves the
      process is recorded in a trace carried by the state;
    - what the code writes with [print] is not part of the state. *)

From Stdlib Require Import ZArith NArith List String Ascii Bool Lia Permutation.
From stdpp Require Import base list.
Import ListNotations.
Open Scope list_scope.

(* ===================================================================== *)
(** ** Python strings                                                     *)
(* ===================================================================== *)

Module PyStr.

(** A Python string: the sequence of its code points. *)
Definition pystr := list N.

(** Bytes of a literal written in this file (UTF-8). *)
Fixpoint bytes_of (s : string) : list N :=
  match s with
  | EmptyString => []
  | String a r => N_of_ascii a :: bytes_of r
  end.

Definition cont (b : N) : N := N.land b 63.

(** UTF-8 decoding of a literal; it is total, a malformed tail is kept
    byte by byte.  Only used to write string constants legibly. *)
Fixpoint utf8 (fuel : nat) (bs : list N) : pystr :=
  match fuel with
  | O => []
  | S fuel' =>
      match bs with
      | [] => []
      | b :: r =>
          if (b <? 128)%N then b :: utf8 fuel' r
          else if (b <? 224)%N then
            match r with
            | c1 :: r1 => (N.land b 31 * 64 + cont c1)%N :: utf8 fuel' r1
            | _ => b :: utf8 fuel' r
            end
          else if (b <? 240)%N then
            match r with
            | c1 :: c2 :: r2 =>
                (N.land b 15 * 4096 + cont c1 * 64 + cont c2)%N :: utf8 fuel' r2
            | _ => b :: utf8 fuel' r
            end
          else
            match r with
            | c1 :: c2 :: c3 :: r3 =>
                (N.land b 7 * 262144 + cont c1 * 4096 + cont c2 * 64 + cont c3)%N
                  :: utf8 fuel' r3
            | _ => b :: utf8 fuel' r
            end
      end
  end.

Definition u8 (s : string) : pystr :=
  let bs := bytes_of s in utf8 (length bs) bs.

(** The double quote, kept apart from the literals. *)
Definition dq : pystr := [34%N].
Definition nl : pystr := [10%N].
Definition backtick : N := 96%N.

(** [str.isspace] on one code point, which is also what [\s] matches in
    a [str] pattern of [re]. *)
Definition is_space (c : N) : bool :=
  ((9 <=? c) && (c <=? 13) || (28 <=? c) && (c <=? 32)
   || (c =? 133) || (c =? 160) || (c =? 5760)
   || (8192 <=? c) && (c <=? 8202)
   || (c =? 8232) || (c =? 8233) || (c =? 8239) || (c =? 8287)
   || (c =? 12288))%N.

(** [s.lstrip()], also the greedy [\s*] of a pattern. *)
Fixpoint lstrip (s : pystr) : pystr :=
  match s with
  | c :: r => if is_space c then lstrip r else s
  | [] => []
  end.

Definition rstrip (s : pystr) : pystr := rev (lstrip (rev s)).

(** [s.strip()] *)
Definition strip (s : pystr) : pystr := rstrip (lstrip s).

Definition str_eqb (a b : pystr) : bool := bool_decide (a = b).

(** [s.startswith(p)], returning what follows the prefix. *)
Fixpoint after_prefix (p s : pystr) : option pystr :=
  match p, s with
  | [], _ => Some s
  | a :: p', b :: s' => if (a =? b)%N then after_prefix p' s' else None
  | _ :: _, [] => None
  end.

(** [p in s] *)
Fixpoint contains (p s : pystr) : bool :=
  match after_prefix p s with
  | Some _ => true
  | None => match s with
            | [] => false
            | _ :: r => contains p r
            end
  end.

(** [truthy_str s] is [bool(s)] for a string. *)
Definition truthy_str (s : pystr) : bool :=
  match s with [] => false | _ => true end.

(** [bool(o)] for a value that is a string or [None]. *)
Definition truthy_opt (o : option pystr) : bool :=
  match o with Some s => truthy_str s | None => false end.

(** [a or b] where both are strings or [None]. *)
Definition py_or (a : option pystr) (b : option pystr) : option pystr :=
  if truthy_opt a then a else b.

(** [sep.join(parts)] *)
Fixpoint join (sep : pystr) (parts : list pystr) : pystr :=
  match parts with
  | [] => []
  | [p] => p
  | p :: r => p ++ sep ++ join sep r
  end.

(** [str.lower] on one code point.  The ASCII capitals, and the two code
    points outside ASCII whose lowercase mapping produces an ASCII letter
    (KELVIN SIGN, and LATIN CAPITAL LETTER I WITH DOT ABOVE which becomes
    [i] followed by COMBINING DOT ABOVE).  Every other code point outside
    ASCII lowers to code points outside ASCII and is left as it is: the
    only use of [lower] is a comparison with ASCII provider keys. *)
Definition lower_char (c : N) : pystr :=
  if ((65 <=? c) && (c <=? 90))%N then [(c + 32)%N]
  else if (c =? 8490)%N then [107%N]
  else if (c =? 304)%N then [105%N; 775%N]
  else [c].

Definition lower (s : pystr) : pystr := flat_map lower_char s.

(** Decimal rendering of a number, as an f-string does. *)
Definition digit (n : N) : N := (48 + n)%N.

Fixpoint dec_aux (fuel : nat) (n : N) (acc : pystr) : pystr :=
  match fuel with
  | O => acc
  | S f =>
      let acc' := digit (n mod 10) :: acc in
      if (n <? 10)%N then acc' else dec_aux f (n / 10)%N acc'
  end.

Definition dec_N (n : N) : pystr := dec_aux (S (N.to_nat (N.log2 n))) n [].

Definition dec_Z (z : Z) : pystr :=
  match z with
  | Zneg p => 45%N :: dec_N (Npos p)
  | _ => dec_N (Z.to_N z)
  end.

End PyStr.
Import PyStr.

(* ===================================================================== *)
(** ** JSON values and [json.loads]                                       *)
(* ===================================================================== *)

Module Json.

(** What [json.loads] builds.  A number is kept as its lexeme (Python
    builds an [int] or a [float] from it); an object is a [dict], kept as
    its items in insertion order with unique keys. *)
#[local] Set Warnings "-register-all".
Inductive json :=
| JNull
| JBool (b : bool)
| JNum (lexeme : pystr)
| JStr (s : pystr)
| JArr (items : list json)
| JObj (fields : list (pystr * json)).

(** [d[k]] on a dict; [None] stands for [KeyError]. *)
Fixpoint dict_get (k : pystr) (d : list (pystr * json)) : option json :=
  match d with
  | [] => None
  | (k', v) :: r => if str_eqb k k' then Some v else dict_get k r
  end.

(** [d[k] = v]: an existing key keeps its place. *)
Fixpoint dict_set (k : pystr) (v : json) (d : list (pystr * json)) :=
  match d with
  | [] => [(k, v)]
  | (k', v') :: r =>
      if str_eqb k k' then (k, v) :: r else (k', v') :: dict_set k v r
  end.

(** [data[k]] on any parsed value: [TypeError] on a non-dict and
    [KeyError] on a missing key are both [None]. *)
Definition subscript (data : json) (k : pystr) : option json :=
  match data with
  | JObj d => dict_get k d
  | _ => None
  end.

Definition is_ws (c : N) : bool :=
  ((c =? 32) || (c =? 9) || (c =? 10) || (c =? 13))%N.

Fixpoint skip_ws (s : pystr) : pystr :=
  match s with
  | c :: r => if is_ws c then skip_ws r else s
  | [] => []
  end.

Definition is_digit (c : N) : bool := ((48 <=? c) && (c <=? 57))%N.

Definition hexval (c : N) : option N :=
  if is_digit c then Some (c - 48)%N
  else if ((97 <=? c) && (c <=? 102))%N then Some (c - 87)%N
  else if ((65 <=? c) && (c <=? 70))%N then Some (c - 55)%N
  else None.

Definition hex4 (a b c d : N) : option N :=
  match hexval a, hexval b, hexval c, hexval d with
  | Some x, Some y, Some z, Some w => Some (x * 4096 + y * 256 + z * 16 + w)%N
  | _, _, _, _ => None
  end.

Definition is_high (u : N) : bool := ((55296 <=? u) && (u <=? 56319))%N.
Definition is_low (u : N) : bool := ((56320 <=? u) && (u <=? 57343))%N.

Definition simple_escape (c : N) : option N :=
  if (c =? 34)%N then Some 34%N
  else if (c =? 92)%N then Some 92%N
  else if (c =? 47)%N then Some 47%N
  else if (c =? 98)%N then Some 8%N
  else if (c =? 102)%N then Some 12%N
  else if (c =? 110)%N then Some 10%N
  else if (c =? 114)%N then Some 13%N
  else if (c =? 116)%N then Some 9%N
  else None.

(** [s] starts with the character [k]: what follows it. *)
Definition head_is (k : N) (s : pystr) : option pystr :=
  match s with
  | c :: r => if (c =? k)%N then Some r else None
  | [] => None
  end.

(** The body of a string after its opening quote, up to the closing one
    (strict mode: a raw control character is an error). [acc] holds the
    decoded characters in reverse.  A high surrogate escape followed by a
    low surrogate escape is one character. *)
Fixpoint scan_string (s : pystr) (acc : pystr) : option (pystr * pystr) :=
  match s with
  | [] => None
  | c :: r =>
      if (c =? 34)%N then Some (rev acc, r)
      else if (c =? 92)%N then
        match r with
        | [] => None
        | e :: r1 =>
            if (e =? 117)%N then
              match r1 with
              | h1 :: h2 :: h3 :: h4 :: r2 =>
                  match hex4 h1 h2 h3 h4 with
                  | None => None
                  | Some u =>
                      let lone := scan_string r2 (u :: acc) in
                      if is_high u then
                        match r2 with
                        | b :: e2 :: g1 :: g2 :: g3 :: g4 :: r3 =>
                            if ((b =? 92) && (e2 =? 117))%N then
                              match hex4 g1 g2 g3 g4 with
                              | None => None
                              | Some u2 =>
                                  if is_low u2 then
                                    scan_string r3
                                      ((65536 + (u - 55296) * 1024
                                        + (u2 - 56320))%N :: acc)
                                  else lone
                              end
                            else lone
                        | _ => lone
                        end
                      else lone
                  end
              | _ => None
              end
            else
              match simple_escape e with
              | Some x => scan_string r1 (x :: acc)
              | None => None
              end
        end
      else if (c <? 32)%N then None
      else scan_string r (c :: acc)
  end.

Fixpoint take_digits (s : pystr) : pystr * pystr :=
  match s with
  | c :: r => if is_digit c
              then let '(d, rest) := take_digits r in (c :: d, rest)
              else ([], s)
  | [] => ([], [])
  end.

(** The integer part [0|[1-9][0-9]*]. *)
Definition scan_int (s : pystr) : option (pystr * pystr) :=
  match s with
  | c :: r =>
      if (c =? 48)%N then Some ([c], r)
      else if is_digit c then
        let '(d, rest) := take_digits r in Some (c :: d, rest)
      else None
  | [] => None
  end.

(** The optional fraction [\.[0-9]+]. *)
Definition scan_frac (s : pystr) : pystr * pystr :=
  match head_is 46 s with
  | Some r =>
      match take_digits r with
      | ([], _) => ([], s)
      | (d, rest) => (46%N :: d, rest)
      end
  | None => ([], s)
  end.

(** The optional exponent [[eE][-+]?[0-9]+]. *)
Definition scan_exp (s : pystr) : pystr * pystr :=
  match s with
  | e :: r =>
      if ((e =? 101) || (e =? 69))%N then
        let '(sign, r1) :=
          match r with
          | g :: r' => if ((g =? 43) || (g =? 45))%N then ([g], r') else ([], r)
          | [] => ([], r)
          end in
        match take_digits r1 with
        | ([], _) => ([], s)
        | (d, rest) => (e :: sign ++ d, rest)
        end
      else ([], s)
  | [] => ([], s)
  end.

Definition scan_number (s : pystr) : option (pystr * pystr) :=
  let '(sign, r) :=
    match head_is 45 s with
    | Some r' => ([45%N], r')
    | None => ([], s)
    end in
  match scan_int r with
  | None => None
  | Some (i, r1) =>
      let '(f, r2) := scan_frac r1 in
      let '(e, r3) := scan_exp r2 in
      Some (sign ++ i ++ f ++ e, r3)
  end.

Definition keyword (w : string) (v : json) (s : pystr) : option (json * pystr) :=
  match after_prefix (u8 w) s with
  | Some r => Some (v, r)
  | None => None
  end.

Definition first_some {A} (a b : option A) : option A :=
  match a with Some _ => a | None => b end.

(** A value that is neither a string, an object nor an array: a
    keyword, a number, or one of the three constants Python adds. *)
Definition scan_atom (s : pystr) : option (json * pystr) :=
  first_some (keyword "null" JNull s)
 (first_some (keyword "true" (JBool true) s)
 (first_some (keyword "false" (JBool false) s)
 (first_some
    (match scan_number s with
     | Some (lx, rest) => Some (JNum lx, rest)
     | None => None
     end)
 (first_some (keyword "NaN" (JNum (u8 "NaN")) s)
 (first_some (keyword "Infinity" (JNum (u8 "Infinity")) s)
             (keyword "-Infinity" (JNum (u8 "-Infinity")) s)))))).

(** The scanner: one value at the head of [s], and what follows it.
    [None] is [JSONDecodeError].  [fuel] bounds the recursion; the fuel
    [json_loads] gives is more than any input can use. *)
Fixpoint scan_value (fuel : nat) (s : pystr) : option (json * pystr) :=
  match fuel with
  | O => None
  | S f =>
      match s with
      | [] => None
      | c :: r =>
          if (c =? 34)%N then
            match scan_string r [] with
            | Some (str, rest) => Some (JStr str, rest)
            | None => None
            end
          else if (c =? 123)%N then
            match head_is 125 (skip_ws r) with
            | Some rest => Some (JObj [], rest)
            | None =>
                match scan_members f (skip_ws r) [] with
                | Some (d, rest) => Some (JObj d, rest)
                | None => None
                end
            end
          else if (c =? 91)%N then
            match head_is 93 (skip_ws r) with
            | Some rest => Some (JArr [], rest)
            | None =>
                match scan_items f (skip_ws r) [] with
                | Some (l, rest) => Some (JArr l, rest)
                | None => None
                end
            end
          else scan_atom s
      end
  end

(** Items of an array, [s] at the start of an item. *)
with scan_items (fuel : nat) (s : pystr) (acc : list json)
  : option (list json * pystr) :=
  match fuel with
  | O => None
  | S f =>
      match scan_value f s with
      | None => None
      | Some (v, r) =>
          match head_is 93 (skip_ws r) with
          | Some rest => Some (rev (v :: acc), rest)
          | None =>
              match head_is 44 (skip_ws r) with
              | Some rest => scan_items f (skip_ws rest) (v :: acc)
              | None => None
              end
          end
      end
  end

(** Members of an object, [s] at the quote of a key. *)
with scan_members (fuel : nat) (s : pystr) (acc : list (pystr * json))
  : option (list (pystr * json) * pystr) :=
  match fuel with
  | O => None
  | S f =>
      match head_is 34 s with
      | None => None
      | Some r =>
          match scan_string r [] with
          | None => None
          | Some (k, r1) =>
              match head_is 58 (skip_ws r1) with
              | None => None
              | Some r2 =>
                  match scan_value f (skip_ws r2) with
                  | None => None
                  | Some (v, r3) =>
                      let acc' := dict_set k v acc in
                      match head_is 125 (skip_ws r3) with
                      | Some rest => Some (acc', rest)
                      | None =>
                          match head_is 44 (skip_ws r3) with
                          | Some rest => scan_members f (skip_ws rest) acc'
                          | None => None
                          end
                      end
                  end
              end
          end
      end
  end.

(** [json.loads(s)]; [None] is [JSONDecodeError].  This is the grammar
    [json.loads] accepts.  The limits of the interpreter, whose errors
    are not [JSONDecodeError] (an [int] numeral of more than 4300 digits,
    nesting beyond the recursion limit), are not part of it: what is
    stated about a parsed value is stated for texts within them. *)
Definition json_loads (s : pystr) : option json :=
  match scan_value (2 * length s + 2) (skip_ws s) with
  | Some (v, rest) =>
      match skip_ws rest with
      | [] => Some v
      | _ => None
      end
  | None => None
  end.

(** Structural equality of parsed values is decidable.  On strings it is
    Python's [==]. *)
Fixpoint json_eq_dec (a b : json) {struct a} : {a = b} + {a <> b}.
Proof.
  destruct a as [|x|x|x|xs|xs], b as [|y|y|y|ys|ys];
    try (right; discriminate); try (left; reflexivity).
  - destruct (Bool.bool_dec x y) as [->|n]; [left; reflexivity|right; congruence].
  - destruct (List.list_eq_dec N.eq_dec x y) as [->|n];
      [left; reflexivity|right; congruence].
  - destruct (List.list_eq_dec N.eq_dec x y) as [->|n];
      [left; reflexivity|right; congruence].
  - destruct (List.list_eq_dec json_eq_dec xs ys) as [->|n];
      [left; reflexivity|right; congruence].
  - assert (pair_dec : forall p q : pystr * json, {p = q} + {p <> q}).
    { intros [k v] [k' v'].
      destruct (List.list_eq_dec N.eq_dec k k') as [->|n];
        [|right; congruence].
      destruct (json_eq_dec v v') as [->|n];
        [left; reflexivity|right; congruence]. }
    destruct (List.list_eq_dec pair_dec xs ys) as [->|n];
      [left; reflexivity|right; congruence].
Defined.

#[export] Instance json_eq : EqDecision json := json_eq_dec.

End Json.
Import Json.

(* ===================================================================== *)
(** ** The fence pattern of [re.sub]                                      *)
(* ===================================================================== *)

Module Fence.

Definition fence : pystr := [backtick; backtick; backtick].
Definition fence_json : pystr := fence ++ u8 "json".

(** Number of characters the greedy [\s*] takes at the head of [s]. *)
Fixpoint leading_spaces (s : pystr) : nat :=
  match s with
  | c :: r => if is_space c then S (leading_spaces r) else 0
  | [] => 0
  end.

(** Length of the match of [```json\s*|\s*```] anchored at the head of
    [s], if it matches there.  The first alternative is tried first; in
    the second the greedy [\s*] cannot give a character back to the
    literal, a space not being a backtick. *)
Definition match_len (s : pystr) : option nat :=
  match after_prefix fence_json s with
  | Some r => Some (7 + leading_spaces r)
  | None =>
      match after_prefix fence (lstrip s) with
      | Some _ => Some (leading_spaces s + 3)
      | None => None
      end
  end.

(** [re.sub(r'```json\s*|\s*```', '', s)]: every leftmost match is
    dropped, scanning resumes behind it.  [skip] counts the characters of
    the current match still to drop. *)
Fixpoint sub_fences (skip : nat) (s : pystr) : pystr :=
  match s with
  | [] => []
  | c :: r =>
      match skip with
      | S k => sub_fences k r
      | O =>
          match match_len s with
          | Some (S k) => sub_fences k r
          | _ => c :: sub_fences 0 r
          end
      end
  end.

(** [re.sub(r'```json\s*|\s*```', '', response_text).strip()] *)
Definition clean_text (response_text : pystr) : pystr :=
  strip (sub_fences 0 response_text).

End Fence.
Import Fence.

(* ===================================================================== *)
(** ** Results, exceptions and the state monad of the embedding           *)
(* ===================================================================== *)

Inductive exn :=
| ValueError (msg : pystr)
| KeyError (key : pystr)
| TypeError
| AttributeError
| IndexError
| JSONDecodeError
| ImportError (msg : pystr)
| ProviderError (msg : pystr).

Inductive res (A : Type) :=
| Ok (a : A)
| Raise (e : exn).
Arguments Ok {A} a.
Arguments Raise {A} e.

(** A computation over a state [S] that returns or raises; the state at
    the point of a raise is kept, as Python keeps the writes made before
    an exception. *)
Definition SE (S A : Type) : Type := S -> res A * S.

Definition ret {S A} (a : A) : SE S A := fun s => (Ok a, s).
Definition raise {S A} (e : exn) : SE S A := fun s => (Raise e, s).
Definition bind {S A B} (m : SE S A) (k : A -> SE S B) : SE S B :=
  fun s => match m s with
           | (Ok a, s') => k a s'
           | (Raise e, s') => (Raise e, s')
           end.
Definition get {S} : SE S S := fun s => (Ok s, s).
Definition modify {S} (f : S -> S) : SE S unit := fun s => (Ok tt, f s).

(** [try: m except Exception as e: h e] *)
Definition try_except {S A} (m : SE S A) (h : exn -> SE S A) : SE S A :=
  fun s => match m s with
           | (Ok a, s') => (Ok a, s')
           | (Raise e, s') => h e s'
           end.

Declare Scope se_scope.
Delimit Scope se_scope with se.
Notation "x <- m ;; k" := (bind m (fun x => k))
  (at level 62, m at next level, right associativity) : se_scope.
Notation "m ;;; k" := (bind m (fun _ => k))
  (at level 62, right associativity) : se_scope.
Open Scope se_scope.

(* ===================================================================== *)
(** ** services/model_service.py                                          *)
(* ===================================================================== *)

Module ModelSvc.

Inductive provider_kind := Gemini | OpenAI | Claude | Custom.

(** A constructed adapter: its class and what [ModelAdapter.__init__]
    stores. *)
Record Adapter := {
  a_kind : provider_kind;
  a_api_key : pystr;
  a_base_url : option pystr;
  a_kwargs : list (pystr * json)
}.

(** One part of [contents]: a string or a decoded [PIL] image (kept as
    the bytes it was decoded from). *)
Inductive part :=
| PText (s : pystr)
| PImage (src : list N).

(** A request handed to [adapter.generate_content]. *)
Record ProviderCall := {
  pc_adapter : Adapter;
  pc_model : option pystr;
  pc_contents : list part
}.

(** What the process cannot decide by itself: whether the client library
    of a provider can be imported and its client constructed, and what
    the backend answers to a request after the requests made so far
    ([adapter.generate_content] returns a text, possibly [None] or empty
    for Gemini, or raises its wrapped error). *)
Record Backend := {
  client_constructs : provider_kind -> pystr -> option pystr -> bool;
  answer : list ProviderCall -> ProviderCall -> res (option pystr)
}.

(** The fields of the [ModelService] singleton. *)
Record ModelService := {
  adapter : option Adapter;
  filter_model_name : option pystr;
  verification_model_name : option pystr
}.

(** [ModelService.__init__] *)
Definition new_service : ModelService :=
  {| adapter := None; filter_model_name := None;
     verification_model_name := None |}.

Definition set_adapter (a : option Adapter) : SE ModelService unit :=
  modify (fun s => {| adapter := a;
                      filter_model_name := filter_model_name s;
                      verification_model_name := verification_model_name s |}).
Definition set_filter_model_name (m : option pystr) : SE ModelService unit :=
  modify (fun s => {| adapter := adapter s;
                      filter_model_name := m;
                      verification_model_name := verification_model_name s |}).
Definition set_verification_model_name (m : option pystr)
  : SE ModelService unit :=
  modify (fun s => {| adapter := adapter s;
                      filter_model_name := filter_model_name s;
                      verification_model_name := m |}).

Definition import_error (k : provider_kind) : exn :=
  match k with
  | Gemini => ImportError (u8 "请安装 google-genai: pip install google-genai")
  | OpenAI | Custom => ImportError (u8 "请安装 openai: pip install openai")
  | Claude => ImportError (u8 "请安装 anthropic: pip install anthropic")
  end.

(** The constructors [GeminiAdapter], [OpenAIAdapter], [AnthropicAdapter]:
    store the arguments, then import the library and build the client; a
    failure of that step is raised as the import error and nothing is
    returned.  (In the code a failure of the client constructor that is
    not a missing library propagates as itself; nothing stated here
    depends on which exception it is.) *)
Definition make_adapter (be : Backend) (k : provider_kind) (api_key : pystr)
    (base_url : option pystr) (kwargs : list (pystr * json)) : res Adapter :=
  if client_constructs be k api_key base_url
  then Ok {| a_kind := k; a_api_key := api_key; a_base_url := base_url;
             a_kwargs := kwargs |}
  else Raise (import_error k).

(** [CustomAPIAdapter.__init__] checks its [base_url] first. *)
Definition CustomAPIAdapter (be : Backend) (api_key : pystr)
    (base_url : option pystr) (kwargs : list (pystr * json)) : res Adapter :=
  if negb (truthy_opt base_url)
  then Raise (ValueError (u8 "自定义API必须提供base_url"))
  else make_adapter be Custom api_key base_url kwargs.

Definition lift {S A} (r : res A) : SE S A :=
  match r with Ok a => ret a | Raise e => raise e end.

(** [ModelService.initialize] *)
Definition initialize (be : Backend) (provider api_key : pystr)
    (base_url filter_model verification_model : option pystr)
    (kwargs : list (pystr * json)) : SE ModelService unit :=
  let provider := lower provider in
  if str_eqb provider (u8 "gemini") then
    a <- lift (make_adapter be Gemini api_key base_url kwargs) ;;
    set_adapter (Some a) ;;;
    set_filter_model_name (py_or filter_model (Some (u8 "gemini-2.5-flash"))) ;;;
    set_verification_model_name
      (py_or verification_model (Some (u8 "gemini-2.5-flash-lite")))
  else if str_eqb provider (u8 "openai") then
    a <- lift (make_adapter be OpenAI api_key base_url kwargs) ;;
    set_adapter (Some a) ;;;
    set_filter_model_name (py_or filter_model (Some (u8 "gpt-4o-mini"))) ;;;
    set_verification_model_name
      (py_or verification_model (Some (u8 "gpt-4o-mini")))
  else if str_eqb provider (u8 "claude") then
    a <- lift (make_adapter be Claude api_key base_url kwargs) ;;
    set_adapter (Some a) ;;;
    set_filter_model_name
      (py_or filter_model (Some (u8 "claude-3-haiku-20240307"))) ;;;
    set_verification_model_name
      (py_or verification_model (Some (u8 "claude-3-haiku-20240307")))
  else if str_eqb provider (u8 "custom") then
    if negb (truthy_opt base_url)
    then raise (ValueError (u8 "自定义API必须提供base_url"))
    else
      a <- lift (CustomAPIAdapter be api_key base_url kwargs) ;;
      set_adapter (Some a) ;;;
      set_filter_model_name filter_model ;;;
      set_verification_model_name (py_or verification_model filter_model) ;;;
      self <- get ;;
      if negb (truthy_opt (filter_model_name self))
      then raise (ValueError (u8 "自定义API必须提供filter_model"))
      else ret tt
  else raise (ValueError (u8 "不支持的提供商: " ++ provider)).

End ModelSvc.
Import ModelSvc.

(* ===================================================================== *)
(** ** The chat platform: messages and outbound calls                     *)
(* ===================================================================== *)

Module Telegram.

Record MessageEntity := { e_type : pystr; e_offset : Z; e_length : Z }.

(** A media attachment, of which the code reads [file_id] only. *)
Record Media := { file_id : pystr }.

(** [telegram.Message], the fields the code reads.  An absent attachment
    is [None]; an absent photo is the empty size list. *)
Record Message := {
  text : option pystr;
  entities : list MessageEntity;
  photo : list Media;
  animation : option Media;
  video : option Media;
  document : option Media;
  audio : option Media;
  voice : option Media;
  video_note : option Media;
  sticker : option Media;
  caption : option pystr;
  caption_entities : list MessageEntity;
  is_topic_message : bool;
  message_thread_id : option Z
}.

Record InlineKeyboardButton := { b_text : pystr; callback_data : pystr }.

(** [InlineKeyboardMarkup(keyboard)]: rows of buttons. *)
Definition InlineKeyboardMarkup := list (list InlineKeyboardButton).

(** An outbound call on the bot, with the keyword arguments the caller
    passed.  [message_thread_id] is [None] when the caller passed [None]
    or nothing (the library's default); [disable_web_page_preview] is
    [None] when the keyword was not passed at all. *)
Inductive BotCall :=
| send_message (chat_id : Z) (text : pystr) (entities : list MessageEntity)
    (message_thread_id : option Z) (disable_web_page_preview : option bool)
| send_photo (chat_id : Z) (photo : pystr) (caption : option pystr)
    (caption_entities : list MessageEntity) (message_thread_id : option Z)
| send_animation (chat_id : Z) (animation : pystr) (caption : option pystr)
    (caption_entities : list MessageEntity) (message_thread_id : option Z)
| send_video (chat_id : Z) (video : pystr) (caption : option pystr)
    (caption_entities : list MessageEntity) (message_thread_id : option Z)
| send_document (chat_id : Z) (document : pystr) (caption : option pystr)
    (caption_entities : list MessageEntity) (message_thread_id : option Z)
| send_audio (chat_id : Z) (audio : pystr) (caption : option pystr)
    (caption_entities : list MessageEntity) (message_thread_id : option Z)
| send_voice (chat_id : Z) (voice : pystr) (caption : option pystr)
    (caption_entities : list MessageEntity) (message_thread_id : option Z)
| send_video_note (chat_id : Z) (video_note : pystr)
    (message_thread_id : option Z)
| send_sticker (chat_id : Z) (sticker : pystr) (message_thread_id : option Z)
| reply_text (text : pystr) (reply_markup : option InlineKeyboardMarkup).

(** The message object the platform hands back for a call. *)
Inductive SentMessage := Sent (c : BotCall).

(** The bot: the calls made so far, oldest first. *)
Definition Bot := list BotCall.

(** [await bot.send_...(...)]: the call is recorded as made, and the
    message of the platform is returned.  A call that the platform
    rejects raises in the caller, and no handler catches it; the run
    followed here is the one in which the call is accepted, and what is
    stated about the handlers is stated about the calls they make. *)
Definition call (c : BotCall) : SE Bot SentMessage :=
  fun calls => (Ok (Sent c), calls ++ [c]).

End Telegram.
Import Telegram.

(* ===================================================================== *)
(** ** The process state seen by services/gemini_service.py               *)
(* ===================================================================== *)

Module Runtime.

(** A list object lives in the heap at its address; [a + b] allocates,
    [random.shuffle] writes in place. *)
Abbreviation loc := nat (only parsing).
Abbreviation Heap := (list (list json)) (only parsing).

Record World := {
  service : ModelService;      (* the model_service singleton *)
  rng : list nat;              (* the draws random will make, in order *)
  heap : Heap;                 (* the list objects *)
  trace : list ProviderCall    (* requests sent to the backend, oldest first *)
}.

Definition with_service (s : ModelService) (w : World) : World :=
  {| service := s; rng := rng w; heap := heap w; trace := trace w |}.
Definition with_rng (r : list nat) (w : World) : World :=
  {| service := service w; rng := r; heap := heap w; trace := trace w |}.
Definition with_heap (h : Heap) (w : World) : World :=
  {| service := service w; rng := rng w; heap := h; trace := trace w |}.
Definition with_trace (t : list ProviderCall) (w : World) : World :=
  {| service := service w; rng := rng w; heap := heap w; trace := t |}.

(** Run a computation on the service inside the world. *)
Definition on_service {A} (m : SE ModelService A) : SE World A :=
  fun w => let '(r, s) := m (service w) in (r, with_service s w).

(** [ModelService.generate_content] *)
Definition generate_content (be : Backend) (model : option pystr)
    (contents : list part) : SE World (option pystr) :=
  fun w =>
    match adapter (service w) with
    | None => (Raise (ValueError (u8 "模型服务未初始化")), w)
    | Some a =>
        let c := {| pc_adapter := a; pc_model := model;
                    pc_contents := contents |} in
        (answer be (trace w) c, with_trace (trace w ++ [c]) w)
    end.

(** [random._randbelow(n)]: the next draw, reduced below [n]; a finished
    script of draws goes on with zeros. *)
Definition randbelow (n : nat) : SE World nat :=
  fun w => match rng w with
           | [] => (Ok 0, w)
           | d :: r => (Ok (d mod n), with_rng r w)
           end.

(** [random.choice(seq)] *)
Definition random_choice {A} (seq : list A) : SE World A :=
  i <- randbelow (length seq) ;;
  match seq !! i with
  | Some x => ret x
  | None => raise IndexError
  end.

(** [x[i], x[j] = x[j], x[i]] *)
Definition swap (x : list json) (i j : nat) : list json :=
  match x !! i, x !! j with
  | Some a, Some b => <[j := a]> (<[i := b]> x)
  | _, _ => x
  end.

Definition read (l : loc) : SE World (list json) :=
  fun w => match heap w !! l with
           | Some x => (Ok x, w)
           | None => (Raise IndexError, w)
           end.

Definition write (l : loc) (x : list json) : SE World unit :=
  modify (fun w => with_heap (<[l := x]> (heap w)) w).

(** A new list object. *)
Definition alloc (x : list json) : SE World loc :=
  fun w => (Ok (length (heap w)), with_heap (heap w ++ [x]) w).

(** The loop of [random.shuffle(x)]:
    [for i in reversed(range(1, len(x))): j = randbelow(i + 1); swap]. *)
Fixpoint shuffle_from (i : nat) (l : loc) : SE World unit :=
  match i with
  | O => ret tt
  | S i' =>
      j <- randbelow (S i) ;;
      x <- read l ;;
      write l (swap x i j) ;;;
      shuffle_from i' l
  end.

(** [random.shuffle(x)], in place. *)
Definition random_shuffle (l : loc) : SE World unit :=
  x <- read l ;;
  shuffle_from (length x - 1) l.

End Runtime.
Import Runtime.

(* ===================================================================== *)
(** ** services/gemini_service.py                                         *)
(* ===================================================================== *)

Module Gemini.

(** The settings of the [config] module the service reads. *)
Record Config := {
  AI_API_KEY : option pystr;
  AI_PROVIDER : pystr;
  AI_BASE_URL : option pystr;
  AI_FILTER_MODEL : option pystr;
  AI_VERIFICATION_MODEL : option pystr;
  ENABLE_AI_FILTER : bool
}.

(** The rows of [LOCAL_VERIFICATION_QUESTIONS]: question, correct answer,
    incorrect answers. *)
Definition bank_rows : list (pystr * pystr * list pystr) :=
  [ (u8 "中国的首都是哪里？", u8 "北京", [u8 "上海"; u8 "广州"; u8 "深圳"])
  ; (u8 "一年有多少个月？", u8 "12", [u8 "10"; u8 "11"; u8 "13"])
  ; (u8 "一周有多少天？", u8 "7", [u8 "5"; u8 "6"; u8 "8"])
  ; (u8 "太阳从哪个方向升起？", u8 "东方", [u8 "西方"; u8 "南方"; u8 "北方"])
  ; (u8 "水的化学式是什么？", u8 "H2O", [u8 "CO2"; u8 "O2"; u8 "NaCl"])
  ; (u8 "地球上最大的海洋是哪个？", u8 "太平洋", [u8 "大西洋"; u8 "印度洋"; u8 "北冰洋"])
  ; (u8 "哪个颜色是彩虹的第一种颜色？", u8 "红色", [u8 "橙色"; u8 "黄色"; u8 "绿色"])
  ; (u8 "人体有多少个心脏？", u8 "1", [u8 "2"; u8 "3"; u8 "4"])
  ; (u8 "哪个季节最热？", u8 "夏天", [u8 "春天"; u8 "秋天"; u8 "冬天"])
  ; (u8 "哪个是最大的行星？", u8 "木星", [u8 "土星"; u8 "天王星"; u8 "海王星"])
  ; (u8 "中国的国旗上有几颗星？", u8 "5", [u8 "3"; u8 "4"; u8 "6"])
  ; (u8 "哪个是哺乳动物？", u8 "狗", [u8 "鱼"; u8 "鸟"; u8 "蛇"])
  ; (u8 "哪个是水果？", u8 "苹果", [u8 "胡萝卜"; u8 "土豆"; u8 "洋葱"])
  ; (u8 "哪个是交通工具？", u8 "汽车", [u8 "桌子"; u8 "椅子"; u8 "床"])
  ; (u8 "哪个是颜色？", u8 "蓝色", [u8 "数字"; u8 "字母"; u8 "符号"])
  ; (u8 "以下哪个不属于行星？", u8 "月亮", [u8 "地球"; u8 "火星"; u8 "金星"])
  ; (u8 "以下哪个不属于水果？", u8 "胡萝卜", [u8 "苹果"; u8 "香蕉"; u8 "橙子"])
  ; (u8 "以下哪个不属于交通工具？", u8 "房子", [u8 "汽车"; u8 "飞机"; u8 "火车"])
  ; (u8 "以下哪个不属于颜色？", u8 "数字", [u8 "红色"; u8 "蓝色"; u8 "绿色"])
  ; (u8 "以下哪个不属于哺乳动物？", u8 "鱼", [u8 "猫"; u8 "狗"; u8 "牛"])
  ; (u8 "以下哪个不属于蔬菜？", u8 "苹果", [u8 "白菜"; u8 "萝卜"; u8 "黄瓜"])
  ; (u8 "以下哪个不属于鸟类？", u8 "狗", [u8 "麻雀"; u8 "鸽子"; u8 "燕子"])
  ; (u8 "以下哪个不属于金属？", u8 "木头", [u8 "铁"; u8 "铜"; u8 "铝"])
  ; (u8 "以下哪个不属于饮料？", u8 "米饭", [u8 "水"; u8 "茶"; u8 "咖啡"])
  ; (u8 "以下哪个不属于学习用品？", u8 "电视", [u8 "笔"; u8 "本子"; u8 "橡皮"])
  ; (u8 "以下哪个不属于运动项目？", u8 "睡觉", [u8 "跑步"; u8 "游泳"; u8 "篮球"])
  ; (u8 "以下哪个不属于季节？", u8 "星期", [u8 "春天"; u8 "夏天"; u8 "秋天"])
  ; (u8 "以下哪个不属于方向？", u8 "上下", [u8 "东"; u8 "南"; u8 "西"])
  ; (u8 "以下哪个不属于数字？", u8 "字母", [u8 "1"; u8 "2"; u8 "3"]) ].

(** One dict of the table; its [incorrect_answers] is a list object. *)
Record BankEntry := {
  q_question : pystr;
  q_correct_answer : pystr;
  q_incorrect_answers : loc
}.

(** The table as module loading builds it: the list object of row [i] is
    at address [i]. *)
Definition LOCAL_VERIFICATION_QUESTIONS : list BankEntry :=
  imap (fun i row => {| q_question := row.1.1; q_correct_answer := row.1.2;
                        q_incorrect_answers := i |}) bank_rows.

Definition bank_heap : Heap := map (fun row => map JStr row.2) bank_rows.

(** The returned dict of a challenge; [options] is the list object that
    was shuffled. *)
Record Challenge := {
  question : json;
  correct_answer : json;
  options : loc
}.

Definition analyze_prompt_parts : list pystr :=
  [ u8 "你是一个内容审查员。你的任务是分析提供给你的文本和/或图片内容，并判断其是否包含垃圾信息、恶意软件、钓鱼链接、不当言论、辱骂、攻击性词语或任何违反安全政策的内容。"
  ; u8 "请严格按照要求，仅以JSON格式返回你的分析结果，不要包含任何额外的解释或标记。"
  ; u8 "**输出格式**: 你必须且只能以严格的JSON格式返回你的分析结果，不得包含任何解释性文字或代码块标记。"
  ; u8 "**JSON结构**:" ++ nl
    ++ u8 "```json" ++ nl
    ++ u8 "{" ++ nl
    ++ u8 "  " ++ dq ++ u8 "is_spam" ++ dq ++ u8 ": boolean," ++ nl
    ++ u8 "  " ++ dq ++ u8 "reason" ++ dq ++ u8 ": " ++ dq ++ u8 "string" ++ dq ++ nl
    ++ u8 "}" ++ nl
    ++ u8 "```" ++ nl
    ++ u8 "*   `is_spam`: 如果内容违反**任何一条**安全策略，则为 `true`；如果内容完全安全，则为 `false`。" ++ nl
    ++ u8 "*   `reason`: 用一句话精准概括判断依据。如果违规，请明确指出违规的类型。如果安全，此字段固定为 `" ++ dq ++ u8 "内容未发现违规。" ++ dq ++ u8 "`"
  ; nl
    ++ u8 "--- 以下是需要分析的内容 ---" ].

Definition unblock_prompt : pystr :=
  nl
  ++ u8 "        # 角色" ++ nl
  ++ u8 "        你是一个人机验证（CAPTCHA）问题生成器。" ++ nl
  ++ u8 "        # 任务" ++ nl
  ++ u8 "        生成一个随机的、适合成年人的中文常识性问题，用于区分人类和机器人。问题的格式应该是多样的。" ++ nl
  ++ u8 "        # 要求" ++ nl
  ++ u8 "        1.  **问题格式多样性**: 你需要随机选择以下两种问题格式之一进行提问：" ++ nl
  ++ u8 "            *   **a) 标准直接提问**: 例如，" ++ dq ++ u8 "中国的首都是哪里？" ++ dq ++ nl
  ++ u8 "            *   **b) 反向排除提问**: 使用" ++ dq ++ u8 "以下哪个不属于...？" ++ dq ++ u8 "或类似的句式。例如，" ++ dq ++ u8 "以下哪个不属于行星？" ++ dq ++ nl
  ++ u8 "        2.  **主题**: 问题主题应为完全随机的日常通用常识，无需限定在特定领域。" ++ nl
  ++ u8 "        3.  **难度**: 问题和选项的难度应设定为" ++ dq ++ u8 "绝大多数18岁以上母语为中文的成年人都能立即回答正确" ++ dq ++ u8 "的水平，避免专业或冷门知识。" ++ nl
  ++ u8 "        4.  **明确性**: 问题必须只有一个明确无误的正确答案。" ++ nl
  ++ u8 "        5.  **答案逻辑**:" ++ nl
  ++ u8 "            *   提供一个`correct_answer`（正确答案）。" ++ nl
  ++ u8 "            *   提供一个包含三个字符串的列表`incorrect_answers`（干扰项）。" ++ nl
  ++ u8 "            *   **对于标准问题**，所有选项应属于同一类别。" ++ nl
  ++ u8 "            *   **对于反向排除问题**，三个`incorrect_answers`应属于同一类别，而`correct_answer`则是那个不属于该类别的 outlier（局外者）。" ++ nl
  ++ u8 "        6.  **语言**: 所有内容必须为简体中文。" ++ nl
  ++ u8 "        7.  **输出格式**: 严格按照以下JSON格式返回，不要包含任何额外的解释或文字。" ++ nl
  ++ u8 "        # JSON格式示例" ++ nl
  ++ u8 "        {" ++ nl
  ++ u8 "          " ++ dq ++ u8 "question" ++ dq ++ u8 ": " ++ dq ++ u8 "问题文本" ++ dq ++ u8 "," ++ nl
  ++ u8 "          " ++ dq ++ u8 "correct_answer" ++ dq ++ u8 ": " ++ dq ++ u8 "正确答案" ++ dq ++ u8 "," ++ nl
  ++ u8 "          " ++ dq ++ u8 "incorrect_answers" ++ dq ++ u8 ": [" ++ dq ++ u8 "干扰项1" ++ dq ++ u8 ", " ++ dq ++ u8 "干扰项2" ++ dq ++ u8 ", " ++ dq ++ u8 "干扰项3" ++ dq ++ u8 "]" ++ nl
  ++ u8 "        }" ++ nl
  ++ u8 "        ".

Definition verification_prompt : pystr :=
  nl
  ++ u8 "        # 角色" ++ nl
  ++ u8 "        你是一个人机验证（CAPTCHA）问题生成器。" ++ nl
  ++ u8 "        # 任务" ++ nl
  ++ u8 "        生成一个随机的、适合成年人的中文常识性问题，用于区分人类和机器人。问题的格式应该是多样的。" ++ nl
  ++ u8 "        # 要求" ++ nl
  ++ u8 "        1.  **问题格式多样性**: 你需要随机选择以下两种问题格式之一进行提问：" ++ nl
  ++ u8 "            *   **a) 标准直接提问**: 例如，" ++ dq ++ u8 "中国的首都是哪里？" ++ dq ++ nl
  ++ u8 "            *   **b) 反向排除提问**: 使用" ++ dq ++ u8 "以下哪个不属于...？" ++ dq ++ u8 "或类似的句式。例如，" ++ dq ++ u8 "以下哪个不属于行星？" ++ dq ++ nl
  ++ u8 "        2.  **主题**: 问题主题应为完全随机的日常通用常识，无需限定在特定领域。" ++ nl
  ++ u8 "        3.  **难度**: 问题和选项的难度应设定为" ++ dq ++ u8 "绝大多数18岁以上母语为中文的成年人都能立即回答正确" ++ dq ++ u8 "的水平，避免专业或冷门知识。" ++ nl
  ++ u8 "        4.  **明确性**: 问题必须只有一个明确无误的正确答案。" ++ nl
  ++ u8 "        5.  **答案逻辑**:" ++ nl
  ++ u8 "            *   提供一个`correct_answer`（正确答案）。" ++ nl
  ++ u8 "            *   提供一个包含三个字符串的列表`incorrect_answers`（干扰项）。" ++ nl
  ++ u8 "            *   **对于标准问题**，所有选项应属于同一类别。" ++ nl
  ++ u8 "            *   **对于反向排除问题**，三个`incorrect_answers`应属于同一类别，而`correct_answer`则是那个不属于该类别的 outlier（局外者）。" ++ nl
  ++ u8 "        6.  **语言**: 所有内容必须为简体中文。" ++ nl
  ++ u8 "        7.  **输出格式**: 严格按照以下JSON格式返回，不要包含任何额外的解释或文字。" ++ nl
  ++ u8 "        # JSON格式示例" ++ nl
  ++ u8 "        {" ++ nl
  ++ u8 "          " ++ dq ++ u8 "question" ++ dq ++ u8 ": " ++ dq ++ u8 "问题文本" ++ dq ++ u8 "," ++ nl
  ++ u8 "          " ++ dq ++ u8 "correct_answer" ++ dq ++ u8 ": " ++ dq ++ u8 "正确答案" ++ dq ++ u8 "," ++ nl
  ++ u8 "          " ++ dq ++ u8 "incorrect_answers" ++ dq ++ u8 ": [" ++ dq ++ u8 "干扰项1" ++ dq ++ u8 ", " ++ dq ++ u8 "干扰项2" ++ dq ++ u8 ", " ++ dq ++ u8 "干扰项3" ++ dq ++ u8 "]" ++ nl
  ++ u8 "        }" ++ nl
  ++ u8 "        ".

Definition autoreply_prompt_parts (user_message knowledge_base_content : pystr) : list pystr :=
  [ u8 "你是一个客服助手，必须严格根据提供的知识库内容来回答用户的问题。"
  ; u8 "**重要规则：**"
  ; u8 "1. 你只能根据知识库中的内容来回答用户的问题。"
  ; u8 "2. 如果知识库中没有相关内容，你必须明确告诉用户：'抱歉，我无法根据现有知识库回答您的问题，请稍后管理员会为您回复。'"
  ; u8 "3. 严禁编造、猜测或提供知识库中没有的信息。"
  ; u8 "4. 如果用户的问题与知识库内容相关，请整理汇总相关知识库条目，用清晰、友好的语言回答。"
  ; u8 "5. 回答要简洁明了，直接回答用户的问题。"
  ; u8 "6. **重要：请使用Markdown格式回复**，可以使用以下Markdown语法："
  ; u8 "   - 使用 **粗体** 强调重要内容"
  ; u8 "   - 使用 *斜体* 表示次要信息"
  ; u8 "   - 使用 `代码` 格式表示技术术语或命令"
  ; u8 "   - 使用列表格式（- 或 1.）组织内容"
  ; u8 "   - 使用 > 引用块表示重要提示"
  ; nl
    ++ u8 "--- 知识库内容 ---"
  ; knowledge_base_content
  ; nl
    ++ u8 "--- 用户问题 ---"
  ; user_message
  ; nl
    ++ u8 "--- 请根据知识库内容回答用户问题（使用Markdown格式）---"
  ; u8 "如果知识库中没有相关内容，请回复：'抱歉，我无法根据现有知识库回答您的问题，请稍后管理员会为您回复。'" ].

Definition verdict (is_spam : bool) (reason : pystr) : json :=
  JObj [(u8 "is_spam", JBool is_spam); (u8 "reason", JStr reason)].

Section Service.

Variable be : Backend.
Variable config : Config.

(** Whether [Image.open(io.BytesIO(image_bytes))] succeeds. *)
Variable image_opens : list N -> bool.

Definition clear_service : SE ModelService unit :=
  set_adapter None ;;;
  set_filter_model_name None ;;;
  set_verification_model_name None.

(** [GeminiService._initialize_model_service] *)
Definition _initialize_model_service : SE World unit :=
  let api_key := AI_API_KEY config in
  if negb (truthy_opt api_key) then on_service clear_service
  else
    try_except
      (on_service (initialize be (AI_PROVIDER config) (default [] api_key)
                     (AI_BASE_URL config) (AI_FILTER_MODEL config)
                     (AI_VERIFICATION_MODEL config) []))
      (fun _ => on_service clear_service).

Definition truthy_adapter (a : option Adapter) : bool :=
  match a with Some _ => true | None => false end.

Definition truthy_bytes (b : option (list N)) : bool :=
  match b with Some (_ :: _) => true | _ => false end.

(** [GeminiService.analyze_message] *)
Definition analyze_message (message : Message) (image_bytes : option (list N))
  : SE World json :=
  w <- get ;;
  if negb (truthy_adapter (adapter (service w)))
     || negb (truthy_opt (filter_model_name (service w)))
     || negb (ENABLE_AI_FILTER config)
  then ret (verdict false (u8 "AI filter disabled"))
  else
    let content := [] in
    let content :=
      if truthy_opt (text message)
      then content ++ [PText (default [] (text message))] else content in
    let content :=
      if truthy_bytes image_bytes then
        if image_opens (default [] image_bytes)
        then content ++ [PImage (default [] image_bytes)]
        else content
      else content in
    match content with
    | [] => ret (verdict false (u8 "No content to analyze"))
    | _ =>
        let content := content ++ [PText (join nl analyze_prompt_parts)] in
        try_except
          (response_text <-
             generate_content be (filter_model_name (service w)) content ;;
           if negb (truthy_opt response_text)
           then raise (ValueError (u8 "API returned an empty response."))
           else
             let clean_text := clean_text (default [] response_text) in
             match json_loads clean_text with
             | Some result => ret result
             | None => raise JSONDecodeError
             end)
          (fun e =>
             match e with
             | JSONDecodeError =>
                 ret (verdict false (u8 "Analysis failed - JSON parse error"))
             | _ => ret (verdict false (u8 "Analysis failed"))
             end)
    end.

(** [GeminiService._get_local_question] *)
Definition _get_local_question : SE World Challenge :=
  question_data <- random_choice LOCAL_VERIFICATION_QUESTIONS ;;
  let correct_answer := JStr (q_correct_answer question_data) in
  incorrect_answers <- read (q_incorrect_answers question_data) ;;
  options <- alloc (incorrect_answers ++ [correct_answer]) ;;
  random_shuffle options ;;;
  ret {| question := JStr (q_question question_data);
         correct_answer := correct_answer;
         options := options |}.

(** [data[k]] inside a [try]: a failure is an exception. *)
Definition item (data : json) (k : pystr) : SE World json :=
  match data with
  | JObj d => match dict_get k d with
              | Some v => ret v
              | None => raise (KeyError k)
              end
  | _ => raise TypeError
  end.

(** [a + [x]] where [a] came out of [json.loads]: only a list can be
    added to a list. *)
Definition plus_list (a : json) (x : json) : SE World loc :=
  match a with
  | JArr l => alloc (l ++ [x])
  | _ => raise TypeError
  end.

(** [GeminiService.generate_unblock_question] *)
Definition generate_unblock_question : SE World Challenge :=
  w <- get ;;
  if negb (truthy_adapter (adapter (service w)))
     || negb (truthy_opt (verification_model_name (service w)))
  then _get_local_question
  else
    let prompt := unblock_prompt in
    try_except
      (response_text <-
         generate_content be (verification_model_name (service w))
           [PText prompt] ;;
       if negb (truthy_opt response_text)
       then raise (ValueError (u8 "API返回空响应"))
       else
         let clean_text := clean_text (default [] response_text) in
         match json_loads clean_text with
         | None => raise JSONDecodeError
         | Some data =>
             correct_answer <- item data (u8 "correct_answer") ;;
             incorrect_answers <- item data (u8 "incorrect_answers") ;;
             options <- plus_list incorrect_answers correct_answer ;;
             random_shuffle options ;;;
             question <- item data (u8 "question") ;;
             ret {| question := question;
                    correct_answer := correct_answer;
                    options := options |}
         end)
      (fun _ => _get_local_question).

(** [GeminiService.generate_verification_challenge] *)
Definition generate_verification_challenge : SE World Challenge :=
  w <- get ;;
  if negb (truthy_adapter (adapter (service w)))
     || negb (truthy_opt (verification_model_name (service w)))
  then _get_local_question
  else
    let prompt := verification_prompt in
    try_except
      (response_text <-
         generate_content be (verification_model_name (service w))
           [PText prompt] ;;
       if negb (truthy_opt response_text)
       then raise (ValueError (u8 "API返回空响应"))
       else
         let clean_text := clean_text (default [] response_text) in
         match json_loads clean_text with
         | None => raise JSONDecodeError
         | Some data =>
             correct_answer <- item data (u8 "correct_answer") ;;
             incorrect_answers <- item data (u8 "incorrect_answers") ;;
             options <- plus_list incorrect_answers correct_answer ;;
             random_shuffle options ;;;
             question <- item data (u8 "question") ;;
             ret {| question := question;
                    correct_answer := correct_answer;
                    options := options |}
         end)
      (fun _ => _get_local_question).

(** [GeminiService.generate_autoreply]; [None] is the absent result. *)
Definition generate_autoreply (user_message : pystr)
    (knowledge_base_content : option pystr) : SE World (option pystr) :=
  w <- get ;;
  if negb (truthy_adapter (adapter (service w)))
     || negb (truthy_opt (filter_model_name (service w)))
  then ret None
  else if negb (truthy_opt knowledge_base_content)
          || str_eqb (strip (default [] knowledge_base_content)) []
  then ret None
  else
    let prompt_parts :=
      autoreply_prompt_parts user_message
        (default [] knowledge_base_content) in
    try_except
      (response_text <-
         generate_content be (filter_model_name (service w))
           [PText (join nl prompt_parts)] ;;
       if negb (truthy_opt response_text) then ret None
       else
         let response_text := default [] response_text in
         if contains (u8 "无法根据现有知识库") response_text
            || contains (u8 "抱歉") response_text
         then ret None
         else ret (Some (strip response_text)))
      (fun _ => ret None).

End Service.

End Gemini.
Import Gemini.

(* ===================================================================== *)
(** ** utils/message_sender.py                                            *)
(* ===================================================================== *)

Module Sender.

Definition truthy_media (m : option Media) : bool :=
  match m with Some _ => true | None => false end.

Definition truthy_photo (p : list Media) : bool :=
  match p with [] => false | _ => true end.

(** [x.file_id] on an attachment that was tested to be there. *)
Definition file_id_of (m : option Media) : SE Bot pystr :=
  match m with
  | Some x => ret (file_id x)
  | None => raise AttributeError
  end.

(** [message.photo[-1].file_id] *)
Definition last_file_id (p : list Media) : SE Bot pystr :=
  match last p with
  | Some x => ret (file_id x)
  | None => raise IndexError
  end.

Definition some {A} (m : SE Bot A) : SE Bot (option A) :=
  a <- m ;; ret (Some a).

(** [send_message_by_type] *)
Definition send_message_by_type (message : Message) (chat_id : Z)
    (thread_id : option Z) (disable_web_page_preview : bool)
  : SE Bot (option SentMessage) :=
  if truthy_opt (text message) then
    some (call (send_message chat_id (default [] (text message))
                  (entities message) thread_id
                  (Some disable_web_page_preview)))
  else if truthy_photo (photo message) then
    f <- last_file_id (photo message) ;;
    some (call (send_photo chat_id f (caption message)
                  (caption_entities message) thread_id))
  else if truthy_media (animation message) then
    f <- file_id_of (animation message) ;;
    some (call (send_animation chat_id f (caption message)
                  (caption_entities message) thread_id))
  else if truthy_media (video message) then
    f <- file_id_of (video message) ;;
    some (call (send_video chat_id f (caption message)
                  (caption_entities message) thread_id))
  else if truthy_media (document message) then
    f <- file_id_of (document message) ;;
    some (call (send_document chat_id f (caption message)
                  (caption_entities message) thread_id))
  else if truthy_media (audio message) then
    f <- file_id_of (audio message) ;;
    some (call (send_audio chat_id f (caption message)
                  (caption_entities message) thread_id))
  else if truthy_media (voice message) then
    f <- file_id_of (voice message) ;;
    some (call (send_voice chat_id f (caption message)
                  (caption_entities message) thread_id))
  else if truthy_media (video_note message) then
    f <- file_id_of (video_note message) ;;
    some (call (send_video_note chat_id f thread_id))
  else if truthy_media (sticker message) then
    f <- file_id_of (sticker message) ;;
    some (call (send_sticker chat_id f thread_id))
  else ret None.

End Sender.
Import Sender.

(* ===================================================================== *)
(** ** handlers/admin_handler.py                                          *)
(* ===================================================================== *)

Module Admin.

(** [telegram.Update], the fields the handlers read. *)
Record Update := {
  u_message : option Message;
  effective_user_id : Z
}.

(** The row [db.get_user_by_thread_id] returns. *)
Record UserRow := { user_id : Z }.

(** A row of the filtered-message log; [None] is a missing or [NULL]
    column. *)
Record FilteredRow := {
  first_name : option pystr;
  username : option pystr;
  reason : option pystr;
  content : option pystr;
  filtered_at : option pystr
}.

(** [msg.get(k) or 'N/A'] *)
Definition or_na (v : option pystr) : pystr :=
  if truthy_opt v then default [] v else u8 "N/A".

(** [_send_reply_to_user] *)
Definition _send_reply_to_user (update : Update) (user_id : Z)
  : SE Bot unit :=
  match u_message update with
  | None => raise AttributeError
  | Some message =>
      if truthy_opt (text message) then
        call (send_message user_id (default [] (text message))
                (entities message) None (Some true)) ;;; ret tt
      else if truthy_photo (photo message) then
        f <- last_file_id (photo message) ;;
        call (send_photo user_id f (caption message)
                (caption_entities message) None) ;;; ret tt
      else if truthy_media (animation message) then
        f <- file_id_of (animation message) ;;
        call (send_animation user_id f (caption message)
                (caption_entities message) None) ;;; ret tt
      else if truthy_media (video message) then
        f <- file_id_of (video message) ;;
        call (send_video user_id f (caption message)
                (caption_entities message) None) ;;; ret tt
      else if truthy_media (document message) then
        f <- file_id_of (document message) ;;
        call (send_document user_id f (caption message)
                (caption_entities message) None) ;;; ret tt
      else if truthy_media (audio message) then
        f <- file_id_of (audio message) ;;
        call (send_audio user_id f (caption message)
                (caption_entities message) None) ;;; ret tt
      else if truthy_media (voice message) then
        f <- file_id_of (voice message) ;;
        call (send_voice user_id f (caption message)
                (caption_entities message) None) ;;; ret tt
      else if truthy_media (video_note message) then
        f <- file_id_of (video_note message) ;;
        call (send_video_note user_id f None) ;;; ret tt
      else if truthy_media (sticker message) then
        f <- file_id_of (sticker message) ;;
        call (send_sticker user_id f None) ;;; ret tt
      else ret tt
  end.

(** One entry of the page, [idx] counted from 1. *)
Definition format_entry (idx : Z) (msg : FilteredRow) : pystr :=
  let first_name := or_na (first_name msg) in
  let username := or_na (username msg) in
  let reason := or_na (reason msg) in
  let content := or_na (content msg) in
  let filtered_at := or_na (filtered_at msg) in
  let content :=
    if truthy_str content && (100 <? length content)%nat
    then take 100 content ++ u8 "..." else content in
  u8 "【" ++ dec_Z idx ++ u8 "】" ++ nl
  ++ u8 "用户: " ++ first_name ++ u8 " (@" ++ username ++ u8 ")" ++ nl
  ++ u8 "原因: " ++ reason ++ nl
  ++ u8 "内容: " ++ content ++ nl
  ++ u8 "时间: " ++ filtered_at ++ nl ++ nl.

Fixpoint format_entries (idx : Z) (messages : list FilteredRow) : pystr :=
  match messages with
  | [] => []
  | msg :: r => format_entry idx msg ++ format_entries (idx + 1) r
  end.

(** [_format_filtered_messages] *)
Definition _format_filtered_messages (messages : list FilteredRow)
    (page total_pages : Z) : pystr :=
  u8 "被过滤的消息 (第 " ++ dec_Z page ++ u8 "/" ++ dec_Z total_pages
  ++ u8 " 页):" ++ nl ++ nl
  ++ format_entries 1 messages.

Definition filtered_page (n : Z) : pystr := u8 "filtered_page_" ++ dec_Z n.

(** [_get_filtered_messages_keyboard] *)
Definition _get_filtered_messages_keyboard (page total_pages : Z)
  : option InlineKeyboardMarkup :=
  let keyboard := [] in
  if (total_pages <=? 1)%Z then None
  else
    let buttons := [] in
    let buttons :=
      if (1 <? page)%Z
      then buttons ++ [{| b_text := u8 "上一页";
                          callback_data := filtered_page (page - 1) |}]
      else buttons in
    let buttons :=
      if (page <? total_pages)%Z
      then buttons ++ [{| b_text := u8 "下一页";
                          callback_data := filtered_page (page + 1) |}]
      else buttons in
    let keyboard :=
      match buttons with [] => keyboard | _ => keyboard ++ [buttons] end in
    match keyboard with [] => None | _ => Some keyboard end.

Section Handlers.

(** The persistence boundary ([database.models]). *)
Variable get_user_by_thread_id : option Z -> option UserRow.
Variable is_admin : Z -> bool.
Variable get_filtered_messages_count : Z.
Variable get_filtered_messages : Z -> Z -> list FilteredRow.

(** [handle_admin_reply] *)
Definition handle_admin_reply (update : Update) : SE Bot unit :=
  match u_message update with
  | None => ret tt
  | Some message =>
      if negb (is_topic_message message) then ret tt
      else
        let thread_id := message_thread_id message in
        match get_user_by_thread_id thread_id with
        | None => ret tt
        | Some user =>
            let user_id := user_id user in
            _send_reply_to_user update user_id
        end
  end.

(** [update.message.reply_text(...)] *)
Definition reply (update : Update) (text : pystr)
    (reply_markup : option InlineKeyboardMarkup) : SE Bot unit :=
  match u_message update with
  | None => raise AttributeError
  | Some _ => call (reply_text text reply_markup) ;;; ret tt
  end.

(** [view_filtered] *)
Definition view_filtered (update : Update) : SE Bot unit :=
  if negb (is_admin (effective_user_id update))
  then reply update (u8 "您没有权限执行此操作。") None
  else
    let MESSAGES_PER_PAGE := 5%Z in
    let page := 1%Z in
    let total_count := get_filtered_messages_count in
    if (total_count =? 0)%Z
    then reply update (u8 "没有找到被过滤的消息。") None
    else
      let total_pages :=
        ((total_count + MESSAGES_PER_PAGE - 1) / MESSAGES_PER_PAGE)%Z in
      let offset := ((page - 1) * MESSAGES_PER_PAGE)%Z in
      let messages := get_filtered_messages MESSAGES_PER_PAGE offset in
      match messages with
      | [] => reply update (u8 "没有找到被过滤的消息。") None
      | _ =>
          let response :=
            _format_filtered_messages messages page total_pages in
          let keyboard :=
            _get_filtered_messages_keyboard page total_pages in
          match keyboard with
          | Some k => reply update response (Some k)
          | None => reply update response None
          end
      end.

End Handlers.

End Admin.
Import Admin.

(* ===================================================================== *)
(** ** Reference definitions, written from the specification              *)
(* ===================================================================== *)

Module Reference.

(** The nine message kinds, in the order the specification fixes. *)
Inductive kind :=
| KText | KPhoto | KAnimation | KVideo | KDocument
| KAudio | KVoice | KVideoNote | KSticker.

Definition dispatch_order : list kind :=
  [KText; KPhoto; KAnimation; KVideo; KDocument; KAudio; KVoice;
   KVideoNote; KSticker].

(** Whether a kind is populated in a message. *)
Definition populated (m : Message) (k : kind) : bool :=
  match k with
  | KText => truthy_opt (text m)
  | KPhoto => truthy_photo (photo m)
  | KAnimation => truthy_media (animation m)
  | KVideo => truthy_media (video m)
  | KDocument => truthy_media (document m)
  | KAudio => truthy_media (audio m)
  | KVoice => truthy_media (voice m)
  | KVideoNote => truthy_media (video_note m)
  | KSticker => truthy_media (sticker m)
  end.

(** First match wins. *)
Definition first_kind (m : Message) : option kind :=
  find (populated m) dispatch_order.

Definition ref_of (m : option Media) : pystr :=
  match m with Some x => file_id x | None => [] end.

(** The outbound call the specification prescribes for a kind: the text
    with its entities and the link-preview setting [preview]; the last
    entry of the size list for a photo, with caption and caption
    entities; the file reference with caption and caption entities for
    animation, video, document, audio and voice; the file reference alone
    for a video note and a sticker. *)
Definition relay_call (m : Message) (chat : Z) (topic : option Z)
    (preview : option bool) (k : kind) : BotCall :=
  match k with
  | KText => send_message chat (default [] (text m)) (entities m) topic preview
  | KPhoto => send_photo chat (ref_of (last (photo m))) (caption m)
                (caption_entities m) topic
  | KAnimation => send_animation chat (ref_of (animation m)) (caption m)
                    (caption_entities m) topic
  | KVideo => send_video chat (ref_of (video m)) (caption m)
                (caption_entities m) topic
  | KDocument => send_document chat (ref_of (document m)) (caption m)
                   (caption_entities m) topic
  | KAudio => send_audio chat (ref_of (audio m)) (caption m)
                (caption_entities m) topic
  | KVoice => send_voice chat (ref_of (voice m)) (caption m)
                (caption_entities m) topic
  | KVideoNote => send_video_note chat (ref_of (video_note m)) topic
  | KSticker => send_sticker chat (ref_of (sticker m)) topic
  end.

(** ceiling(a / b) for a positive [b]. *)
Definition ceiling (a b : Z) : Z :=
  (if a mod b =? 0 then a / b else a / b + 1)%Z.

Definition prev_button (page : Z) : InlineKeyboardButton :=
  {| b_text := u8 "上一页"; callback_data := filtered_page (page - 1) |}.
Definition next_button (page : Z) : InlineKeyboardButton :=
  {| b_text := u8 "下一页"; callback_data := filtered_page (page + 1) |}.

(** The question table as a reader of the module sees it: every entry
    with the content of its [incorrect_answers] list. *)
Definition bank_view (h : Heap)
  : list (pystr * pystr * option (list json)) :=
  map (fun e => (q_question e, q_correct_answer e,
                 h !! q_incorrect_answers e))
      LOCAL_VERIFICATION_QUESTIONS.

(** The table as the source text writes it. *)
Definition bank_source : list (pystr * pystr * option (list json)) :=
  map (fun row => (row.1.1, row.1.2, Some (map JStr row.2))) bank_rows.

(** Successive calls of [_get_local_question], one per script of draws;
    the results are dropped, the state is kept. *)
Fixpoint local_calls (scripts : list (list nat)) (w : World) : World :=
  match scripts with
  | [] => w
  | r :: rest => local_calls rest (snd (_get_local_question (with_rng r w)))
  end.

(** The one request [generate_autoreply] sends. *)
Definition autoreply_call (a : Adapter) (w : World)
    (user_message knowledge_base : pystr) : ProviderCall :=
  {| pc_adapter := a;
     pc_model := filter_model_name (service w);
     pc_contents :=
       [PText (join nl (autoreply_prompt_parts user_message knowledge_base))] |}.

(** The one request a challenge generator sends. *)
Definition challenge_call (a : Adapter) (w : World) (prompt : pystr)
  : ProviderCall :=
  {| pc_adapter := a;
     pc_model := verification_model_name (service w);
     pc_contents := [PText prompt] |}.

(** A reply that defers to a human. *)
Definition suppressed (t : pystr) : bool :=
  contains (u8 "无法根据现有知识库") t || contains (u8 "抱歉") t.

(** A knowledge base that is absent or all whitespace. *)
Definition blank (kb : option pystr) : bool :=
  match kb with
  | None => true
  | Some s => forallb is_space s
  end.

(** A challenge drawn from the table: one of its rows, [inc] the row's
    incorrect answers. *)
Definition from_bank (r : Challenge) (inc : list json) : Prop :=
  exists row,
    In row bank_rows /\ question r = JStr row.1.1
    /\ correct_answer r = JStr row.1.2 /\ inc = map JStr row.2.

(** A challenge built from the backend's reply to [prompt] in world [w]:
    the reply parsed, after cleaning, to a value whose three fields are
    the question, the correct answer and the list [inc]. *)
Definition from_reply (be : Backend) (w : World) (prompt : pystr)
    (r : Challenge) (inc : list json) : Prop :=
  exists a t data,
    adapter (service w) = Some a
    /\ answer be (trace w) (challenge_call a w prompt) = Ok (Some t)
    /\ json_loads (clean_text t) = Some data
    /\ subscript data (u8 "question") = Some (question r)
    /\ subscript data (u8 "correct_answer") = Some (correct_answer r)
    /\ subscript data (u8 "incorrect_answers") = Some (JArr inc).

(** The option-set invariant of a challenge whose options are [opts].
    Entries are compared as parsed values, which on strings is Python's
    [==]. *)
Definition option_set_ok (opts : list json) (correct : json) : Prop :=
  length opts = 4 /\ count_occ json_eq_dec opts correct = 1.

End Reference.
Import Reference.

(** The world right after module loading: the service is uninitialised,
    the heap holds the lists of the question table. *)
Definition boot (draws : list nat) : World :=
  {| service := new_service; rng := draws; heap := bank_heap; trace := [] |}.

(** The body of the [try] block shared by the two challenge generators,
    for the prompt [prompt] and the service read in world [w0]. *)
Definition challenge_attempt (be : Backend) (prompt : pystr) (w0 : World)
  : SE World Challenge :=
  response_text <-
    generate_content be (verification_model_name (service w0))
      [PText prompt] ;;
  if negb (truthy_opt response_text)
  then raise (ValueError (u8 "API返回空响应"))
  else
    let clean_text := clean_text (default [] response_text) in
    match json_loads clean_text with
    | None => raise JSONDecodeError
    | Some data =>
        correct_answer <- item data (u8 "correct_answer") ;;
        incorrect_answers <- item data (u8 "incorrect_answers") ;;
        options <- plus_list incorrect_answers correct_answer ;;
        random_shuffle options ;;;
        question <- item data (u8 "question") ;;
        ret {| question := question;
               correct_answer := correct_answer;
               options := options |}
    end.

(* ===================================================================== *)
(** ** services/model_service.py: the four adapters                       *)
(* ===================================================================== *)

Module Adapters.

(** One entry of [messages]: [{"role": ..., "content": ...}]. *)
Record ChatMessage := { role : pystr; m_content : pystr }.

(** The keyword arguments of [chat.completions.create]. *)
Record ChatRequest := {
  rq_model : option pystr;
  rq_messages : list ChatMessage;
  rq_kwargs : list (pystr * json)
}.

(** The keyword arguments of [messages.create]. *)
Record ClaudeRequest := {
  cl_model : option pystr;
  cl_max_tokens : json;
  cl_messages : list ChatMessage;
  cl_kwargs : list (pystr * json)
}.

(** The keyword arguments of [aio.models.generate_content]. *)
Record GeminiRequest := {
  gm_model : option pystr;
  gm_contents : list part;
  gm_kwargs : list (pystr * json)
}.

(** What the code reads of a chat completion: for every choice its
    [message.content]. *)
Record ChatCompletion := { choices : list (option pystr) }.

(** What the code reads of a Claude message: for every content block its
    [text]. *)
Record ClaudeMessage := { blocks : list (option pystr) }.

(** What the code reads of a Gemini response: [candidates] ([None] also
    stands for a response without the attribute), and for every candidate
    its [content] ([None] when absent), the [text] of each part. *)
Record GeminiResponse := {
  candidates : option (list (option (list (option pystr))))
}.

(** The client libraries, the PNG encoder of [PIL] and [str(e)]. *)
Record Sdk := {
  gemini_generate : Adapter -> GeminiRequest -> res GeminiResponse;
  openai_create : Adapter -> option pystr -> ChatRequest -> res ChatCompletion;
  anthropic_create : Adapter -> ClaudeRequest -> res ClaudeMessage;
  png_save : list N -> res unit;
  describe : exn -> pystr
}.

Definition image_placeholder : pystr := u8 "[图片已包含]".
Definition user_role : pystr := u8 "user".

(** The base URL the client of an adapter was built with:
    [base_url or "https://api.openai.com/v1"] for OpenAI, the given one
    for the custom adapter; the other two clients get no base URL. *)
Definition endpoint (a : Adapter) : option pystr :=
  match a_kind a with
  | OpenAI => py_or (a_base_url a) (Some (u8 "https://api.openai.com/v1"))
  | Custom => a_base_url a
  | Gemini | Claude => None
  end.

Section WithSdk.

Variable sdk : Sdk.

(** The loop of [OpenAIAdapter._prepare_messages] and of
    [AnthropicAdapter._prepare_messages]: a string is kept, an image is
    encoded as PNG (which may raise) and replaced by the placeholder. *)
Fixpoint encode_parts (contents : list part) (text_parts : list pystr)
  : res (list pystr) :=
  match contents with
  | [] => Ok text_parts
  | PText s :: rest => encode_parts rest (text_parts ++ [s])
  | PImage img :: rest =>
      match png_save sdk img with
      | Raise e => Raise e
      | Ok _ => encode_parts rest (text_parts ++ [image_placeholder])
      end
  end.

(** The loop of [CustomAPIAdapter._prepare_messages]: no encoding. *)
Fixpoint plain_parts (contents : list part) (text_parts : list pystr)
  : list pystr :=
  match contents with
  | [] => text_parts
  | PText s :: rest => plain_parts rest (text_parts ++ [s])
  | PImage _ :: rest => plain_parts rest (text_parts ++ [image_placeholder])
  end.

Definition user_message (text_parts : list pystr) : ChatMessage :=
  {| role := user_role; m_content := join nl text_parts |}.

(** [OpenAIAdapter._prepare_messages] *)
Definition OpenAI_prepare_messages (contents : list part)
  : res (list ChatMessage) :=
  let messages := [] in
  match encode_parts contents [] with
  | Raise e => Raise e
  | Ok text_parts =>
      match text_parts with
      | [] => Ok messages
      | _ => Ok (messages ++ [user_message text_parts])
      end
  end.

(** [AnthropicAdapter._prepare_messages] *)
Definition Anthropic_prepare_messages (contents : list part)
  : res (list ChatMessage) :=
  match encode_parts contents [] with
  | Raise e => Raise e
  | Ok text_parts => Ok [user_message text_parts]
  end.

(** [CustomAPIAdapter._prepare_messages] *)
Definition Custom_prepare_messages (contents : list part)
  : list ChatMessage :=
  let messages := [] in
  match plain_parts contents [] with
  | [] => messages
  | text_parts => messages ++ [user_message text_parts]
  end.

(** [raise Exception(f"... API调用失败: {e}")] *)
Definition wrap {A} (prefix : pystr) (r : res A) : res A :=
  match r with
  | Ok a => Ok a
  | Raise e => Raise (ProviderError (prefix ++ describe sdk e))
  end.

(** A keyword passed both by name and through [**kwargs] is a
    [TypeError] at the call. *)
Definition has_key (k : pystr) (kwargs : list (pystr * json)) : bool :=
  match dict_get k kwargs with Some _ => true | None => false end.

(** [GeminiAdapter.generate_content] *)
Definition Gemini_generate_content (a : Adapter) (model : option pystr)
    (contents : list part) (kwargs : list (pystr * json))
  : res (option pystr) :=
  wrap (u8 "Gemini API调用失败: ")
    (match gemini_generate sdk a
             {| gm_model := model; gm_contents := contents;
                gm_kwargs := kwargs |} with
     | Raise e => Raise e
     | Ok response =>
         match candidates response with
         | None | Some [] => Raise (ValueError (u8 "API响应被阻止或无效"))
         | Some (first :: _) =>
             match first with
             | None => Raise AttributeError
             | Some [] => Raise (ValueError (u8 "API返回空响应"))
             | Some (p :: _) => Ok p
             end
         end
     end).

(** The test [not response.choices or not response.choices[0].message.content]
    and the value returned after it. *)
Definition first_text (texts : list (option pystr)) : res (option pystr) :=
  match texts with
  | [] => Raise (ValueError (u8 "API返回空响应"))
  | t :: _ =>
      if negb (truthy_opt t) then Raise (ValueError (u8 "API返回空响应"))
      else Ok t
  end.

(** [OpenAIAdapter.generate_content] *)
Definition OpenAI_generate_content (a : Adapter) (model : option pystr)
    (contents : list part) (kwargs : list (pystr * json))
  : res (option pystr) :=
  wrap (u8 "OpenAI API调用失败: ")
    (match OpenAI_prepare_messages contents with
     | Raise e => Raise e
     | Ok messages =>
         if has_key (u8 "messages") kwargs then Raise TypeError
         else
           match openai_create sdk a (endpoint a)
                   {| rq_model := model; rq_messages := messages;
                      rq_kwargs := kwargs |} with
           | Raise e => Raise e
           | Ok response => first_text (choices response)
           end
     end).

(** [kwargs.get('max_tokens', 4096)] *)
Definition max_tokens_of (kwargs : list (pystr * json)) : json :=
  match dict_get (u8 "max_tokens") kwargs with
  | Some v => v
  | None => JNum (u8 "4096")
  end.

(** [{k: v for k, v in kwargs.items() if k != 'max_tokens'}] *)
Definition without_max_tokens (kwargs : list (pystr * json))
  : list (pystr * json) :=
  filter (fun kv => negb (str_eqb (fst kv) (u8 "max_tokens"))) kwargs.

(** [AnthropicAdapter.generate_content] *)
Definition Anthropic_generate_content (a : Adapter) (model : option pystr)
    (contents : list part) (kwargs : list (pystr * json))
  : res (option pystr) :=
  wrap (u8 "Claude API调用失败: ")
    (match Anthropic_prepare_messages contents with
     | Raise e => Raise e
     | Ok messages =>
         if has_key (u8 "messages") (without_max_tokens kwargs)
         then Raise TypeError
         else
           match anthropic_create sdk a
                   {| cl_model := model;
                      cl_max_tokens := max_tokens_of kwargs;
                      cl_messages := messages;
                      cl_kwargs := without_max_tokens kwargs |} with
           | Raise e => Raise e
           | Ok response => first_text (blocks response)
           end
     end).

(** [CustomAPIAdapter.generate_content] *)
Definition Custom_generate_content (a : Adapter) (model : option pystr)
    (contents : list part) (kwargs : list (pystr * json))
  : res (option pystr) :=
  wrap (u8 "自定义API调用失败: ")
    (let messages := Custom_prepare_messages contents in
     if has_key (u8 "messages") kwargs then Raise TypeError
     else
       match openai_create sdk a (endpoint a)
               {| rq_model := model; rq_messages := messages;
                  rq_kwargs := kwargs |} with
       | Raise e => Raise e
       | Ok response => first_text (choices response)
       end).

(** [adapter.generate_content(model, contents, **kwargs)], dispatched on
    the class of the adapter. *)
Definition adapter_generate_content (a : Adapter) (model : option pystr)
    (contents : list part) (kwargs : list (pystr * json))
  : res (option pystr) :=
  match a_kind a with
  | Gemini => Gemini_generate_content a model contents kwargs
  | OpenAI => OpenAI_generate_content a model contents kwargs
  | Claude => Anthropic_generate_content a model contents kwargs
  | Custom => Custom_generate_content a model contents kwargs
  end.

(** [ModelService.is_available]: [False] without adapter, else the
    adapter's [self.client is not None], which holds once constructed. *)
Definition is_available (self : ModelService) : bool :=
  match adapter self with
  | None => false
  | Some _ => true
  end.

(** The backend the services talk to when the adapters run on [sdk]:
    the services pass no keyword arguments of their own. *)
Definition sdk_backend (constructs : provider_kind -> pystr -> option pystr -> bool)
  : Backend :=
  {| client_constructs := constructs;
     answer := fun _ c =>
       adapter_generate_content (pc_adapter c) (pc_model c) (pc_contents c) [] |}.

End WithSdk.

End Adapters.
Import Adapters.

(* ===================================================================== *)
(** ** Reference definitions for the remaining properties                 *)
(* ===================================================================== *)

Module Reference2.

(** The provider key of an adapter class. *)
Definition key_of (k : provider_kind) : pystr :=
  match k with
  | Gemini => u8 "gemini"
  | OpenAI => u8 "openai"
  | Claude => u8 "claude"
  | Custom => u8 "custom"
  end.

(** A service on which every AI feature is available. *)
Definition configured (s : ModelService) : Prop :=
  adapter s <> None
  /\ truthy_opt (filter_model_name s) = true
  /\ truthy_opt (verification_model_name s) = true.

(** The content parts [analyze_message] assembles: the text if there is
    one, the image if it decodes, the instruction block. *)
Definition analysis_parts (image_opens : list N -> bool) (message : Message)
    (image_bytes : option (list N)) : list part :=
  (if truthy_opt (text message) then [PText (default [] (text message))]
   else [])
  ++ (if truthy_bytes image_bytes && image_opens (default [] image_bytes)
      then [PImage (default [] image_bytes)] else []).

Definition analysis_call (a : Adapter) (w : World)
    (image_opens : list N -> bool) (message : Message)
    (image_bytes : option (list N)) : ProviderCall :=
  {| pc_adapter := a;
     pc_model := filter_model_name (service w);
     pc_contents := analysis_parts image_opens message image_bytes
                    ++ [PText (join nl analyze_prompt_parts)] |}.

(** The verdict [analyze_message] derives from the adapter's answer. *)
Definition verdict_of (answer : res (option pystr)) : json :=
  match answer with
  | Raise JSONDecodeError =>
      verdict false (u8 "Analysis failed - JSON parse error")
  | Raise _ | Ok None => verdict false (u8 "Analysis failed")
  | Ok (Some t) =>
      if truthy_str t then
        match json_loads (clean_text t) with
        | Some v => v
        | None => verdict false (u8 "Analysis failed - JSON parse error")
        end
      else verdict false (u8 "Analysis failed")
  end.

(** An answer from which no challenge can be read: a failure, an empty
    text, or a text that does not parse after cleaning. *)
Definition unusable (answer : res (option pystr)) : bool :=
  match answer with
  | Raise _ | Ok None => true
  | Ok (Some t) =>
      negb (truthy_str t)
      || match json_loads (clean_text t) with Some _ => false | None => true end
  end.

(** The text a content part stands for in a chat message. *)
Definition part_text (p : part) : pystr :=
  match p with
  | PText s => s
  | PImage _ => image_placeholder
  end.

Definition is_image (p : part) : bool :=
  match p with PImage _ => true | PText _ => false end.

(** Every image of [contents] can be encoded as PNG. *)
Definition encodable (sdk : Sdk) (contents : list part) : Prop :=
  forall img, In (PImage img) contents -> png_save sdk img = Ok tt.

(** The error prefix of an adapter class. *)
Definition error_prefix (k : provider_kind) : pystr :=
  match k with
  | Gemini => u8 "Gemini API调用失败: "
  | OpenAI => u8 "OpenAI API调用失败: "
  | Claude => u8 "Claude API调用失败: "
  | Custom => u8 "自定义API调用失败: "
  end.

(** The chat and thread an outbound call goes to; a reply has none of
    its own. *)
Definition target (c : BotCall) : option (Z * option Z) :=
  match c with
  | send_message chat _ _ thread _ => Some (chat, thread)
  | send_photo chat _ _ _ thread => Some (chat, thread)
  | send_animation chat _ _ _ thread => Some (chat, thread)
  | send_video chat _ _ _ thread => Some (chat, thread)
  | send_document chat _ _ _ thread => Some (chat, thread)
  | send_audio chat _ _ _ thread => Some (chat, thread)
  | send_voice chat _ _ _ thread => Some (chat, thread)
  | send_video_note chat _ thread => Some (chat, thread)
  | send_sticker chat _ thread => Some (chat, thread)
  | reply_text _ _ => None
  end.

(** Reading a decimal numeral back. *)
Definition decimal_value (digits : pystr) : N :=
  fold_left (fun a d => (10 * a + (d - 48))%N) digits 0%N.


(** A text without a backtick. *)
Definition no_backtick (s : pystr) : bool :=
  forallb (fun c => negb (c =? backtick)%N) s.

(** A parsed value that is a string, the type the answers of a
    challenge have in the table and are asked for in the prompt.  On
    strings the structural equality of parsed values is Python's [==]. *)
Definition is_str (v : json) : bool :=
  match v with JStr _ => true | _ => false end.





End Reference2.
Import Reference2.

(* ===================================================================== *)
(** ** Concrete inputs used by the examples                               *)
(* ===================================================================== *)

(** The scenario of the specification: a staff text posted in topic 42,
    bound to user 777. *)
Definition staff_text : Message :=
  {| text := Some (u8 "您的问题已解决"); entities := []; photo := [];
     animation := None; video := None; document := None; audio := None;
     voice := None; video_note := None; sticker := None; caption := None;
     caption_entities := []; is_topic_message := true;
     message_thread_id := Some 42%Z |}.

Definition staff_update : Update :=
  {| u_message := Some staff_text; effective_user_id := 1%Z |}.

Definition binding_42 (thread : option Z) : option UserRow :=
  match thread with
  | Some 42%Z => Some {| user_id := 777%Z |}
  | _ => None
  end.

(** A log of twelve filtered messages, served five at a time. *)
Definition sample_row : FilteredRow :=
  {| first_name := Some (u8 "Li"); username := None;
     reason := Some (u8 "spam"); content := Some (u8 "buy now");
     filtered_at := Some (u8 "2024-01-01 10:00:00") |}.

Definition sample_fetch (limit offset : Z) : list FilteredRow :=
  repeat sample_row (Z.to_nat (Z.min limit (12 - offset))).

Definition everyone_admin (uid : Z) : bool := true.

(** A backend whose client libraries are installed and which answers
    every request with [reply]. *)
Definition scripted (reply : res (option pystr)) : Backend :=
  {| client_constructs := fun _ _ _ => true;
     answer := fun _ _ => reply |}.

Definition sample_adapter : Adapter :=
  {| a_kind := Gemini; a_api_key := u8 "key"; a_base_url := None;
     a_kwargs := [] |}.

Definition sample_service : ModelService :=
  {| adapter := Some sample_adapter;
     filter_model_name := Some (u8 "gemini-2.5-flash");
     verification_model_name := Some (u8 "gemini-2.5-flash-lite") |}.

(** A world whose service is initialised. *)
Definition live (draws : list nat) : World :=
  {| service := sample_service; rng := draws; heap := bank_heap; trace := [] |}.

Definition sample_config (enabled : bool) : Config :=
  {| AI_API_KEY := Some (u8 "key"); AI_PROVIDER := u8 "gemini";
     AI_BASE_URL := None; AI_FILTER_MODEL := None;
     AI_VERIFICATION_MODEL := None; ENABLE_AI_FILTER := enabled |}.

Definition no_image_opens (b : list N) : bool := false.
Definition any_image_opens (b : list N) : bool := true.

Definition abusive_text : Message :=
  {| text := Some (u8 "你这个白痴"); entities := []; photo := [];
     animation := None; video := None; document := None; audio := None;
     voice := None; video_note := None; sticker := None; caption := None;
     caption_entities := []; is_topic_message := false;
     message_thread_id := None |}.

Definition photo_only : Message :=
  {| text := None; entities := []; photo := [{| file_id := u8 "p1" |}];
     animation := None; video := None; document := None; audio := None;
     voice := None; video_note := None; sticker := None; caption := None;
     caption_entities := []; is_topic_message := false;
     message_thread_id := None |}.

(** A reply of the question generator that lists two incorrect answers,
    one of them equal to the correct answer. *)
Definition short_reply : pystr :=
  u8 "{" ++ dq ++ u8 "question" ++ dq ++ u8 ": " ++ dq ++ u8 "1+1=?" ++ dq
  ++ u8 ", " ++ dq ++ u8 "correct_answer" ++ dq ++ u8 ": " ++ dq ++ u8 "2" ++ dq
  ++ u8 ", " ++ dq ++ u8 "incorrect_answers" ++ dq ++ u8 ": ["
  ++ dq ++ u8 "2" ++ dq ++ u8 ", " ++ dq ++ u8 "3" ++ dq ++ u8 "]}".

(** A reply in the requested shape. *)
Definition good_reply : pystr :=
  u8 "{" ++ dq ++ u8 "question" ++ dq ++ u8 ": " ++ dq ++ u8 "1+1=?" ++ dq
  ++ u8 ", " ++ dq ++ u8 "correct_answer" ++ dq ++ u8 ": " ++ dq ++ u8 "2" ++ dq
  ++ u8 ", " ++ dq ++ u8 "incorrect_answers" ++ dq ++ u8 ": ["
  ++ dq ++ u8 "1" ++ dq ++ u8 ", " ++ dq ++ u8 "3" ++ dq ++ u8 ", "
  ++ dq ++ u8 "4" ++ dq ++ u8 "]}".

(** The fenced verdict of the specification:
    a [```json] line, the object, a closing fence line. *)
Definition verdict_text : pystr :=
  dq ++ u8 "is_spam" ++ dq ++ u8 ": true, " ++ dq ++ u8 "reason" ++ dq
  ++ u8 ": " ++ dq ++ u8 "辱骂" ++ dq.

Definition fenced_verdict : pystr :=
  u8 "```json" ++ nl ++ u8 "{" ++ verdict_text ++ u8 "}" ++ nl ++ u8 "```".



(* ===================================================================== *)
(** ** Further concrete inputs                                            *)
(* ===================================================================== *)

Definition openai_adapter : Adapter :=
  {| a_kind := OpenAI; a_api_key := u8 "key"; a_base_url := None;
     a_kwargs := [] |}.

Definition claude_adapter : Adapter :=
  {| a_kind := Claude; a_api_key := u8 "key"; a_base_url := None;
     a_kwargs := [] |}.

Definition openai_service : ModelService :=
  {| adapter := Some openai_adapter;
     filter_model_name := Some (u8 "gpt-4o-mini");
     verification_model_name := Some (u8 "gpt-4o-mini") |}.

(** A world whose service runs on the OpenAI adapter. *)
Definition openai_world : World :=
  {| service := openai_service; rng := []; heap := bank_heap; trace := [] |}.

Definition no_key_config : Config :=
  {| AI_API_KEY := None; AI_PROVIDER := u8 "gemini";
     AI_BASE_URL := None; AI_FILTER_MODEL := None;
     AI_VERIFICATION_MODEL := None; ENABLE_AI_FILTER := true |}.

(** The verdict of the specification as bare JSON, and behind a fence
    that is preceded by a space. *)
Definition bare_verdict : pystr := u8 "{" ++ verdict_text ++ u8 "}".


(** Client libraries that echo: a chat completion answers with the
    content of the first message, a Claude message with the numeral of
    [max_tokens]; the PNG encoder rejects an empty image. *)
Definition sample_sdk : Sdk :=
  {| gemini_generate := fun _ _ =>
       Ok {| candidates := Some [Some [Some (u8 "ok")]] |};
     openai_create := fun _ _ rq =>
       match rq_messages rq with
       | [] => Raise (ValueError (u8 "messages is empty"))
       | m :: _ => Ok {| choices := [Some (m_content m)] |}
       end;
     anthropic_create := fun _ rq =>
       match cl_max_tokens rq with
       | JNum n => Ok {| blocks := [Some n] |}
       | _ => Raise TypeError
       end;
     png_save := fun img =>
       match img with
       | [] => Raise (ValueError (u8 "cannot write empty image"))
       | _ => Ok tt
       end;
     describe := fun e =>
       match e with
       | ValueError m => m
       | _ => u8 "error"
       end |}.

(** A greeting with a picture, and the same with the picture written
    out as its placeholder. *)
Definition with_picture : list part := [PText (u8 "hi"); PImage [1%N; 2%N]].
Definition with_placeholder : list part :=
  [PText (u8 "hi"); PText (u8 "[图片已包含]")].

(** Two contents of 101 characters that agree on the first hundred. *)
Definition long_content (last : N) : pystr := repeat 97%N 100 ++ [last].
(* ===================================================================== *)
(** * Properties                                                          *)
(* ===================================================================== *)

(** ** Sanity checks of the embedding on concrete inputs *)

Example u8_sample : u8 "辱骂" = [36785%N; 39554%N].
Proof. reflexivity. Qed.

Example dec_sample : dec_Z 120 = u8 "120" /\ dec_Z (-7) = u8 "-7" /\ dec_Z 0 = u8 "0".
Proof. repeat split; reflexivity. Qed.

Example lower_sample : lower (u8 "GeMiNi") = u8 "gemini".
Proof. reflexivity. Qed.

Example strip_sample : strip (u8 "  a b ") = u8 "a b".
Proof. reflexivity. Qed.

Example loads_verdict :
  json_loads (u8 "{" ++ dq ++ u8 "is_spam" ++ dq ++ u8 ": true, " ++ dq
              ++ u8 "reason" ++ dq ++ u8 ": " ++ dq ++ u8 "辱骂" ++ dq ++ u8 "}")
  = Some (JObj [(u8 "is_spam", JBool true); (u8 "reason", JStr (u8 "辱骂"))]).
Proof. vm_compute. reflexivity. Qed.

Example loads_nested :
  json_loads (u8 " [1, -2.5e3, [], {}, null, [false]] ")
  = Some (JArr [JNum (u8 "1"); JNum (u8 "-2.5e3"); JArr []; JObj []; JNull;
                JArr [JBool false]]).
Proof. vm_compute. reflexivity. Qed.

Example loads_rejects : json_loads (u8 "[1,]") = None /\ json_loads (u8 "{} x") = None
                        /\ json_loads (u8 "json {}") = None.
Proof. vm_compute. repeat split; reflexivity. Qed.
Example clean_text_sample :
  clean_text fenced_verdict = u8 "{" ++ verdict_text ++ u8 "}".
Proof. vm_compute. reflexivity. Qed.

(** A space in front of the opening fence makes the second alternative
    of the pattern take the fence alone, and [json] stays behind. *)
Example clean_text_leading_space :
  clean_text (u8 " ```json" ++ nl ++ u8 "{}" ++ nl ++ u8 "```")
  = u8 "json" ++ nl ++ u8 "{}".
Proof. vm_compute. reflexivity. Qed.

Example initialize_gemini_defaults :
  initialize (scripted (Ok None)) (u8 "Gemini") (u8 "key") None None None []
    new_service
  = (Ok tt,
     {| adapter := Some {| a_kind := Gemini; a_api_key := u8 "key";
                           a_base_url := None; a_kwargs := [] |};
        filter_model_name := Some (u8 "gemini-2.5-flash");
        verification_model_name := Some (u8 "gemini-2.5-flash-lite") |}).
Proof. vm_compute. reflexivity. Qed.

Example analyze_parse_error :
  fst (analyze_message (scripted (Ok (Some (u8 "oops")))) (sample_config true)
         no_image_opens abusive_text None (live []))
  = Ok (verdict false (u8 "Analysis failed - JSON parse error")).
Proof. vm_compute. reflexivity. Qed.

Example analyze_provider_error :
  fst (analyze_message (scripted (Raise (ProviderError []))) (sample_config true)
         no_image_opens abusive_text None (live []))
  = Ok (verdict false (u8 "Analysis failed")).
Proof. vm_compute. reflexivity. Qed.

(** Draws 0, 3, 1, 0: the first row is chosen, then positions 3 and 3,
    2 and 1, 1 and 0 are exchanged. *)
Example local_question_sample :
  let '(r, w) := _get_local_question (boot [0; 3; 1; 0]) in
  r = Ok {| question := JStr (u8 "中国的首都是哪里？");
            correct_answer := JStr (u8 "北京"); options := 29 |}
  /\ heap w !! 29 = Some [JStr (u8 "深圳"); JStr (u8 "上海");
                          JStr (u8 "广州"); JStr (u8 "北京")]
  /\ heap w !! 0 = Some [JStr (u8 "上海"); JStr (u8 "广州"); JStr (u8 "深圳")].
Proof. vm_compute. repeat split; reflexivity. Qed.

Example pagination_sample :
  ((12 + 5 - 1) / 5 = 3)%Z
  /\ _get_filtered_messages_keyboard 1 3 = Some [[next_button 1]]
  /\ _get_filtered_messages_keyboard 2 3 = Some [[prev_button 2; next_button 2]]
  /\ _get_filtered_messages_keyboard 3 3 = Some [[prev_button 3]]
  /\ _get_filtered_messages_keyboard 1 1 = None.
Proof. vm_compute. repeat split; reflexivity. Qed.

Example truncation_sample :
  format_entry 1 {| first_name := None; username := None; reason := None;
                    content := Some (repeat 97%N 101); filtered_at := None |}
  = u8 "【1】" ++ nl ++ u8 "用户: N/A (@N/A)" ++ nl ++ u8 "原因: N/A" ++ nl
    ++ u8 "内容: " ++ repeat 97%N 100 ++ u8 "..." ++ nl
    ++ u8 "时间: N/A" ++ nl ++ nl.
Proof. vm_compute. reflexivity. Qed.

(* ===================================================================== *)
(** ** The JSON scanner terminates within its fuel                        *)
(* ===================================================================== *)

Section ScannerFuel.

Implicit Types (s r acc : pystr) (f : nat).

Lemma skip_ws_length s : length (skip_ws s) <= length s.
Proof.
  induction s as [|c s IH]; cbn; [lia|]. destruct (is_ws c); cbn; lia.
Qed.

Lemma head_is_length (k : N) s r : head_is k s = Some r -> length s = S (length r).
Proof.
  destruct s as [|c s]; cbn; [discriminate|].
  destruct (c =? k)%N; [|discriminate]. intros [= <-]. reflexivity.
Qed.

Lemma after_prefix_length (p s r : pystr) :
  after_prefix p s = Some r -> length s = length p + length r.
Proof.
  revert s. induction p as [|a p IH]; intros s H.
  - destruct s; cbn in H; injection H as <-; reflexivity.
  - destruct s as [|b s]; cbn in H; [discriminate|].
    destruct (a =? b)%N; [|discriminate]. cbn. rewrite (IH s H). reflexivity.
Qed.

Lemma scan_string_rest s acc (x r : pystr) :
  scan_string s acc = Some (x, r) -> length r < length s.
Proof.
  assert (Hle : length s <= length s) by lia. revert Hle.
  generalize (length s) at 2 as n. intros n. revert s acc.
  induction n as [|n IH]; intros s acc Hle H.
  - destruct s; [discriminate|cbn in Hle; lia].
  - assert (Rec : forall s' acc', length s' <= n ->
              scan_string s' acc' = Some (x, r) -> length r < S (length s')).
    { intros s' acc' Hl H'. specialize (IH s' acc' Hl H'). lia. }
    destruct s as [|c s]; [discriminate|]. cbn [scan_string] in H.
    cbn [length] in *.
    repeat match type of H with
      | context [if ?b then _ else _] => destruct b eqn:?
      | context [match ?t with _ => _ end] =>
          destruct t eqn:?; cbn [length] in *
      end;
      try discriminate;
      try (injection H as <- <-; lia);
      match type of H with
      | scan_string ?s' ?a = _ =>
          let R := fresh "R" in
          pose proof (Rec s' a) as R; cbn [length] in *;
          specialize (R ltac:(lia) H); lia
      end.
Qed.

Lemma take_digits_rest s (d r : pystr) :
  take_digits s = (d, r) -> length r <= length s.
Proof.
  revert d r. induction s as [|c s IH]; intros d r H; cbn in H.
  - injection H as <- <-. lia.
  - destruct (is_digit c).
    + destruct (take_digits s) as [d' r'] eqn:E. injection H as <- <-.
      specialize (IH _ _ eq_refl). cbn. lia.
    + injection H as <- <-. lia.
Qed.

Lemma scan_int_rest s (i r : pystr) :
  scan_int s = Some (i, r) -> length r < length s.
Proof.
  destruct s as [|c s]; cbn; [discriminate|].
  destruct (c =? 48)%N; [intros [= <- <-]; lia|].
  destruct (is_digit c); [|discriminate].
  destruct (take_digits s) as [d r'] eqn:E. intros [= <- <-].
  apply take_digits_rest in E. lia.
Qed.

Lemma scan_frac_rest s (x r : pystr) :
  scan_frac s = (x, r) -> length r <= length s.
Proof.
  unfold scan_frac. destruct (head_is 46 s) as [r0|] eqn:Eh.
  - apply head_is_length in Eh.
    destruct (take_digits r0) as [d r'] eqn:E. apply take_digits_rest in E.
    destruct d; intros [= <- <-]; lia.
  - intros [= <- <-]. lia.
Qed.

Lemma scan_exp_rest s (x r : pystr) :
  scan_exp s = (x, r) -> length r <= length s.
Proof.
  unfold scan_exp. destruct s as [|e s]; [intros [= <- <-]; lia|].
  destruct ((e =? 101) || (e =? 69))%N; [|intros [= <- <-]; lia].
  destruct s as [|g s'].
  - cbn. intros [= <- <-]. cbn. lia.
  - destruct ((g =? 43) || (g =? 45))%N.
    + destruct (take_digits s') as [d r'] eqn:E. apply take_digits_rest in E.
      destruct d; intros [= <- <-]; cbn; lia.
    + destruct (take_digits (g :: s')) as [d r'] eqn:E.
      apply take_digits_rest in E. cbn in E.
      destruct d; intros [= <- <-]; cbn; lia.
Qed.

Lemma scan_number_rest s (x r : pystr) :
  scan_number s = Some (x, r) -> length r < length s.
Proof.
  unfold scan_number.
  assert (H : exists sign r0,
            match head_is 45 s with
            | Some r' => ([45%N], r')
            | None => ([], s)
            end = (sign, r0) /\ length r0 <= length s).
  { destruct (head_is 45 s) as [r'|] eqn:E.
    - apply head_is_length in E. exists [45%N], r'. split; [reflexivity|lia].
    - exists [], s. split; [reflexivity|lia]. }
  destruct H as (sign & r0 & -> & Hl).
  destruct (scan_int r0) as [[i r1]|] eqn:Ei; [|discriminate].
  apply scan_int_rest in Ei.
  destruct (scan_frac r1) as [fr r2] eqn:Ef. apply scan_frac_rest in Ef.
  destruct (scan_exp r2) as [ex r3] eqn:Ee. apply scan_exp_rest in Ee.
  intros [= <- <-]. lia.
Qed.

Lemma keyword_rest (w : string) (v v' : json) s r :
  u8 w <> [] -> keyword w v s = Some (v', r) -> length r < length s.
Proof.
  intros Hw. unfold keyword.
  destruct (after_prefix (u8 w) s) as [r'|] eqn:E; [|discriminate].
  intros [= <- <-]. apply after_prefix_length in E.
  destruct (u8 w); [contradiction|cbn in E; lia].
Qed.

Lemma scan_atom_rest s (v : json) r :
  scan_atom s = Some (v, r) -> length r < length s.
Proof.
  unfold scan_atom, first_some. intros H.
  repeat match type of H with
    | context [match keyword ?w ?x s with _ => _ end] =>
        let E := fresh "E" in
        destruct (keyword w x s) as [[? ?]|] eqn:E;
          [injection H as <- <-;
           apply keyword_rest in E; [exact E|vm_compute; discriminate]|]
    | context [match scan_number s with _ => _ end] =>
        let E := fresh "E" in
        destruct (scan_number s) as [[? ?]|] eqn:E;
          [injection H as <- <-; apply scan_number_rest in E; exact E|]
    end.
  apply keyword_rest in H; [exact H|vm_compute; discriminate].
Qed.

(** Every scanner consumes at least one character. *)
Lemma scan_rest f :
  (forall s v r, scan_value f s = Some (v, r) -> length r < length s)
  /\ (forall s a l r, scan_items f s a = Some (l, r) -> length r < length s)
  /\ (forall s a d r, scan_members f s a = Some (d, r) -> length r < length s).
Proof.
  induction f as [|f (IHv & IHi & IHm)]; [repeat split; discriminate|].
  repeat split.
  - intros s v r H. destruct s as [|c s]; [discriminate|].
    cbn [scan_value] in H. cbn [length].
    destruct (c =? 34)%N.
    { destruct (scan_string s []) as [[x r']|] eqn:E; [|discriminate].
      injection H as <- <-. apply scan_string_rest in E. lia. }
    pose proof (skip_ws_length s) as Hs.
    destruct (c =? 123)%N.
    { destruct (head_is 125 (skip_ws s)) as [r'|] eqn:E.
      - injection H as <- <-. apply head_is_length in E. lia.
      - destruct (scan_members f (skip_ws s) []) as [[d r']|] eqn:E';
          [|discriminate].
        injection H as <- <-. apply IHm in E'. lia. }
    destruct (c =? 91)%N.
    { destruct (head_is 93 (skip_ws s)) as [r'|] eqn:E.
      - injection H as <- <-. apply head_is_length in E. lia.
      - destruct (scan_items f (skip_ws s) []) as [[d r']|] eqn:E';
          [|discriminate].
        injection H as <- <-. apply IHi in E'. lia. }
    apply scan_atom_rest in H. exact H.
  - intros s a l r H. cbn [scan_items] in H.
    destruct (scan_value f s) as [[v r1]|] eqn:E; [|discriminate].
    apply IHv in E. pose proof (skip_ws_length r1) as Hs.
    destruct (head_is 93 (skip_ws r1)) as [r'|] eqn:E1.
    { injection H as <- <-. apply head_is_length in E1. lia. }
    destruct (head_is 44 (skip_ws r1)) as [r'|] eqn:E2; [|discriminate].
    apply head_is_length in E2. apply IHi in H.
    pose proof (skip_ws_length r'). lia.
  - intros s a d r H. cbn [scan_members] in H.
    destruct (head_is 34 s) as [r0|] eqn:E0; [|discriminate].
    apply head_is_length in E0.
    destruct (scan_string r0 []) as [[k r1]|] eqn:E1; [|discriminate].
    apply scan_string_rest in E1. pose proof (skip_ws_length r1).
    destruct (head_is 58 (skip_ws r1)) as [r2|] eqn:E2; [|discriminate].
    apply head_is_length in E2. pose proof (skip_ws_length r2).
    destruct (scan_value f (skip_ws r2)) as [[v r3]|] eqn:E3; [|discriminate].
    apply IHv in E3. pose proof (skip_ws_length r3).
    cbn zeta in H.
    destruct (head_is 125 (skip_ws r3)) as [r'|] eqn:E4.
    { injection H as <- <-. apply head_is_length in E4. lia. }
    destruct (head_is 44 (skip_ws r3)) as [r'|] eqn:E5; [|discriminate].
    apply head_is_length in E5. apply IHm in H.
    pose proof (skip_ws_length r'). lia.
Qed.

(** Beyond twice the length of the input, more fuel changes nothing: the
    scanner never fails for lack of fuel. *)
Lemma scan_fuel f :
  (forall s f', 2 * length s + 2 <= f -> f <= f' ->
     scan_value f' s = scan_value f s)
  /\ (forall s a f', 2 * length s + 3 <= f -> f <= f' ->
        scan_items f' s a = scan_items f s a)
  /\ (forall s a f', 2 * length s + 3 <= f -> f <= f' ->
        scan_members f' s a = scan_members f s a).
Proof.
  induction f as [|f (IHv & IHi & IHm)]; [repeat split; intros; lia|].
  repeat split.
  - intros s [|f'] Hb Hf; [lia|].
    destruct s as [|c s]; [reflexivity|]. cbn [scan_value length] in *.
    pose proof (skip_ws_length s) as Hs.
    rewrite (IHm (skip_ws s) [] f') by lia.
    rewrite (IHi (skip_ws s) [] f') by lia.
    reflexivity.
  - intros s a [|f'] Hb Hf; [lia|]. cbn [scan_items].
    rewrite (IHv s f') by lia.
    destruct (scan_value f s) as [[v r1]|] eqn:E; [|reflexivity].
    apply scan_rest in E. pose proof (skip_ws_length r1).
    destruct (head_is 93 (skip_ws r1)); [reflexivity|].
    destruct (head_is 44 (skip_ws r1)) as [r'|] eqn:E2; [|reflexivity].
    apply head_is_length in E2. pose proof (skip_ws_length r').
    apply IHi; lia.
  - intros s a [|f'] Hb Hf; [lia|]. cbn [scan_members].
    destruct (head_is 34 s) as [r0|] eqn:E0; [|reflexivity].
    apply head_is_length in E0.
    destruct (scan_string r0 []) as [[k r1]|] eqn:E1; [|reflexivity].
    apply scan_string_rest in E1. pose proof (skip_ws_length r1).
    destruct (head_is 58 (skip_ws r1)) as [r2|] eqn:E2; [|reflexivity].
    apply head_is_length in E2. pose proof (skip_ws_length r2).
    rewrite (IHv (skip_ws r2) f') by lia.
    destruct (scan_value f (skip_ws r2)) as [[v r3]|] eqn:E3; [|reflexivity].
    apply scan_rest in E3. pose proof (skip_ws_length r3).
    cbn zeta.
    destruct (head_is 125 (skip_ws r3)); [reflexivity|].
    destruct (head_is 44 (skip_ws r3)) as [r'|] eqn:E5; [|reflexivity].
    apply head_is_length in E5. pose proof (skip_ws_length r').
    apply IHm; lia.
Qed.

(** The fuel [json_loads] gives is enough: no larger fuel gives another
    result. *)
Lemma json_loads_fuel s f :
  2 * length s + 2 <= f ->
  scan_value f (skip_ws s) = scan_value (2 * length s + 2) (skip_ws s).
Proof.
  intros H. pose proof (skip_ws_length s).
  apply (scan_fuel (2 * length s + 2)); lia.
Qed.

End ScannerFuel.

(* ===================================================================== *)
(** ** Message relay                                                      *)
(* ===================================================================== *)

Section Relay.

Implicit Types (m : Message) (bot : Bot).

(** Unfolds one level of the state monad. *)
Ltac run := unfold some, bind, call, ret, raise, file_id_of, last_file_id in *.

Lemma truthy_photo_last (p : list Media) :
  truthy_photo p = true -> exists x, last p = Some x.
Proof.
  destruct p as [|a p]; [discriminate|]. intros _.
  destruct (last (a :: p)) eqn:E; [eauto|].
  apply last_None in E. discriminate.
Qed.

Lemma truthy_media_some (x : option Media) :
  truthy_media x = true -> exists y, x = Some y.
Proof. destruct x; [eauto|discriminate]. Qed.

(** C7. [send_message_by_type] sends exactly the call prescribed for the
    first populated kind in the order text, photo, animation, video,
    document, audio, voice, video note, sticker, and returns the sent
    message; when no kind is populated it sends nothing and returns
    [None].  The prescribed call ([relay_call]) uses the last entry of the
    photo size list with caption and caption entities for a photo, and
    the file reference without caption for a video note and a sticker. *)
Theorem send_message_by_type_dispatch m (chat_id : Z) (thread_id : option Z)
    (disable_web_page_preview : bool) bot :
  send_message_by_type m chat_id thread_id disable_web_page_preview bot =
  match first_kind m with
  | Some k =>
      let c := relay_call m chat_id thread_id (Some disable_web_page_preview) k in
      (Ok (Some (Sent c)), bot ++ [c])
  | None => (Ok None, bot)
  end.
Proof.
  unfold send_message_by_type, first_kind, dispatch_order. cbn [find populated].
  destruct (truthy_opt (text m)) eqn:Ht; [reflexivity|].
  destruct (truthy_photo (photo m)) eqn:Hp.
  { apply truthy_photo_last in Hp as [x Hx]. run. cbn. rewrite Hx. reflexivity. }
  destruct (truthy_media (animation m)) eqn:H1.
  { apply truthy_media_some in H1 as [x Hx]. run. cbn. rewrite Hx. reflexivity. }
  destruct (truthy_media (video m)) eqn:H2.
  { apply truthy_media_some in H2 as [x Hx]. run. cbn. rewrite Hx. reflexivity. }
  destruct (truthy_media (document m)) eqn:H3.
  { apply truthy_media_some in H3 as [x Hx]. run. cbn. rewrite Hx. reflexivity. }
  destruct (truthy_media (audio m)) eqn:H4.
  { apply truthy_media_some in H4 as [x Hx]. run. cbn. rewrite Hx. reflexivity. }
  destruct (truthy_media (voice m)) eqn:H5.
  { apply truthy_media_some in H5 as [x Hx]. run. cbn. rewrite Hx. reflexivity. }
  destruct (truthy_media (video_note m)) eqn:H6.
  { apply truthy_media_some in H6 as [x Hx]. run. cbn. rewrite Hx. reflexivity. }
  destruct (truthy_media (sticker m)) eqn:H7.
  { apply truthy_media_some in H7 as [x Hx]. run. cbn. rewrite Hx. reflexivity. }
  reflexivity.
Qed.

(** The reply sender of the admin handler makes the same dispatch, to the
    user's chat, without a topic and with link previews disabled. *)
Lemma _send_reply_to_user_dispatch (update : Update) m (uid : Z) bot :
  u_message update = Some m ->
  _send_reply_to_user update uid bot =
  match first_kind m with
  | Some k => (Ok tt, bot ++ [relay_call m uid None (Some true) k])
  | None => (Ok tt, bot)
  end.
Proof.
  intros Hm. unfold _send_reply_to_user, first_kind, dispatch_order.
  rewrite Hm. cbn [find populated].
  destruct (truthy_opt (text m)) eqn:Ht; [reflexivity|].
  destruct (truthy_photo (photo m)) eqn:Hp.
  { apply truthy_photo_last in Hp as [x Hx]. run. cbn. rewrite Hx. reflexivity. }
  destruct (truthy_media (animation m)) eqn:H1.
  { apply truthy_media_some in H1 as [x Hx]. run. cbn. rewrite Hx. reflexivity. }
  destruct (truthy_media (video m)) eqn:H2.
  { apply truthy_media_some in H2 as [x Hx]. run. cbn. rewrite Hx. reflexivity. }
  destruct (truthy_media (document m)) eqn:H3.
  { apply truthy_media_some in H3 as [x Hx]. run. cbn. rewrite Hx. reflexivity. }
  destruct (truthy_media (audio m)) eqn:H4.
  { apply truthy_media_some in H4 as [x Hx]. run. cbn. rewrite Hx. reflexivity. }
  destruct (truthy_media (voice m)) eqn:H5.
  { apply truthy_media_some in H5 as [x Hx]. run. cbn. rewrite Hx. reflexivity. }
  destruct (truthy_media (video_note m)) eqn:H6.
  { apply truthy_media_some in H6 as [x Hx]. run. cbn. rewrite Hx. reflexivity. }
  destruct (truthy_media (sticker m)) eqn:H7.
  { apply truthy_media_some in H7 as [x Hx]. run. cbn. rewrite Hx. reflexivity. }
  reflexivity.
Qed.

End Relay.

(** C3, as stated, fails: relayed to the bound user, a staff text is not
    sent with the platform's default link-preview behaviour. *)
Lemma admin_reply_preview_default_refuted :
  ~ (forall (lookup : option Z -> option UserRow) (update : Update)
            (m : Message) (u : UserRow) (k : kind),
        u_message update = Some m ->
        is_topic_message m = true ->
        lookup (message_thread_id m) = Some u ->
        first_kind m = Some k ->
        handle_admin_reply lookup update [] =
        (Ok tt, [relay_call m (user_id u) None None k])).
Proof.
  intros H.
  specialize (H binding_42 staff_update staff_text {| user_id := 777%Z |} KText
                eq_refl eq_refl eq_refl eq_refl).
  vm_compute in H. discriminate H.
Qed.

(** C3, amended.  A staff message posted in a topic bound to a user is
    relayed to that user's chat with no destination topic by the call of
    its first populated kind: a text with its entities and with link
    previews disabled; a photo, animation, video, document, audio or
    voice with caption and caption entities; a video note or a sticker by
    its file reference alone.  A message with no populated kind sends
    nothing. *)
Theorem handle_admin_reply_relays
    (lookup : option Z -> option UserRow) (update : Update) (m : Message)
    (u : UserRow) (bot : Bot) :
  u_message update = Some m ->
  is_topic_message m = true ->
  lookup (message_thread_id m) = Some u ->
  handle_admin_reply lookup update bot =
  match first_kind m with
  | Some k => (Ok tt, bot ++ [relay_call m (user_id u) None (Some true) k])
  | None => (Ok tt, bot)
  end.
Proof.
  intros Hm Ht Hu. unfold handle_admin_reply. rewrite Hm, Ht, Hu. cbn [negb].
  apply _send_reply_to_user_dispatch, Hm.
Qed.

(** The staff text of topic 42 reaches chat 777, previews disabled. *)
Lemma handle_admin_reply_relays_witness :
  handle_admin_reply binding_42 staff_update [] =
  (Ok tt, [send_message 777 (u8 "您的问题已解决") [] None (Some true)]).
Proof.
  exact (handle_admin_reply_relays binding_42 staff_update staff_text
           {| user_id := 777%Z |} [] eq_refl eq_refl eq_refl).
Defined.

(* ===================================================================== *)
(** ** Filtered-message browser                                           *)
(* ===================================================================== *)

Section Browser.

Lemma total_pages_ceiling (total_count : Z) :
  ((total_count + 5 - 1) / 5 = ceiling total_count 5)%Z.
Proof.
  unfold ceiling.
  pose proof (Z.div_mod total_count 5 ltac:(lia)) as E.
  pose proof (Z.mod_pos_bound total_count 5 ltac:(lia)) as B.
  destruct (Z.eqb_spec (total_count mod 5) 0) as [H0|H0].
  - symmetry. apply Z.div_unique with (r := 4%Z); lia.
  - symmetry. apply Z.div_unique with (r := (total_count mod 5 - 1)%Z); lia.
Qed.

(** [ceiling] is the least number of pages of five that hold the count. *)
Lemma ceiling_least (a : Z) :
  (5 * (ceiling a 5 - 1) < a <= 5 * ceiling a 5)%Z.
Proof.
  unfold ceiling.
  pose proof (Z.div_mod a 5 ltac:(lia)) as E.
  pose proof (Z.mod_pos_bound a 5 ltac:(lia)) as B.
  destruct (Z.eqb_spec (a mod 5) 0); lia.
Qed.

Lemma prev_next_differ (p q : Z) : prev_button p <> next_button q.
Proof. intros H. apply (f_equal b_text) in H. vm_compute in H. discriminate H. Qed.

Lemma keyboard_single_page (page total_pages : Z) :
  (total_pages <= 1)%Z -> _get_filtered_messages_keyboard page total_pages = None.
Proof.
  intros H. unfold _get_filtered_messages_keyboard.
  destruct (Z.leb_spec total_pages 1); [reflexivity|lia].
Qed.

Lemma keyboard_row (page total_pages : Z) :
  (1 < total_pages)%Z ->
  exists row,
    _get_filtered_messages_keyboard page total_pages = Some [row]
    /\ (In (prev_button page) row <-> (1 < page)%Z)
    /\ (In (next_button page) row <-> (page < total_pages)%Z)
    /\ (forall b, In b row -> b = prev_button page \/ b = next_button page).
Proof.
  intros H. unfold _get_filtered_messages_keyboard.
  destruct (Z.leb_spec total_pages 1); [lia|].
  fold (prev_button page). fold (next_button page).
  pose proof (prev_next_differ page page) as D.
  destruct (Z.ltb_spec 1 page), (Z.ltb_spec page total_pages); cbn [app];
    try lia; eexists; (split; [reflexivity|]); cbn [In];
    repeat split; intros; try lia; intuition (auto; congruence).
Qed.

(** C8. For an administrator and a positive count whose first page is
    served, [view_filtered] replies once, with the first page rendered
    for page 1 of ceiling(count / 5) pages and with the keyboard of page 1
    attached (no keyboard, the text sent plain, when there is at most one
    page; otherwise the single row holding the next-page button for page
    2).  For any page, the keyboard is absent when there is at most one
    page, and otherwise is one row that holds the previous-page button
    exactly when page > 1 and the next-page button exactly when
    page < total pages, whose payloads are [filtered_page_] followed by
    the target page number. *)
Theorem view_filtered_pagination
    (is_admin : Z -> bool) (total_count : Z)
    (fetch : Z -> Z -> list FilteredRow) (update : Update) (m : Message)
    (bot : Bot) :
  u_message update = Some m ->
  is_admin (effective_user_id update) = true ->
  (0 < total_count)%Z ->
  fetch 5%Z 0%Z <> [] ->
  let total_pages := ceiling total_count 5 in
  view_filtered is_admin total_count fetch update bot =
    (Ok tt,
     bot ++ [reply_text (_format_filtered_messages (fetch 5 0) 1 total_pages)%Z
               (_get_filtered_messages_keyboard 1 total_pages)])
  /\ (5 * (total_pages - 1) < total_count <= 5 * total_pages)%Z
  /\ (_get_filtered_messages_keyboard 1 total_pages =
      if (total_pages <=? 1)%Z then None else Some [[next_button 1]])
  /\ (forall page tp : Z,
        ((tp <= 1)%Z -> _get_filtered_messages_keyboard page tp = None)
        /\ ((1 < tp)%Z ->
            exists row,
              _get_filtered_messages_keyboard page tp = Some [row]
              /\ (In (prev_button page) row <-> (1 < page)%Z)
              /\ (In (next_button page) row <-> (page < tp)%Z)
              /\ (forall b, In b row ->
                    b = prev_button page \/ b = next_button page)))
  /\ (forall page : Z,
        callback_data (prev_button page) = u8 "filtered_page_" ++ dec_Z (page - 1)
        /\ callback_data (next_button page) = u8 "filtered_page_" ++ dec_Z (page + 1)).
Proof.
  intros Hm Hadm Hpos Hne total_pages. repeat split.
  - unfold view_filtered. rewrite Hadm. cbn [negb].
    destruct (Z.eqb_spec total_count 0); [lia|].
    cbn zeta. change ((1 - 1) * 5)%Z with 0%Z.
    rewrite total_pages_ceiling. fold total_pages.
    destruct (fetch 5%Z 0%Z) as [|r rs] eqn:Ef; [contradiction|].
    unfold reply. rewrite Hm.
    destruct (_get_filtered_messages_keyboard 1 total_pages); reflexivity.
  - apply ceiling_least.
  - apply ceiling_least.
  - unfold _get_filtered_messages_keyboard.
    destruct (Z.leb_spec total_pages 1); [reflexivity|].
    destruct (Z.ltb_spec 1 total_pages); [reflexivity|lia].
  - apply keyboard_single_page.
  - apply keyboard_row.
Qed.

(** Twelve filtered messages: page 1 of 3, with the next-page button. *)
Lemma view_filtered_pagination_witness :
  view_filtered everyone_admin 12 sample_fetch staff_update [] =
    (Ok tt,
     [reply_text (_format_filtered_messages (sample_fetch 5 0) 1 3)%Z
        (Some [[{| b_text := u8 "下一页";
                   callback_data := u8 "filtered_page_2" |}]])]).
Proof.
  exact (proj1 (view_filtered_pagination everyone_admin 12 sample_fetch
                  staff_update staff_text [] eq_refl eq_refl
                  ltac:(reflexivity) ltac:(discriminate))).
Defined.

End Browser.

(* ===================================================================== *)
(** ** Model service                                                      *)
(* ===================================================================== *)

Section Initialize.

Variable be : Backend.
Implicit Types (self : ModelService) (provider api_key : pystr).

(** An unsupported provider key raises and leaves the service as it was. *)
Lemma initialize_unsupported self provider api_key base_url fm vm kw :
  lower provider <> u8 "gemini" -> lower provider <> u8 "openai" ->
  lower provider <> u8 "claude" -> lower provider <> u8 "custom" ->
  initialize be provider api_key base_url fm vm kw self =
  (Raise (ValueError (u8 "不支持的提供商: " ++ lower provider)), self).
Proof.
  intros H1 H2 H3 H4. unfold initialize, str_eqb.
  rewrite !bool_decide_eq_false_2 by assumption. reflexivity.
Qed.

(** [custom] without a base URL raises and leaves the service as it was. *)
Lemma initialize_custom_no_base_url self provider api_key base_url fm vm kw :
  lower provider = u8 "custom" -> truthy_opt base_url = false ->
  initialize be provider api_key base_url fm vm kw self =
  (Raise (ValueError (u8 "自定义API必须提供base_url")), self).
Proof.
  intros Hp Hb. unfold initialize. rewrite Hp, Hb. reflexivity.
Qed.

(** [custom] with a base URL and an installed client but without a filter
    model raises after the adapter and both slots were assigned. *)
Lemma initialize_custom_no_filter_model self provider api_key base_url fm vm kw :
  lower provider = u8 "custom" -> truthy_opt base_url = true ->
  client_constructs be Custom api_key base_url = true ->
  truthy_opt fm = false ->
  initialize be provider api_key base_url fm vm kw self =
  (Raise (ValueError (u8 "自定义API必须提供filter_model")),
   {| adapter := Some {| a_kind := Custom; a_api_key := api_key;
                         a_base_url := base_url; a_kwargs := kw |};
      filter_model_name := fm;
      verification_model_name := py_or vm fm |}).
Proof.
  intros Hp Hb Hc Hf. unfold initialize. rewrite Hp.
  change (str_eqb (u8 "custom") (u8 "gemini")) with false.
  change (str_eqb (u8 "custom") (u8 "openai")) with false.
  change (str_eqb (u8 "custom") (u8 "claude")) with false.
  change (str_eqb (u8 "custom") (u8 "custom")) with true.
  cbn iota. rewrite Hb. cbn [negb].
  unfold bind, lift, CustomAPIAdapter, make_adapter.
  rewrite Hb, Hc. cbn [negb].
  unfold ret, set_adapter, set_filter_model_name, set_verification_model_name,
    modify, get.
  cbn [adapter filter_model_name verification_model_name].
  rewrite Hf. reflexivity.
Qed.

(** The caller in [GeminiService] answers any failure of [initialize] by
    clearing the three fields. *)
Lemma _initialize_model_service_failure (config : Config) (w : World) e s :
  truthy_opt (AI_API_KEY config) = true ->
  initialize be (AI_PROVIDER config) (default [] (AI_API_KEY config))
    (AI_BASE_URL config) (AI_FILTER_MODEL config)
    (AI_VERIFICATION_MODEL config) [] (service w) = (Raise e, s) ->
  _initialize_model_service be config w = (Ok tt, with_service new_service w).
Proof.
  intros Hk Hi. unfold _initialize_model_service. rewrite Hk. cbn [negb].
  unfold try_except, on_service. rewrite Hi. reflexivity.
Qed.

End Initialize.

(** C2.  [initialize] with provider [custom], a base URL and no filter
    model raises its configuration error only after the adapter and both
    model slots have been assigned: called on a fresh service it leaves
    the new adapter in place and the verification slot set. *)
Theorem initialize_custom_without_filter_model :
  initialize (scripted (Ok None)) (u8 "custom") (u8 "key")
    (Some (u8 "http://localhost:8000/v1")) None (Some (u8 "quiz-model")) []
    new_service
  = (Raise (ValueError (u8 "自定义API必须提供filter_model")),
     {| adapter := Some {| a_kind := Custom; a_api_key := u8 "key";
                           a_base_url := Some (u8 "http://localhost:8000/v1");
                           a_kwargs := [] |};
        filter_model_name := None;
        verification_model_name := Some (u8 "quiz-model") |}).
Proof. vm_compute. reflexivity. Qed.

(* ===================================================================== *)
(** ** Moderation and auto-reply                                          *)
(* ===================================================================== *)

Section Moderation.

Variable be : Backend.
Variable config : Config.
Variable image_opens : list N -> bool.

(** C4.  Without an adapter, without a filter model or with the feature
    flag off, [analyze_message] returns the "AI filter disabled" verdict
    whatever the message is; otherwise, for a message without text whose
    image bytes are absent or do not decode, it returns the "No content
    to analyze" verdict.  In both cases the state, and with it the
    request trace, is unchanged: the backend is not called. *)
Theorem analyze_message_short_circuits
    (message : Message) (image_bytes : option (list N)) (w : World) :
  (adapter (service w) = None
   \/ truthy_opt (filter_model_name (service w)) = false
   \/ ENABLE_AI_FILTER config = false ->
   analyze_message be config image_opens message image_bytes w =
   (Ok (verdict false (u8 "AI filter disabled")), w))
  /\ (adapter (service w) <> None ->
      truthy_opt (filter_model_name (service w)) = true ->
      ENABLE_AI_FILTER config = true ->
      truthy_opt (text message) = false ->
      truthy_bytes image_bytes = false
      \/ image_opens (default [] image_bytes) = false ->
      analyze_message be config image_opens message image_bytes w =
      (Ok (verdict false (u8 "No content to analyze")), w)).
Proof.
  split.
  - intros H. unfold analyze_message, bind, get.
    replace (negb (truthy_adapter (adapter (service w)))
             || negb (truthy_opt (filter_model_name (service w)))
             || negb (ENABLE_AI_FILTER config)) with true; [reflexivity|].
    destruct H as [H|[H|H]]; rewrite H; cbn;
      rewrite ?orb_true_r; reflexivity.
  - intros Ha Hf He Ht Hi. unfold analyze_message, bind, get.
    destruct (adapter (service w)) eqn:Ea; [|congruence].
    rewrite Hf, He, Ht. cbn [truthy_adapter negb orb].
    destruct Hi as [Hi|Hi]; rewrite Hi; [reflexivity|].
    destruct (truthy_bytes image_bytes); reflexivity.
Qed.

End Moderation.

(** An abusive text with the flag off, and a photo that does not decode. *)
Lemma analyze_message_short_circuits_witness :
  analyze_message (scripted (Ok None)) (sample_config false) any_image_opens
    abusive_text None (live [])
  = (Ok (verdict false (u8 "AI filter disabled")), live [])
  /\ analyze_message (scripted (Ok None)) (sample_config true) no_image_opens
       photo_only (Some [1%N; 2%N]) (live [])
     = (Ok (verdict false (u8 "No content to analyze")), live []).
Proof.
  split.
  - apply (proj1 (analyze_message_short_circuits (scripted (Ok None))
                    (sample_config false) any_image_opens abusive_text None
                    (live []))).
    right. right. reflexivity.
  - apply (proj2 (analyze_message_short_circuits (scripted (Ok None))
                    (sample_config true) no_image_opens photo_only
                    (Some [1%N; 2%N]) (live []))).
    + discriminate.
    + reflexivity.
    + reflexivity.
    + reflexivity.
    + right. reflexivity.
Defined.

Section Strings.

Implicit Types (s t : pystr).

Lemma lstrip_all_space s : forallb is_space s = true -> lstrip s = [].
Proof.
  induction s as [|c r IH]; cbn; [reflexivity|].
  destruct (is_space c); cbn; [exact IH|discriminate].
Qed.

Lemma lstrip_nil s : lstrip s = [] -> forallb is_space s = true.
Proof.
  induction s as [|c r IH]; cbn; [reflexivity|].
  destruct (is_space c); cbn; [exact IH|discriminate].
Qed.



(** What [lstrip] leaves is empty or starts with a character that is not
    a space. *)
Lemma lstrip_shape s :
  lstrip s = [] \/ exists c r, lstrip s = c :: r /\ is_space c = false.
Proof.
  induction s as [|c r IH]; cbn; [left; reflexivity|].
  destruct (is_space c) eqn:E; [exact IH|]. right. eauto.
Qed.

Lemma forallb_rev {A} (f : A -> bool) (l : list A) :
  forallb f (rev l) = forallb f l.
Proof.
  induction l as [|a l IH]; [reflexivity|].
  cbn. rewrite forallb_app, IH. cbn. rewrite andb_true_r, andb_comm. reflexivity.
Qed.

Lemma strip_blank s : str_eqb (strip s) [] = forallb is_space s.
Proof.
  unfold str_eqb, strip, rstrip.
  destruct (forallb is_space s) eqn:E.
  - rewrite (lstrip_all_space s E). reflexivity.
  - apply bool_decide_eq_false_2. intros H.
    apply (f_equal (@rev N)) in H. rewrite rev_involutive in H. cbn in H.
    apply lstrip_nil in H. rewrite forallb_rev in H.
    destruct (lstrip_shape s) as [Hn|(c & r & Hs & Hc)].
    + apply lstrip_nil in Hn. congruence.
    + rewrite Hs in H. cbn in H. rewrite Hc in H. discriminate.
Qed.


End Strings.

Section AutoReply.

Variable be : Backend.

(** C5.  [generate_autoreply] returns the absent result without calling
    the backend when there is no adapter, no filter model, or the
    knowledge base is absent or all whitespace.  Otherwise it sends one
    request and returns the absent result exactly when the request fails,
    the response is empty, or the response contains one of the two
    deferring substrings; in every remaining case it returns the response
    stripped of surrounding whitespace. *)
Theorem generate_autoreply_absent_exactly
    (user_message : pystr) (knowledge_base_content : option pystr)
    (w : World) :
  let r := generate_autoreply be user_message knowledge_base_content w in
  (adapter (service w) = None
   \/ truthy_opt (filter_model_name (service w)) = false
   \/ blank knowledge_base_content = true ->
   r = (Ok None, w))
  /\ (forall a,
        adapter (service w) = Some a ->
        truthy_opt (filter_model_name (service w)) = true ->
        blank knowledge_base_content = false ->
        let c := autoreply_call a w user_message
                   (default [] knowledge_base_content) in
        snd r = with_trace (trace w ++ [c]) w
        /\ fst r =
           match answer be (trace w) c with
           | Raise _ => Ok None
           | Ok None => Ok None
           | Ok (Some t) =>
               if negb (truthy_str t) || suppressed t then Ok None
               else Ok (Some (strip t))
           end).
Proof.
  cbn zeta. split.
  - intros H. unfold generate_autoreply, bind, get.
    destruct (adapter (service w)) as [a|] eqn:Ea; [|reflexivity].
    cbn [truthy_adapter negb orb].
    destruct (truthy_opt (filter_model_name (service w))) eqn:Ef;
      [|reflexivity].
    cbn [negb]. destruct H as [H|[H|H]]; try discriminate.
    destruct knowledge_base_content as [kb|]; [|reflexivity].
    cbn in H. change (default [] (Some kb)) with kb.
    rewrite strip_blank, H, orb_true_r. reflexivity.
  - intros a Ea Ef Hb. unfold generate_autoreply, bind, get.
    rewrite Ea, Ef. cbn [truthy_adapter negb orb].
    destruct knowledge_base_content as [kb|]; [|discriminate].
    cbn in Hb. change (default [] (Some kb)) with kb. rewrite strip_blank, Hb.
    assert (Hk : truthy_opt (Some kb) = true).
    { destruct kb; [discriminate|reflexivity]. }
    rewrite Hk. cbn [negb orb].
    unfold try_except, generate_content, autoreply_call. rewrite Ea.
    destruct (answer be (trace w) _) as [[t|]|e]; cbn [fst snd];
      try (split; reflexivity).
    destruct t as [|x t]; [split; reflexivity|].
    cbn [truthy_opt truthy_str negb orb]. change (default [] (Some (x :: t))) with (x :: t).
    unfold suppressed, ret.
    destruct (contains _ (x :: t) || contains _ (x :: t)); split; reflexivity.
Qed.

End AutoReply.

(** A blank knowledge base, a usable answer, and an answer that
    apologises in passing. *)
Lemma generate_autoreply_absent_exactly_witness :
  generate_autoreply (scripted (Ok (Some (u8 "  **营业时间** 9:00-18:00 "))))
    (u8 "几点开门？") (Some (u8 "   ")) (live [])
  = (Ok None, live [])
  /\ fst (generate_autoreply
            (scripted (Ok (Some (u8 "  **营业时间** 9:00-18:00 "))))
            (u8 "几点开门？") (Some (u8 "营业时间 9:00-18:00")) (live []))
     = Ok (Some (u8 "**营业时间** 9:00-18:00"))
  /\ fst (generate_autoreply
            (scripted (Ok (Some (u8 "营业时间是 9:00-18:00，抱歉让您久等"))))
            (u8 "几点开门？") (Some (u8 "营业时间 9:00-18:00")) (live []))
     = Ok None.
Proof.
  split; [|split].
  - apply (proj1 (generate_autoreply_absent_exactly
                    (scripted (Ok (Some (u8 "  **营业时间** 9:00-18:00 "))))
                    (u8 "几点开门？") (Some (u8 "   ")) (live []))).
    right. right. reflexivity.
  - refine (eq_trans
              (proj2 (proj2 (generate_autoreply_absent_exactly
                 (scripted (Ok (Some (u8 "  **营业时间** 9:00-18:00 "))))
                 (u8 "几点开门？") (Some (u8 "营业时间 9:00-18:00")) (live []))
                 sample_adapter eq_refl eq_refl eq_refl)) _).
    vm_compute. reflexivity.
  - refine (eq_trans
              (proj2 (proj2 (generate_autoreply_absent_exactly
                 (scripted (Ok (Some (u8 "营业时间是 9:00-18:00，抱歉让您久等"))))
                 (u8 "几点开门？") (Some (u8 "营业时间 9:00-18:00")) (live []))
                 sample_adapter eq_refl eq_refl eq_refl)) _).
    vm_compute. reflexivity.
Defined.

(* ===================================================================== *)
(** ** Challenge generation                                               *)
(* ===================================================================== *)

Lemma prompts_identical : unblock_prompt = verification_prompt.
Proof. vm_compute. reflexivity. Qed.

(** C9.  On every backend and in every state (service configuration,
    pending random draws, heap, request history) the two challenge
    generators return the same result and leave the same state, the
    request they sent included. *)
Theorem challenge_generators_agree (be : Backend) (w : World) :
  generate_unblock_question be w = generate_verification_challenge be w.
Proof.
  unfold generate_unblock_question, generate_verification_challenge.
  rewrite prompts_identical. reflexivity.
Qed.

Lemma verification_as_unblock (be : Backend) (w : World) :
  generate_verification_challenge be w = generate_unblock_question be w.
Proof.
  unfold generate_unblock_question, generate_verification_challenge.
  rewrite prompts_identical. reflexivity.
Qed.

Section Heap.

Implicit Types (w : World) (x : list json) (l : loc).

Lemma insert_found_perm (r : list json) (k : nat) (a b : json) :
  r !! k = Some b -> Permutation (b :: <[k := a]> r) (a :: r).
Proof.
  revert k. induction r as [|c r IH]; intros [|k] H; try discriminate.
  - cbn in H. injection H as ->. cbn. apply perm_swap.
  - cbn in H. cbn.
    eapply perm_trans; [apply perm_swap|].
    eapply perm_trans; [apply perm_skip, IH, H|]. apply perm_swap.
Qed.

Lemma swap_perm x (i j : nat) : Permutation (swap x i j) x.
Proof.
  unfold swap.
  destruct (x !! i) as [a|] eqn:Ei; [|reflexivity].
  destruct (x !! j) as [b|] eqn:Ej; [|reflexivity].
  revert i j Ei Ej. induction x as [|c r IH]; intros [|i] [|j] Ei Ej;
    try discriminate; cbn in *.
  - injection Ei as ->. injection Ej as ->. reflexivity.
  - injection Ei as ->. apply insert_found_perm, Ej.
  - injection Ej as ->. apply insert_found_perm, Ei.
  - apply perm_skip, IH; assumption.
Qed.

Lemma swap_length x (i j : nat) : length (swap x i j) = length x.
Proof. apply Permutation_length, swap_perm. Qed.

(** The draw of [randbelow] changes the pending draws only. *)
Lemma randbelow_spec (n : nat) w :
  exists i r,
    randbelow n w = (Ok i, with_rng r w) /\ (0 < n -> i < n).
Proof.
  unfold randbelow. destruct w as [s [|d r] h t]; cbn.
  - exists 0, []. split; [reflexivity|lia].
  - exists (d mod n), r. split; [reflexivity|].
    intros H. apply Nat.mod_upper_bound. lia.
Qed.

(** The loop of [random.shuffle] leaves a permutation at its address and
    touches nothing else but the pending draws. *)
Lemma shuffle_from_spec (i : nat) l w x :
  heap w !! l = Some x ->
  exists x' r,
    shuffle_from i l w = (Ok tt, with_heap (<[l := x']> (heap w)) (with_rng r w))
    /\ Permutation x' x.
Proof.
  revert w x. induction i as [|i IH]; intros w x Hl.
  - exists x, (rng w). split; [|reflexivity].
    rewrite list_insert_id by assumption. destruct w; reflexivity.
  - cbn [shuffle_from]. unfold bind at 1.
    destruct (randbelow_spec (S (S i)) w) as (j & r & -> & _).
    unfold bind at 1, read. cbn [heap with_rng]. rewrite Hl.
    unfold bind at 1, write, modify.
    set (w1 := with_heap _ _).
    assert (H1 : heap w1 !! l = Some (swap x (S i) j)).
    { subst w1. cbn. apply list_lookup_insert_eq.
      apply lookup_lt_Some in Hl. exact Hl. }
    destruct (IH w1 _ H1) as (x' & r' & -> & Hp).
    exists x', r'. split.
    + subst w1. cbn. rewrite list_insert_insert_eq. reflexivity.
    + eapply perm_trans; [exact Hp|apply swap_perm].
Qed.

Lemma random_shuffle_spec l w x :
  heap w !! l = Some x ->
  exists x' r,
    random_shuffle l w = (Ok tt, with_heap (<[l := x']> (heap w)) (with_rng r w))
    /\ Permutation x' x.
Proof.
  intros Hl. unfold random_shuffle, bind, read. rewrite Hl.
  apply shuffle_from_spec, Hl.
Qed.

(** Allocating a list and shuffling it appends one list object, a
    permutation of the allocated one, and leaves every older object as it
    was. *)
Lemma alloc_shuffle_spec {A} (k : loc -> SE World A) x w :
  exists x' r,
    bind (alloc x) (fun l => bind (random_shuffle l) (fun _ => k l)) w
    = k (length (heap w)) (with_heap (heap w ++ [x']) (with_rng r w))
    /\ Permutation x' x.
Proof.
  unfold bind at 1, alloc.
  set (w1 := with_heap _ _).
  assert (H1 : heap w1 !! length (heap w) = Some x).
  { subst w1. cbn. apply list_lookup_middle. reflexivity. }
  destruct (random_shuffle_spec _ _ _ H1) as (x' & r & E & Hp).
  exists x', r. split; [|exact Hp].
  unfold bind. rewrite E. subst w1. cbn [heap with_heap with_rng].
  replace (length (heap w)) with (length (heap w) + 0) at 2 by lia.
  rewrite insert_app_r. reflexivity.
Qed.

Lemma random_choice_spec {A} (seq : list A) w :
  seq <> [] ->
  exists e r, random_choice seq w = (Ok e, with_rng r w) /\ In e seq.
Proof.
  intros Hne. unfold random_choice, bind.
  destruct (randbelow_spec (length seq) w) as (i & r & -> & Hi).
  assert (Hlt : i < length seq).
  { apply Hi. destruct seq; [contradiction|cbn; lia]. }
  destruct (lookup_lt_is_Some_2 seq i Hlt) as [e He].
  exists e, r. rewrite He. split; [reflexivity|].
  apply list_elem_of_In. eapply list_elem_of_lookup_2, He.
Qed.

End Heap.

Section LocalBank.

Implicit Types (w : World) (h : Heap).

(** Every row of the table has three incorrect answers, none of them the
    correct one. *)
Lemma bank_rows_wellformed :
  Forall (fun row : pystr * pystr * list pystr =>
            length row.2 = 3
            /\ count_occ json_eq_dec (map JStr row.2) (JStr row.1.2) = 0)
         bank_rows.
Proof.
  apply (bool_decide_eq_true_1 _). vm_compute. reflexivity.
Qed.

Lemma bank_size : length bank_rows = 29.
Proof. reflexivity. Qed.

(** Reading the table as the source writes it, every entry is a row with
    its list of incorrect answers at the entry's address. *)
Lemma bank_entry_row h (e : BankEntry) :
  bank_view h = bank_source ->
  In e LOCAL_VERIFICATION_QUESTIONS ->
  exists row,
    In row bank_rows
    /\ q_question e = row.1.1 /\ q_correct_answer e = row.1.2
    /\ h !! q_incorrect_answers e = Some (map JStr row.2).
Proof.
  intros Hv He.
  assert (Hin : In (q_question e, q_correct_answer e,
                    h !! q_incorrect_answers e) bank_source).
  { rewrite <- Hv. unfold bank_view.
    apply (in_map (fun e => (q_question e, q_correct_answer e,
                             h !! q_incorrect_answers e))), He. }
  unfold bank_source in Hin. apply in_map_iff in Hin as (row & E & Hrow).
  exists row. injection E as E1 E2 E3. auto.
Qed.

(** An appended list object does not change how the table reads. *)
Lemma bank_view_app h (x : list json) :
  bank_view h = bank_source -> bank_view (h ++ [x]) = bank_source.
Proof.
  intros Hv. rewrite <- Hv. unfold bank_view.
  apply map_ext_in. intros e He.
  destruct (bank_entry_row h e Hv He) as (row & _ & _ & _ & Hl).
  rewrite lookup_app_l; [reflexivity|].
  eapply lookup_lt_Some, Hl.
Qed.

(** [_get_local_question] returns a row of the table; its options are a
    new list object, a permutation of the row's incorrect answers
    followed by the correct one; the older objects, the service and the
    request trace are untouched. *)
Lemma _get_local_question_spec w :
  bank_view (heap w) = bank_source ->
  exists row opts r,
    In row bank_rows
    /\ _get_local_question w =
       (Ok {| question := JStr row.1.1; correct_answer := JStr row.1.2;
              options := length (heap w) |},
        with_heap (heap w ++ [opts]) (with_rng r w))
    /\ Permutation opts (map JStr row.2 ++ [JStr row.1.2]).
Proof.
  intros Hv. unfold _get_local_question. unfold bind at 1.
  destruct (random_choice_spec LOCAL_VERIFICATION_QUESTIONS w)
    as (e & r1 & -> & He); [discriminate|].
  destruct (bank_entry_row _ e Hv He) as (row & Hrow & Eq & Ec & El).
  unfold bind at 1, read. cbn [heap with_rng]. rewrite El.
  destruct (alloc_shuffle_spec
              (fun l => ret {| question := JStr (q_question e);
                               correct_answer := JStr (q_correct_answer e);
                               options := l |})
              (map JStr row.2 ++ [JStr (q_correct_answer e)])
              (with_rng r1 w)) as (opts & r & E & Hp).
  exists row, opts, r. split; [exact Hrow|]. split.
  - rewrite E, Eq, Ec. destruct w; reflexivity.
  - rewrite <- Ec. exact Hp.
Qed.

(** Permuted options inherit length and occurrence counts. *)
Lemma options_of_permutation (opts inc : list json) (c : json) :
  Permutation opts (inc ++ [c]) ->
  length opts = length inc + 1
  /\ count_occ json_eq_dec opts c = count_occ json_eq_dec inc c + 1.
Proof.
  intros Hp. split.
  - rewrite (Permutation_length Hp), length_app. reflexivity.
  - rewrite (Permutation_count_occ json_eq_dec) in Hp. rewrite Hp.
    rewrite count_occ_app. cbn.
    destruct (json_eq_dec c c); [reflexivity|contradiction].
Qed.

End LocalBank.

(** C10.  Whatever draws the calls make, after any number of calls of
    [_get_local_question] the question table reads exactly as the source
    writes it: every entry has its question, its correct answer and its
    three incorrect answers in their order, for all 29 entries.  Each
    call only appends the list object it shuffles. *)
Theorem local_question_keeps_bank (scripts : list (list nat)) (w : World) :
  bank_view (heap w) = bank_source ->
  length LOCAL_VERIFICATION_QUESTIONS = 29
  /\ bank_view (heap (local_calls scripts w)) = bank_source
  /\ heap w `prefix_of` heap (local_calls scripts w)
  /\ length (heap (local_calls scripts w)) = length (heap w) + length scripts.
Proof.
  intros Hv. split; [reflexivity|].
  revert w Hv. induction scripts as [|r rest IH]; intros w Hv.
  - split; [exact Hv|]. split; [reflexivity|]. cbn [local_calls length]. lia.
  - cbn [local_calls].
    destruct (_get_local_question_spec (with_rng r w) Hv)
      as (row & opts & r' & _ & E & _).
    rewrite E. cbn [snd].
    set (w1 := with_heap _ _).
    assert (Hh : heap w1 = heap w ++ [opts]) by reflexivity.
    destruct (IH w1) as (H1 & H2 & H3).
    { rewrite Hh. apply bank_view_app, Hv. }
    split; [exact H1|]. split.
    + etransitivity; [|exact H2]. rewrite Hh. apply prefix_app_r. reflexivity.
    + rewrite H3, Hh, length_app. cbn [length]. lia.
Qed.

(** Three calls from the freshly loaded module. *)
Lemma local_question_keeps_bank_witness :
  bank_view (heap (local_calls [[3; 1; 0; 2]; [28; 0; 0; 0]; []] (boot [])))
  = bank_source.
Proof.
  apply (local_question_keeps_bank [[3; 1; 0; 2]; [28; 0; 0; 0]; []] (boot [])).
  vm_compute. reflexivity.
Defined.


Section Challenge.
Variable be : Backend.
Implicit Types (w : World) (r : Challenge).

Lemma local_result w r w' :
  bank_view (heap w) = bank_source ->
  _get_local_question w = (Ok r, w') ->
  exists opts inc,
    heap w' !! options r = Some opts
    /\ Permutation opts (inc ++ [correct_answer r])
    /\ from_bank r inc.
Proof.
  intros Hv H.
  destruct (_get_local_question_spec w Hv) as (row & opts & r1 & Hrow & E & Hp).
  rewrite E in H. injection H as <- <-.
  exists opts, (map JStr row.2). cbn [options correct_answer heap with_heap].
  split; [apply list_lookup_middle; reflexivity|].
  split; [exact Hp|]. exists row. auto.
Qed.

Lemma local_returns w :
  bank_view (heap w) = bank_source ->
  exists r w', _get_local_question w = (Ok r, w').
Proof.
  intros Hv.
  destruct (_get_local_question_spec w Hv) as (row & opts & r1 & _ & E & _).
  eauto.
Qed.

Lemma unblock_unfold w :
  generate_unblock_question be w =
  if negb (truthy_adapter (adapter (service w)))
     || negb (truthy_opt (verification_model_name (service w)))
  then _get_local_question w
  else try_except (challenge_attempt be unblock_prompt w)
         (fun _ => _get_local_question) w.
Proof.
  unfold generate_unblock_question, bind, get.
  destruct (negb _ || negb _); reflexivity.
Qed.

(** The [try] block keeps the table readable, and what it returns was
    built from the backend's reply. *)
Lemma challenge_attempt_spec (prompt : pystr) w (res : res Challenge) w1 :
  bank_view (heap w) = bank_source ->
  challenge_attempt be prompt w w = (res, w1) ->
  bank_view (heap w1) = bank_source
  /\ forall r, res = Ok r ->
       exists opts inc,
         heap w1 !! options r = Some opts
         /\ Permutation opts (inc ++ [correct_answer r])
         /\ from_reply be w prompt r inc.
Proof.
  intros Hv H.
  assert (Stop : forall e w2, bank_view (heap w2) = bank_source ->
            (Raise e, w2) = (res, w1) ->
            bank_view (heap w1) = bank_source
            /\ forall r, res = Ok r ->
                 exists opts inc,
                   heap w1 !! options r = Some opts
                   /\ Permutation opts (inc ++ [correct_answer r])
                   /\ from_reply be w prompt r inc).
  { intros e w2 Hv2 [= <- <-]. split; [exact Hv2|]. intros r [=]. }
  unfold challenge_attempt, bind at 1, generate_content in H.
  destruct (adapter (service w)) as [a|] eqn:Ea; [|apply (Stop _ w Hv H)].
  fold (challenge_call a w prompt) in H.
  set (w0 := with_trace _ w) in H.
  assert (Hv0 : bank_view (heap w0) = bank_source) by exact Hv.
  destruct (answer be (trace w) (challenge_call a w prompt)) as [[t|]|e] eqn:Ean;
    [|apply (Stop _ w0 Hv0 H)|apply (Stop _ w0 Hv0 H)].
  destruct t as [|ch t]; [apply (Stop _ w0 Hv0 H)|].
  cbn [truthy_opt truthy_str negb] in H.
  change (default [] (Some (ch :: t))) with (ch :: t) in H.
  destruct (json_loads (clean_text (ch :: t))) as [data|] eqn:Ej;
    [|apply (Stop _ w0 Hv0 H)].
  unfold bind at 1, item in H.
  destruct data as [| | | | |d]; try apply (Stop _ w0 Hv0 H).
  destruct (dict_get (u8 "correct_answer") d) as [correct|] eqn:Ec;
    [|apply (Stop _ w0 Hv0 H)].
  unfold ret at 1 in H. unfold bind at 1 in H.
  destruct (dict_get (u8 "incorrect_answers") d) as [incj|] eqn:Ei;
    [|apply (Stop _ w0 Hv0 H)].
  unfold ret at 1 in H. unfold plus_list in H.
  destruct incj as [| | | |inc|]; try apply (Stop _ w0 Hv0 H).
  destruct (alloc_shuffle_spec
              (fun options =>
                 question <- match dict_get (u8 "question") d with
                             | Some v => ret v
                             | None => raise (KeyError (u8 "question"))
                             end ;;
                 ret {| question := question; correct_answer := correct;
                        options := options |})
              (inc ++ [correct]) w0) as (opts & rr & E & Hp).
  rewrite E in H. clear E.
  set (w2 := with_heap _ _) in H.
  assert (Hv2 : bank_view (heap w2) = bank_source).
  { subst w2. cbn [heap with_heap with_rng]. apply bank_view_app, Hv. }
  unfold bind at 1 in H.
  destruct (dict_get (u8 "question") d) as [q|] eqn:Eq;
    [|apply (Stop _ w2 Hv2 H)].
  unfold ret in H. injection H as <- <-.
  split; [exact Hv2|]. intros r [= <-].
  exists opts, inc. cbn [options correct_answer question].
  split; [subst w2; cbn [heap with_heap]; apply list_lookup_middle; reflexivity|].
  split; [exact Hp|].
  exists a, (ch :: t), (JObj d). cbn [subscript question correct_answer].
  auto 10.
Qed.

(** With the table in place the generator always returns a challenge. *)
Lemma generate_unblock_question_returns w :
  bank_view (heap w) = bank_source ->
  exists r w', generate_unblock_question be w = (Ok r, w').
Proof.
  intros Hv. rewrite unblock_unfold.
  destruct (negb _ || negb _); [apply local_returns, Hv|].
  unfold try_except.
  destruct (challenge_attempt be unblock_prompt w w) as [[r|e] w1] eqn:E;
    [eauto|].
  apply local_returns.
  apply (challenge_attempt_spec _ _ _ _ Hv E).
Qed.

Lemma generate_unblock_question_spec w r w' :
  bank_view (heap w) = bank_source ->
  generate_unblock_question be w = (Ok r, w') ->
  exists opts inc,
    heap w' !! options r = Some opts
    /\ Permutation opts (inc ++ [correct_answer r])
    /\ (from_bank r inc \/ from_reply be w unblock_prompt r inc).
Proof.
  intros Hv H. rewrite unblock_unfold in H.
  assert (Local : forall w2, bank_view (heap w2) = bank_source ->
            _get_local_question w2 = (Ok r, w') ->
            exists opts inc,
              heap w' !! options r = Some opts
              /\ Permutation opts (inc ++ [correct_answer r])
              /\ (from_bank r inc \/ from_reply be w unblock_prompt r inc)).
  { intros w2 Hv2 H2.
    destruct (local_result w2 r w' Hv2 H2) as (opts & inc & ? & ? & ?).
    exists opts, inc. auto. }
  destruct (negb _ || negb _); [apply (Local w Hv H)|].
  unfold try_except in H.
  destruct (challenge_attempt be unblock_prompt w w) as [[r1|e] w1] eqn:E.
  - injection H as <- <-.
    destruct (challenge_attempt_spec _ _ _ _ Hv E) as [_ Hr].
    destruct (Hr r1 eq_refl) as (opts & inc & ? & ? & ?).
    exists opts, inc. auto.
  - apply (Local w1); [|exact H].
    apply (challenge_attempt_spec _ _ _ _ Hv E).
Qed.

(** The options of a local question are a new list object, and the
    older ones stay. *)
Lemma local_fresh w r w' :
  bank_view (heap w) = bank_source ->
  _get_local_question w = (Ok r, w') ->
  options r = length (heap w) /\ heap w `prefix_of` heap w'.
Proof.
  intros Hv H.
  destruct (_get_local_question_spec w Hv) as (row & opts & r1 & _ & E & _).
  rewrite E in H. injection H as <- <-. cbn [options heap with_heap with_rng].
  split; [reflexivity|]. apply prefix_app_r. reflexivity.
Qed.

(** The [try] block changes no list object that was there; the options
    of a challenge it returns are a new one. *)
Lemma challenge_attempt_heap (prompt : pystr) w (res : res Challenge) w1 :
  challenge_attempt be prompt w w = (res, w1) ->
  heap w `prefix_of` heap w1
  /\ forall r, res = Ok r -> options r = length (heap w).
Proof.
  intros H.
  assert (Stop : forall e w2, heap w `prefix_of` heap w2 ->
            (Raise e, w2) = (res, w1) ->
            heap w `prefix_of` heap w1
            /\ forall r, res = Ok r -> options r = length (heap w)).
  { intros e w2 Hp [= <- <-]. split; [exact Hp|]. intros r [=]. }
  assert (P0 : heap w `prefix_of` heap w) by reflexivity.
  unfold challenge_attempt, bind at 1, generate_content in H.
  destruct (adapter (service w)) as [a|] eqn:Ea; [|apply (Stop _ w P0 H)].
  set (w0 := with_trace _ w) in H.
  assert (Hp0 : heap w `prefix_of` heap w0) by reflexivity.
  destruct (answer be (trace w) _) as [[t|]|e];
    [|apply (Stop _ w0 Hp0 H)|apply (Stop _ w0 Hp0 H)].
  destruct t as [|ch t]; [apply (Stop _ w0 Hp0 H)|].
  cbn [truthy_opt truthy_str negb] in H.
  change (default [] (Some (ch :: t))) with (ch :: t) in H.
  destruct (json_loads (clean_text (ch :: t))) as [data|];
    [|apply (Stop _ w0 Hp0 H)].
  unfold bind at 1, item in H.
  destruct data as [| | | | |d]; try apply (Stop _ w0 Hp0 H).
  destruct (dict_get (u8 "correct_answer") d) as [correct|];
    [|apply (Stop _ w0 Hp0 H)].
  unfold ret at 1 in H. unfold bind at 1 in H.
  destruct (dict_get (u8 "incorrect_answers") d) as [incj|];
    [|apply (Stop _ w0 Hp0 H)].
  unfold ret at 1 in H. unfold plus_list in H.
  destruct incj as [| | | |inc|]; try apply (Stop _ w0 Hp0 H).
  destruct (alloc_shuffle_spec
              (fun options =>
                 question <- match dict_get (u8 "question") d with
                             | Some v => ret v
                             | None => raise (KeyError (u8 "question"))
                             end ;;
                 ret {| question := question; correct_answer := correct;
                        options := options |})
              (inc ++ [correct]) w0) as (opts & rr & E & _).
  rewrite E in H. clear E.
  set (w2 := with_heap _ _) in H.
  assert (Hp2 : heap w `prefix_of` heap w2).
  { subst w2. cbn [heap with_heap with_rng]. apply prefix_app_r. reflexivity. }
  unfold bind at 1 in H.
  destruct (dict_get (u8 "question") d) as [q|]; [|apply (Stop _ w2 Hp2 H)].
  unfold ret in H. injection H as <- <-.
  split; [exact Hp2|]. intros r [= <-]. reflexivity.
Qed.

(** The options of a generated challenge are a list object that did not
    exist before the call, and the call changes none that did. *)
Lemma generate_unblock_question_fresh w r w' :
  bank_view (heap w) = bank_source ->
  generate_unblock_question be w = (Ok r, w') ->
  length (heap w) <= options r /\ heap w `prefix_of` heap w'.
Proof.
  intros Hv H. rewrite unblock_unfold in H.
  destruct (negb _ || negb _).
  { destruct (local_fresh w r w' Hv H) as [-> Hp]. split; [lia|exact Hp]. }
  unfold try_except in H.
  destruct (challenge_attempt be unblock_prompt w w) as [[r1|e] w1] eqn:E.
  - injection H as <- <-.
    destruct (challenge_attempt_heap _ _ _ _ E) as [Hp Hr].
    rewrite (Hr r1 eq_refl). split; [lia|exact Hp].
  - destruct (challenge_attempt_heap _ _ _ _ E) as [Hp _].
    destruct (challenge_attempt_spec _ _ _ _ Hv E) as [Hv1 _].
    destruct (local_fresh w1 r w' Hv1 H) as [-> Hp'].
    split; [apply prefix_length, Hp|etransitivity; eassumption].
Qed.

(** The entries of a row of the table are strings. *)
Lemma from_bank_strings r (inc : list json) :
  from_bank r inc -> forallb is_str (correct_answer r :: inc) = true.
Proof.
  intros (row & _ & _ & -> & ->). cbn [forallb is_str andb].
  induction (row.2) as [|x l IH]; [reflexivity|exact IH].
Qed.

(** Rows of the table satisfy the option-set premises. *)
Lemma from_bank_wellformed r (inc : list json) :
  from_bank r inc ->
  length inc = 3 /\ count_occ json_eq_dec inc (correct_answer r) = 0.
Proof.
  intros (row & Hrow & _ & -> & ->).
  pose proof bank_rows_wellformed as W.
  rewrite Forall_forall in W. specialize (W row).
  destruct W as [W1 W2]; [apply list_elem_of_In, Hrow|].
  rewrite length_map. auto.
Qed.

Lemma option_set_iff (opts inc : list json) (c : json) :
  Permutation opts (inc ++ [c]) ->
  option_set_ok opts c <->
  length inc = 3 /\ count_occ json_eq_dec inc c = 0.
Proof.
  intros Hp. destruct (options_of_permutation _ _ _ Hp) as [Hl Hc].
  unfold option_set_ok. rewrite Hl, Hc. lia.
Qed.

End Challenge.

Lemma live_reads_bank (draws : list nat) :
  bank_view (heap (live draws)) = bank_source.
Proof. vm_compute. reflexivity. Qed.

(** C1, as stated, fails: a reply that parses and carries the three
    fields, but lists two incorrect answers of which one equals the
    correct answer, is returned with three options holding the correct
    answer twice. *)
Lemma challenge_option_set_refuted :
  ~ (forall (be : Backend) (w : World) (r : Challenge) (w' : World),
        bank_view (heap w) = bank_source ->
        generate_unblock_question be w = (Ok r, w') ->
        exists opts,
          heap w' !! options r = Some opts
          /\ option_set_ok opts (correct_answer r)).
Proof.
  intros H.
  destruct (generate_unblock_question (scripted (Ok (Some short_reply)))
              (live [5; 1; 7])) as [[r|e] w'] eqn:E.
  - destruct (H _ _ r w' (live_reads_bank [5; 1; 7]) E)
      as (opts & Hl & Hlen & _).
    vm_compute in E. injection E as <- <-.
    vm_compute in Hl. injection Hl as <-. discriminate Hlen.
  - vm_compute in E. discriminate E.
Qed.

(** C1, amended.  Every challenge either generator returns has as options
    a new list object: its address did not exist before the call, and the
    call changes no list that did.  The options are a permutation of a
    list [inc] of incorrect answers followed by the correct answer, so
    one entry more than [inc], where [inc] is the incorrect answers of a
    row of the local table or the [incorrect_answers] list of the parsed
    reply.  For a row of the table the entries are strings, four of
    them, and hold the correct answer exactly once.  For a parsed reply
    whose answers are strings they are four and hold the correct answer
    exactly once exactly when the reply lists three incorrect answers,
    none equal to its correct answer. *)
Theorem challenge_option_set (be : Backend) (w : World) (r : Challenge)
    (w' : World) :
  bank_view (heap w) = bank_source ->
  generate_unblock_question be w = (Ok r, w')
  \/ generate_verification_challenge be w = (Ok r, w') ->
  exists opts inc,
    heap w' !! options r = Some opts
    /\ length (heap w) <= options r
    /\ heap w `prefix_of` heap w'
    /\ Permutation opts (inc ++ [correct_answer r])
    /\ length opts = length inc + 1
    /\ (from_bank r inc \/ from_reply be w unblock_prompt r inc)
    /\ (from_bank r inc ->
        forallb is_str opts = true /\ option_set_ok opts (correct_answer r))
    /\ (forallb is_str (correct_answer r :: inc) = true ->
        forallb is_str opts = true
        /\ (option_set_ok opts (correct_answer r) <->
            length inc = 3 /\ ~ In (correct_answer r) inc)).
Proof.
  intros Hv H.
  assert (H' : generate_unblock_question be w = (Ok r, w')).
  { destruct H as [H|H]; [exact H|].
    rewrite <- verification_as_unblock. exact H. }
  destruct (generate_unblock_question_spec be w r w' Hv H')
    as (opts & inc & Hl & Hp & Hsrc).
  destruct (generate_unblock_question_fresh be w r w' Hv H') as [Hnew Hold].
  exists opts, inc. repeat (split; [assumption|]).
  pose proof (option_set_iff opts inc (correct_answer r) Hp) as Hiff.
  destruct (options_of_permutation _ _ _ Hp) as [Hlen _].
  assert (Hstr : forallb is_str (correct_answer r :: inc) = true ->
                 forallb is_str opts = true).
  { intros Hs. apply forallb_forall. intros x Hx.
    apply (Permutation_in _ Hp) in Hx.
    rewrite forallb_forall in Hs. apply Hs.
    apply in_app_or in Hx as [Hx|[<-|[]]]; [right; exact Hx|left; reflexivity]. }
  split; [exact Hlen|]. split; [exact Hsrc|]. split.
  - intros Hb. split; [apply Hstr, from_bank_strings, Hb|].
    apply Hiff, from_bank_wellformed, Hb.
  - intros Hs. split; [apply Hstr, Hs|].
    rewrite Hiff. split; intros [A B]; (split; [exact A|]).
    + apply (count_occ_not_In json_eq_dec), B.
    + apply (count_occ_not_In json_eq_dec), B.
Qed.

(** A reply in the requested shape: four options, the correct answer
    once, in a list object that is new. *)
Lemma challenge_option_set_witness :
  exists opts inc,
    heap (snd (generate_unblock_question (scripted (Ok (Some good_reply)))
                 (live [5; 1; 7]))) !! 29 = Some opts
    /\ length (heap (live [5; 1; 7])) <= 29
    /\ Permutation opts (inc ++ [JStr (u8 "2")])
    /\ option_set_ok opts (JStr (u8 "2")).
Proof.
  destruct (challenge_option_set (scripted (Ok (Some good_reply)))
              (live [5; 1; 7])
              {| question := JStr (u8 "1+1=?");
                 correct_answer := JStr (u8 "2"); options := 29 |}
              (snd (generate_unblock_question
                      (scripted (Ok (Some good_reply))) (live [5; 1; 7])))
              ltac:(vm_compute; reflexivity)
              ltac:(left; vm_compute; reflexivity))
    as (opts & inc & Hl & Hnew & _ & Hp & _ & Hsrc & _ & Hiff).
  exists opts, inc. split; [exact Hl|]. split; [exact Hnew|].
  split; [exact Hp|].
  destruct Hsrc as [Hb|(a & t & data & Ea & Ean & Ej & _ & _ & Ei)].
  - apply Hiff; [apply (from_bank_strings _ _ Hb)|].
    destruct (from_bank_wellformed _ _ Hb) as [A B].
    split; [exact A|]. apply (count_occ_not_In json_eq_dec), B.
  - injection Ean as <-. vm_compute in Ej. injection Ej as <-.
    vm_compute in Ei. injection Ei as <-.
    apply Hiff; [reflexivity|]. split; [reflexivity|].
    intros [H|[H|[H|[]]]]; discriminate H.
Defined.


(* ===================================================================== *)
(** ** Fence stripping                                                    *)
(* ===================================================================== *)

Section FenceLemmas.

Implicit Types (s t p r ws : pystr) (c : N).

Lemma after_prefix_app p s : after_prefix p (p ++ s) = Some s.
Proof.
  induction p as [|a p IH]; [destruct s; reflexivity|].
  cbn. rewrite N.eqb_refl. exact IH.
Qed.









Lemma sub_fences_emit c r :
  match_len (c :: r) = None -> sub_fences 0 (c :: r) = c :: sub_fences 0 r.
Proof. intros H. cbn [sub_fences]. rewrite H. reflexivity. Qed.








Lemma after_prefix_longer p q s :
  after_prefix p s = None -> after_prefix (p ++ q) s = None.
Proof.
  revert s. induction p as [|a p IH]; intros s H; [destruct s; discriminate|].
  destruct s as [|b s]; [reflexivity|]. cbn in *.
  destruct (a =? b)%N; [apply IH, H|reflexivity].
Qed.







End FenceLemmas.


Section FencedVerdict.

Variable be : Backend.
Variable config : Config.
Variable image_opens : list N -> bool.


End FencedVerdict.

(* ===================================================================== *)
(** * Further properties of the code                                      *)
(* ===================================================================== *)

(** ** Initialisation of the model service *)

Section InitializeMore.

Variable be : Backend.
Implicit Types (self s : ModelService) (provider api_key : pystr).

Lemma py_or_truthy (a b : option pystr) :
  truthy_opt b = true -> truthy_opt (py_or a b) = true.
Proof. intros H. unfold py_or. destruct (truthy_opt a) eqn:E; assumption. Qed.

Lemma py_or_left (a b : option pystr) : truthy_opt a = true -> py_or a b = a.
Proof. intros H. unfold py_or. rewrite H. reflexivity. Qed.

(** The three branches with a default model: what [initialize] does for
    the class [k] with defaults [df] and [dv]. *)
Lemma initialize_default_branch (k : provider_kind) api_key base_url fm vm kw
    (df dv : pystr) self :
  (a <- lift (make_adapter be k api_key base_url kw) ;;
   set_adapter (Some a) ;;;
   set_filter_model_name (py_or fm (Some df)) ;;;
   set_verification_model_name (py_or vm (Some dv))) self
  = if client_constructs be k api_key base_url
    then (Ok tt,
          {| adapter := Some {| a_kind := k; a_api_key := api_key;
                                a_base_url := base_url; a_kwargs := kw |};
             filter_model_name := py_or fm (Some df);
             verification_model_name := py_or vm (Some dv) |})
    else (Raise (import_error k), self).
Proof.
  unfold bind, lift, make_adapter.
  destruct (client_constructs be k api_key base_url); reflexivity.
Qed.

(** The [custom] branch. *)
Lemma initialize_custom_branch provider api_key base_url fm vm kw self :
  lower provider = u8 "custom" ->
  initialize be provider api_key base_url fm vm kw self
  = if negb (truthy_opt base_url)
    then (Raise (ValueError (u8 "自定义API必须提供base_url")), self)
    else if client_constructs be Custom api_key base_url
    then
      let s := {| adapter := Some {| a_kind := Custom; a_api_key := api_key;
                                     a_base_url := base_url; a_kwargs := kw |};
                  filter_model_name := fm;
                  verification_model_name := py_or vm fm |} in
      if negb (truthy_opt fm)
      then (Raise (ValueError (u8 "自定义API必须提供filter_model")), s)
      else (Ok tt, s)
    else (Raise (import_error Custom), self).
Proof.
  intros Hp. unfold initialize. rewrite Hp.
  change (str_eqb (u8 "custom") (u8 "gemini")) with false.
  change (str_eqb (u8 "custom") (u8 "openai")) with false.
  change (str_eqb (u8 "custom") (u8 "claude")) with false.
  change (str_eqb (u8 "custom") (u8 "custom")) with true.
  cbn iota.
  destruct (truthy_opt base_url) eqn:Hb; cbn [negb]; [|reflexivity].
  unfold bind, lift, CustomAPIAdapter, make_adapter. rewrite Hb. cbn [negb].
  destruct (client_constructs be Custom api_key base_url); [|reflexivity].
  unfold ret, set_adapter, set_filter_model_name, set_verification_model_name,
    modify, get.
  cbn [adapter filter_model_name verification_model_name].
  destruct (truthy_opt fm); reflexivity.
Qed.

(** The provider key selects the branch. *)
Lemma initialize_cases provider :
  lower provider = u8 "gemini" \/ lower provider = u8 "openai"
  \/ lower provider = u8 "claude" \/ lower provider = u8 "custom"
  \/ (lower provider <> u8 "gemini" /\ lower provider <> u8 "openai"
      /\ lower provider <> u8 "claude" /\ lower provider <> u8 "custom").
Proof.
  destruct (decide (lower provider = u8 "gemini")); [auto|].
  destruct (decide (lower provider = u8 "openai")); [auto|].
  destruct (decide (lower provider = u8 "claude")); [auto|].
  destruct (decide (lower provider = u8 "custom")); [auto 6|].
  auto 10.
Qed.

Lemma initialize_gemini provider api_key base_url fm vm kw self :
  lower provider = u8 "gemini" ->
  initialize be provider api_key base_url fm vm kw self
  = if client_constructs be Gemini api_key base_url
    then (Ok tt,
          {| adapter := Some {| a_kind := Gemini; a_api_key := api_key;
                                a_base_url := base_url; a_kwargs := kw |};
             filter_model_name := py_or fm (Some (u8 "gemini-2.5-flash"));
             verification_model_name :=
               py_or vm (Some (u8 "gemini-2.5-flash-lite")) |})
    else (Raise (import_error Gemini), self).
Proof.
  intros Hp. unfold initialize. rewrite Hp.
  change (str_eqb (u8 "gemini") (u8 "gemini")) with true. cbn iota.
  apply initialize_default_branch.
Qed.

Lemma initialize_openai provider api_key base_url fm vm kw self :
  lower provider = u8 "openai" ->
  initialize be provider api_key base_url fm vm kw self
  = if client_constructs be OpenAI api_key base_url
    then (Ok tt,
          {| adapter := Some {| a_kind := OpenAI; a_api_key := api_key;
                                a_base_url := base_url; a_kwargs := kw |};
             filter_model_name := py_or fm (Some (u8 "gpt-4o-mini"));
             verification_model_name := py_or vm (Some (u8 "gpt-4o-mini")) |})
    else (Raise (import_error OpenAI), self).
Proof.
  intros Hp. unfold initialize. rewrite Hp.
  change (str_eqb (u8 "openai") (u8 "gemini")) with false.
  change (str_eqb (u8 "openai") (u8 "openai")) with true. cbn iota.
  apply initialize_default_branch.
Qed.

Lemma initialize_claude provider api_key base_url fm vm kw self :
  lower provider = u8 "claude" ->
  initialize be provider api_key base_url fm vm kw self
  = if client_constructs be Claude api_key base_url
    then (Ok tt,
          {| adapter := Some {| a_kind := Claude; a_api_key := api_key;
                                a_base_url := base_url; a_kwargs := kw |};
             filter_model_name :=
               py_or fm (Some (u8 "claude-3-haiku-20240307"));
             verification_model_name :=
               py_or vm (Some (u8 "claude-3-haiku-20240307")) |})
    else (Raise (import_error Claude), self).
Proof.
  intros Hp. unfold initialize. rewrite Hp.
  change (str_eqb (u8 "claude") (u8 "gemini")) with false.
  change (str_eqb (u8 "claude") (u8 "openai")) with false.
  change (str_eqb (u8 "claude") (u8 "claude")) with true. cbn iota.
  apply initialize_default_branch.
Qed.

Lemma initialize_ok provider api_key base_url fm vm kw self s :
  initialize be provider api_key base_url fm vm kw self = (Ok tt, s) ->
  exists k,
    lower provider = key_of k
    /\ client_constructs be k api_key base_url = true
    /\ adapter s = Some {| a_kind := k; a_api_key := api_key;
                           a_base_url := base_url; a_kwargs := kw |}
    /\ configured s
    /\ (truthy_opt fm = true -> filter_model_name s = fm)
    /\ (truthy_opt vm = true -> verification_model_name s = vm).
Proof.
  intros H.
  destruct (initialize_cases provider) as [Hp|[Hp|[Hp|[Hp|(H1 & H2 & H3 & H4)]]]].
  - rewrite (initialize_gemini _ _ _ _ _ _ _ Hp) in H. exists Gemini.
    destruct (client_constructs be Gemini api_key base_url); [|discriminate].
    injection H as <-. unfold configured.
    cbn [adapter filter_model_name verification_model_name key_of].
    repeat split; auto using py_or_truthy, py_or_left; discriminate.
  - rewrite (initialize_openai _ _ _ _ _ _ _ Hp) in H. exists OpenAI.
    destruct (client_constructs be OpenAI api_key base_url); [|discriminate].
    injection H as <-. unfold configured.
    cbn [adapter filter_model_name verification_model_name key_of].
    repeat split; auto using py_or_truthy, py_or_left; discriminate.
  - rewrite (initialize_claude _ _ _ _ _ _ _ Hp) in H. exists Claude.
    destruct (client_constructs be Claude api_key base_url); [|discriminate].
    injection H as <-. unfold configured.
    cbn [adapter filter_model_name verification_model_name key_of].
    repeat split; auto using py_or_truthy, py_or_left; discriminate.
  - rewrite (initialize_custom_branch _ _ _ _ _ _ _ Hp) in H. exists Custom.
    destruct (truthy_opt base_url); cbn [negb] in H; [|discriminate].
    destruct (client_constructs be Custom api_key base_url); [|discriminate].
    cbn zeta in H. destruct (truthy_opt fm) eqn:Hf; cbn [negb] in H;
      [|discriminate].
    injection H as <-. unfold configured.
    cbn [adapter filter_model_name verification_model_name key_of].
    repeat split; auto using py_or_left; try discriminate.
    unfold py_or. destruct (truthy_opt vm) eqn:Hv; assumption.
  - rewrite initialize_unsupported in H by assumption. discriminate.
Qed.

(** X1.  A successful [initialize] leaves a fully usable service: the
    adapter of the class named by the provider key (compared without
    regard to case), holding the given key, base URL and options, and two
    non-empty model names, which are the caller's where the caller gave
    non-empty ones. *)
Theorem initialize_success provider api_key base_url fm vm kw self s :
  initialize be provider api_key base_url fm vm kw self = (Ok tt, s) ->
  exists k,
    lower provider = key_of k
    /\ client_constructs be k api_key base_url = true
    /\ adapter s = Some {| a_kind := k; a_api_key := api_key;
                           a_base_url := base_url; a_kwargs := kw |}
    /\ configured s
    /\ (truthy_opt fm = true -> filter_model_name s = fm)
    /\ (truthy_opt vm = true -> verification_model_name s = vm).
Proof. apply initialize_ok. Qed.

(** X2.  A failed [initialize] leaves the service exactly as it was,
    except for the one error raised for [custom] without a filter
    model. *)
Theorem initialize_failure_frame provider api_key base_url fm vm kw self e s :
  initialize be provider api_key base_url fm vm kw self = (Raise e, s) ->
  e <> ValueError (u8 "自定义API必须提供filter_model") ->
  s = self.
Proof.
  intros H He.
  destruct (initialize_cases provider) as [Hp|[Hp|[Hp|[Hp|(H1 & H2 & H3 & H4)]]]].
  - rewrite (initialize_gemini _ _ _ _ _ _ _ Hp) in H.
    destruct (client_constructs be Gemini api_key base_url);
      [discriminate|congruence].
  - rewrite (initialize_openai _ _ _ _ _ _ _ Hp) in H.
    destruct (client_constructs be OpenAI api_key base_url);
      [discriminate|congruence].
  - rewrite (initialize_claude _ _ _ _ _ _ _ Hp) in H.
    destruct (client_constructs be Claude api_key base_url);
      [discriminate|congruence].
  - rewrite (initialize_custom_branch _ _ _ _ _ _ _ Hp) in H.
    destruct (truthy_opt base_url); cbn [negb] in H; [|congruence].
    destruct (client_constructs be Custom api_key base_url); [|congruence].
    cbn zeta in H. destruct (truthy_opt fm); cbn [negb] in H;
      [discriminate|].
    injection H as <- _. contradiction.
  - rewrite initialize_unsupported in H by assumption. congruence.
Qed.

Lemma clear_service_spec self : clear_service self = (Ok tt, new_service).
Proof. reflexivity. Qed.


End InitializeMore.

Section DisabledMode.

Variable be : Backend.
Variable config : Config.
Variable image_opens : list N -> bool.

(** X4.  Without an API key every AI feature takes its fallback and no
    request is ever sent: after [_initialize_model_service],
    [analyze_message] answers "AI filter disabled" whatever the feature
    flag says, [generate_autoreply] answers nothing, and both challenge
    generators are the local question. *)
Theorem no_api_key_disables_ai (w : World) (message : Message)
    (image_bytes : option (list N)) (user_message : pystr)
    (knowledge_base_content : option pystr) :
  truthy_opt (AI_API_KEY config) = false ->
  let w1 := snd (_initialize_model_service be config w) in
  w1 = with_service new_service w
  /\ analyze_message be config image_opens message image_bytes w1
     = (Ok (verdict false (u8 "AI filter disabled")), w1)
  /\ generate_autoreply be user_message knowledge_base_content w1
     = (Ok None, w1)
  /\ generate_unblock_question be w1 = _get_local_question w1
  /\ generate_verification_challenge be w1 = _get_local_question w1.
Proof.
  intros Hk. cbn zeta.
  assert (E : snd (_initialize_model_service be config w)
              = with_service new_service w).
  { unfold _initialize_model_service. rewrite Hk. reflexivity. }
  rewrite E. split; [reflexivity|].
  repeat split; reflexivity.
Qed.

End DisabledMode.

(** ** Content analysis *)

Section AnalysisMore.

Variable be : Backend.
Variable config : Config.
Variable image_opens : list N -> bool.

Implicit Types (message : Message) (w : World).

(** What [analyze_message] does once its guard is passed and there is
    something to analyse. *)
Lemma analyze_message_request message (image_bytes : option (list N)) w
    (a : Adapter) :
  adapter (service w) = Some a ->
  truthy_opt (filter_model_name (service w)) = true ->
  ENABLE_AI_FILTER config = true ->
  analysis_parts image_opens message image_bytes <> [] ->
  let c := analysis_call a w image_opens message image_bytes in
  analyze_message be config image_opens message image_bytes w
  = (Ok (verdict_of (answer be (trace w) c)), with_trace (trace w ++ [c]) w).
Proof.
  intros Ha Hf He Hne c. subst c.
  unfold analyze_message, bind, get, analysis_call.
  rewrite Ha, Hf, He. cbn [truthy_adapter negb orb].
  unfold analysis_parts in *.
  assert (Run : forall content,
    try_except
      (response_text <-
         generate_content be (filter_model_name (service w)) content ;;
       if negb (truthy_opt response_text)
       then raise (ValueError (u8 "API returned an empty response."))
       else
         match json_loads (clean_text (default [] response_text)) with
         | Some result => ret result
         | None => raise JSONDecodeError
         end)
      (fun e =>
         match e with
         | JSONDecodeError =>
             ret (verdict false (u8 "Analysis failed - JSON parse error"))
         | _ => ret (verdict false (u8 "Analysis failed"))
         end) w
    = (Ok (verdict_of
             (answer be (trace w)
                {| pc_adapter := a;
                   pc_model := filter_model_name (service w);
                   pc_contents := content |})),
       with_trace
         (trace w ++ [{| pc_adapter := a;
                         pc_model := filter_model_name (service w);
                         pc_contents := content |}]) w)).
  { intros content. unfold try_except, bind, generate_content. rewrite Ha.
    destruct (answer be (trace w) _) as [[t|]|e]; try reflexivity;
      [|destruct e; reflexivity].
    destruct t as [|ch t]; [reflexivity|].
    cbn [truthy_opt truthy_str negb verdict_of].
    change (default [] (Some (ch :: t))) with (ch :: t).
    destruct (json_loads (clean_text (ch :: t))); reflexivity. }
  destruct (truthy_opt (text message)); cbn [app] in *.
  - destruct (truthy_bytes image_bytes); cbn [andb app] in *;
      [destruct (image_opens (default [] image_bytes)); cbn [app] in *|];
      apply Run.
  - destruct (truthy_bytes image_bytes); cbn [andb app] in *;
      [destruct (image_opens (default [] image_bytes)); cbn [app] in *|];
      try contradiction; apply Run.
Qed.


Lemma analyze_message_disabled message (image_bytes : option (list N)) w :
  negb (truthy_adapter (adapter (service w)))
  || negb (truthy_opt (filter_model_name (service w)))
  || negb (ENABLE_AI_FILTER config) = true ->
  analyze_message be config image_opens message image_bytes w
  = (Ok (verdict false (u8 "AI filter disabled")), w).
Proof.
  intros H. unfold analyze_message, bind, get. rewrite H. reflexivity.
Qed.



End AnalysisMore.

(** ** Cleaning of replies *)

Section CleaningMore.

Implicit Types (s t ws : pystr) (c : N).

Lemma no_backtick_lstrip s : no_backtick s = true -> no_backtick (lstrip s) = true.
Proof.
  induction s as [|c s IH]; [reflexivity|]. intros H. cbn [lstrip].
  destruct (is_space c); [|exact H].
  apply IH. cbn in H. apply andb_prop in H. apply H.
Qed.

Lemma no_backtick_head s : no_backtick s = true -> after_prefix fence s = None.
Proof.
  destruct s as [|c s]; [reflexivity|]. intros H. cbn in H.
  apply andb_prop in H as [H _]. apply negb_true_iff in H.
  unfold fence. cbn [after_prefix]. rewrite N.eqb_sym, H. reflexivity.
Qed.

Lemma match_len_no_backtick s : no_backtick s = true -> match_len s = None.
Proof.
  intros H. unfold match_len, fence_json.
  rewrite after_prefix_longer by (apply no_backtick_head, H).
  rewrite no_backtick_head by (apply no_backtick_lstrip, H). reflexivity.
Qed.

Lemma sub_fences_no_backtick s : no_backtick s = true -> sub_fences 0 s = s.
Proof.
  induction s as [|c s IH]; [reflexivity|]. intros H.
  rewrite sub_fences_emit by (apply match_len_no_backtick, H).
  rewrite IH; [reflexivity|]. cbn in H. apply andb_prop in H. apply H.
Qed.

(** X7.  A reply without any backtick is only stripped of surrounding
    whitespace by the cleaning step: a reply that obeys the prompt and
    carries bare JSON reaches the parser as it is. *)
Theorem clean_text_without_backtick t :
  no_backtick t = true -> clean_text t = strip t.
Proof. intros H. unfold clean_text. rewrite sub_fences_no_backtick by exact H. reflexivity. Qed.





End CleaningMore.

Section SpacedFence.

Variable be : Backend.
Variable config : Config.
Variable image_opens : list N -> bool.


End SpacedFence.

(** ** Challenge generation *)

Section ChallengeMore.

Variable be : Backend.
Implicit Types (w : World) (r : Challenge).

Lemma challenge_attempt_unusable (prompt : pystr) w (a : Adapter) :
  adapter (service w) = Some a ->
  unusable (answer be (trace w) (challenge_call a w prompt)) = true ->
  exists e,
    challenge_attempt be prompt w w
    = (Raise e, with_trace (trace w ++ [challenge_call a w prompt]) w).
Proof.
  intros Ea Hu. unfold challenge_attempt, bind, generate_content. rewrite Ea.
  fold (challenge_call a w prompt).
  destruct (answer be (trace w) (challenge_call a w prompt)) as [[t|]|e];
    cbn [unusable] in Hu.
  - destruct t as [|ch t]; [eexists; reflexivity|].
    cbn [truthy_str negb orb truthy_opt] in *.
    change (default [] (Some (ch :: t))) with (ch :: t).
    destruct (json_loads (clean_text (ch :: t))); [discriminate|].
    eexists; reflexivity.
  - eexists; reflexivity.
  - eexists; reflexivity.
Qed.

Lemma verification_unfold w :
  generate_verification_challenge be w =
  if negb (truthy_adapter (adapter (service w)))
     || negb (truthy_opt (verification_model_name (service w)))
  then _get_local_question w
  else try_except (challenge_attempt be verification_prompt w)
         (fun _ => _get_local_question) w.
Proof.
  unfold generate_verification_challenge, bind, get.
  destruct (negb _ || negb _); reflexivity.
Qed.

(** X9.  When the backend's answer is unusable (the request fails, the
    reply is empty, or the reply does not parse after cleaning) both
    challenge generators return exactly what [_get_local_question]
    returns in the state where the one request has been recorded: the
    same entry, the same shuffle, from the same pending draws. *)
Theorem challenge_fallback_is_local w (a : Adapter) :
  adapter (service w) = Some a ->
  truthy_opt (verification_model_name (service w)) = true ->
  (unusable (answer be (trace w) (challenge_call a w unblock_prompt)) = true ->
   generate_unblock_question be w
   = _get_local_question
       (with_trace (trace w ++ [challenge_call a w unblock_prompt]) w))
  /\ (unusable (answer be (trace w) (challenge_call a w verification_prompt))
      = true ->
      generate_verification_challenge be w
      = _get_local_question
          (with_trace (trace w ++ [challenge_call a w verification_prompt]) w)).
Proof.
  intros Ea Ev. split; intros Hu.
  - rewrite unblock_unfold, Ea, Ev. cbn [truthy_adapter negb orb].
    unfold try_except.
    destruct (challenge_attempt_unusable _ _ _ Ea Hu) as [e ->]. reflexivity.
  - rewrite verification_unfold, Ea, Ev. cbn [truthy_adapter negb orb].
    unfold try_except.
    destruct (challenge_attempt_unusable _ _ _ Ea Hu) as [e ->]. reflexivity.
Qed.





End ChallengeMore.

(** ** Draws of the local question *)

Section LocalDraws.

Implicit Types (w : World) (x : list json).

Lemma drop_tail {A} (l : list A) (i : nat) : drop i (tail l) = drop (S i) l.
Proof. destruct l; [cbn [tail]; rewrite !drop_nil|]; reflexivity. Qed.

Lemma insert_last {A} (h : list A) (x y : A) :
  <[length h := y]> (h ++ [x]) = h ++ [y].
Proof.
  replace (length h) with (length h + 0) by lia.
  rewrite insert_app_r. reflexivity.
Qed.

Lemma randbelow_exact (n : nat) w :
  randbelow n w = (Ok (hd 0 (rng w) mod n), with_rng (tl (rng w)) w).
Proof.
  unfold randbelow. destruct w as [s [|d r] h t]; cbn [rng hd tl].
  - rewrite Nat.Div0.mod_0_l. reflexivity.
  - reflexivity.
Qed.

Lemma shuffle_from_exact (i : nat) (l : loc) w x :
  heap w !! l = Some x ->
  exists x',
    shuffle_from i l w
    = (Ok tt, with_heap (<[l := x']> (heap w)) (with_rng (drop i (rng w)) w))
    /\ Permutation x' x.
Proof.
  revert w x. induction i as [|i IH]; intros w x Hl.
  - exists x. split; [|reflexivity].
    rewrite list_insert_id by assumption. rewrite drop_0.
    destruct w; reflexivity.
  - cbn [shuffle_from]. unfold bind at 1. rewrite randbelow_exact.
    unfold bind at 1, read. cbn [heap with_rng]. rewrite Hl.
    unfold bind at 1, write, modify.
    set (w1 := with_heap _ _).
    assert (H1 : heap w1 !! l = Some (swap x (S i) (hd 0 (rng w) mod S (S i)))).
    { subst w1. cbn [heap with_heap]. apply list_lookup_insert_eq.
      apply lookup_lt_Some in Hl. exact Hl. }
    destruct (IH w1 _ H1) as (x' & -> & Hp).
    exists x'. split.
    + subst w1. cbn [heap rng with_heap with_rng service trace].
      rewrite list_insert_insert_eq.
      rewrite drop_tail. reflexivity.
    + eapply perm_trans; [exact Hp|apply swap_perm].
Qed.

Lemma bank_lookup (h : Heap) (i : nat) (row : pystr * pystr * list pystr) :
  bank_view h = bank_source ->
  bank_rows !! i = Some row ->
  LOCAL_VERIFICATION_QUESTIONS !! i
  = Some {| q_question := row.1.1; q_correct_answer := row.1.2;
            q_incorrect_answers := i |}
  /\ h !! i = Some (map JStr row.2).
Proof.
  intros Hv Hrow.
  assert (E : LOCAL_VERIFICATION_QUESTIONS !! i
              = Some {| q_question := row.1.1; q_correct_answer := row.1.2;
                        q_incorrect_answers := i |}).
  { unfold LOCAL_VERIFICATION_QUESTIONS. rewrite list_lookup_imap, Hrow.
    reflexivity. }
  split; [exact E|].
  apply (f_equal (fun l => l !! i)) in Hv.
  unfold bank_view, bank_source in Hv.
  change (@map) with (@fmap list _) in Hv.
  rewrite !list_lookup_fmap, E, Hrow in Hv. cbn in Hv.
  injection Hv as Hv. exact Hv.
Qed.

(** X11.  [_get_local_question] returns the entry of the table at the
    index given by the first pending draw modulo 29, so every entry is
    returned for a suitable draw.  It consumes exactly four draws (one for
    the entry, three for the shuffle of the four options), and its
    options are a new list object, a permutation of the entry's three
    incorrect answers and its correct answer. *)
Theorem _get_local_question_draws w :
  bank_view (heap w) = bank_source ->
  exists row opts,
    bank_rows !! (hd 0 (rng w) mod 29) = Some row
    /\ _get_local_question w
       = (Ok {| question := JStr row.1.1; correct_answer := JStr row.1.2;
                options := length (heap w) |},
          with_heap (heap w ++ [opts]) (with_rng (drop 4 (rng w)) w))
    /\ Permutation opts (map JStr row.2 ++ [JStr row.1.2])
    /\ (forall i row', bank_rows !! i = Some row' ->
        forall rest, rng w = i :: rest -> row = row').
Proof.
  intros Hv.
  assert (Hlt : hd 0 (rng w) mod 29 < length bank_rows).
  { rewrite bank_size. apply Nat.mod_upper_bound. lia. }
  destruct (lookup_lt_is_Some_2 _ _ Hlt) as [row Hrow].
  destruct (bank_lookup _ _ _ Hv Hrow) as [He Hh].
  pose proof bank_rows_wellformed as W. rewrite Forall_forall in W.
  destruct (W row) as [W3 _]; [eapply list_elem_of_lookup_2, Hrow|].
  assert (Run : exists opts,
            _get_local_question w
            = (Ok {| question := JStr row.1.1; correct_answer := JStr row.1.2;
                     options := length (heap w) |},
               with_heap (heap w ++ [opts]) (with_rng (drop 4 (rng w)) w))
            /\ Permutation opts (map JStr row.2 ++ [JStr row.1.2])).
  { unfold _get_local_question, random_choice.
    unfold bind at 1. unfold bind at 1.
    rewrite randbelow_exact.
    change (length LOCAL_VERIFICATION_QUESTIONS) with 29. rewrite He.
    unfold ret at 1. unfold bind at 1, read.
    cbn [heap with_rng q_incorrect_answers].
    rewrite Hh. cbn [q_correct_answer q_question].
    unfold bind at 1, alloc. cbn [heap with_rng].
    set (x := map JStr row.2 ++ [JStr row.1.2]).
    set (w1 := with_heap _ _).
    assert (H1 : heap w1 !! length (heap w) = Some x).
    { subst w1. cbn [heap with_heap with_rng]. apply list_lookup_middle.
      reflexivity. }
    unfold bind at 1, random_shuffle. unfold bind at 1, read. rewrite H1.
    assert (Hx : length x - 1 = 3).
    { subst x. rewrite length_app, length_map, W3. reflexivity. }
    rewrite Hx.
    destruct (shuffle_from_exact 3 _ _ _ H1) as (opts & -> & Hp).
    exists opts. split; [|exact Hp].
    unfold ret. subst w1. cbn [heap rng with_heap with_rng service trace].
    rewrite insert_last, drop_tail. reflexivity. }
  destruct Run as (opts & E & Hp).
  exists row, opts. split; [exact Hrow|]. split; [exact E|]. split; [exact Hp|].
  intros i row' Hi rest Hr. rewrite Hr in Hrow. cbn [hd] in Hrow.
  assert (Hi' : i < 29).
  { apply lookup_lt_Some in Hi. rewrite bank_size in Hi. exact Hi. }
  rewrite Nat.mod_small in Hrow by exact Hi'. congruence.
Qed.

End LocalDraws.

(** ** Relaying and the filtered-message browser *)

Section RelayMore.

Implicit Types (m : Message) (bot : Bot) (update : Update).

Lemma sender_run m (chat_id : Z) (thread_id : option Z) (p : bool) bot :
  send_message_by_type m chat_id thread_id p bot =
  match first_kind m with
  | Some k =>
      (Ok (Some (Sent (relay_call m chat_id thread_id (Some p) k))),
       bot ++ [relay_call m chat_id thread_id (Some p) k])
  | None => (Ok None, bot)
  end.
Proof.
  unfold send_message_by_type, first_kind, dispatch_order. cbn [find populated].
  destruct (truthy_opt (text m)); [reflexivity|].
  destruct (truthy_photo (photo m)) eqn:Hp.
  { apply truthy_photo_last in Hp as [x Hx].
    unfold some, bind, last_file_id. rewrite Hx. cbn [ref_of relay_call].
    rewrite Hx. reflexivity. }
  destruct (truthy_media (animation m)) eqn:H1.
  { apply truthy_media_some in H1 as [x Hx]. cbn [relay_call]. rewrite Hx. reflexivity. }
  destruct (truthy_media (video m)) eqn:H2.
  { apply truthy_media_some in H2 as [x Hx]. cbn [relay_call]. rewrite Hx. reflexivity. }
  destruct (truthy_media (document m)) eqn:H3.
  { apply truthy_media_some in H3 as [x Hx]. cbn [relay_call]. rewrite Hx. reflexivity. }
  destruct (truthy_media (audio m)) eqn:H4.
  { apply truthy_media_some in H4 as [x Hx]. cbn [relay_call]. rewrite Hx. reflexivity. }
  destruct (truthy_media (voice m)) eqn:H5.
  { apply truthy_media_some in H5 as [x Hx]. cbn [relay_call]. rewrite Hx. reflexivity. }
  destruct (truthy_media (video_note m)) eqn:H6.
  { apply truthy_media_some in H6 as [x Hx]. cbn [relay_call]. rewrite Hx. reflexivity. }
  destruct (truthy_media (sticker m)) eqn:H7.
  { apply truthy_media_some in H7 as [x Hx]. cbn [relay_call]. rewrite Hx. reflexivity. }
  reflexivity.
Qed.

Lemma relay_call_target m (chat_id : Z) (thread_id : option Z)
    (p : option bool) (k : kind) :
  target (relay_call m chat_id thread_id p k) = Some (chat_id, thread_id).
Proof. destruct k; reflexivity. Qed.

Lemma relay_call_preview m (chat_id : Z) (thread_id : option Z)
    (p q : option bool) (k : kind) :
  k <> KText ->
  relay_call m chat_id thread_id p k = relay_call m chat_id thread_id q k.
Proof. destruct k; [congruence|reflexivity..]. Qed.

Lemma first_kind_text m :
  truthy_opt (text m) = false -> first_kind m <> Some KText.
Proof.
  intros Ht H. unfold first_kind in H. apply find_some in H as [_ H].
  cbn [populated] in H. congruence.
Qed.

(** X12.  [_send_reply_to_user] makes the bot calls of
    [send_message_by_type] called for the user's chat with no thread and
    with link previews disabled: on every update that carries a message
    the two make the same call, or both none. *)
Theorem _send_reply_to_user_as_sender update m (uid : Z) bot :
  u_message update = Some m ->
  snd (_send_reply_to_user update uid bot)
  = snd (send_message_by_type m uid None true bot).
Proof.
  intros Hm. rewrite (_send_reply_to_user_dispatch update m uid bot Hm).
  rewrite sender_run. destruct (first_kind m); reflexivity.
Qed.

(** X13.  [send_message_by_type] keeps the earlier calls of the bot and
    makes at most one.  The call goes to the given chat and thread, and
    the link-preview flag has no effect on the call made for a message
    without text. *)
Theorem send_message_by_type_frame m (chat_id : Z) (thread_id : option Z)
    (p : bool) bot :
  exists calls,
    snd (send_message_by_type m chat_id thread_id p bot) = bot ++ calls
    /\ length calls <= 1
    /\ (forall c, In c calls -> target c = Some (chat_id, thread_id))
    /\ (truthy_opt (text m) = false ->
        forall q,
          snd (send_message_by_type m chat_id thread_id q bot) = bot ++ calls).
Proof.
  rewrite sender_run. destruct (first_kind m) as [k|] eqn:Ek.
  - exists [relay_call m chat_id thread_id (Some p) k].
    split; [reflexivity|]. split; [cbn [length]; lia|]. split.
    + intros c [<-|[]]. apply relay_call_target.
    + intros Ht q. rewrite sender_run, Ek. cbn [snd].
      rewrite (relay_call_preview m chat_id thread_id (Some q) (Some p) k);
        [reflexivity|].
      intros ->. exact (first_kind_text m Ht Ek).
  - exists []. rewrite app_nil_r. split; [reflexivity|].
    split; [cbn [length]; lia|]. split.
    + intros c [].
    + intros _ q. rewrite sender_run, Ek. reflexivity.
Qed.

(** X14.  [handle_admin_reply] keeps the earlier calls of the bot and
    makes at most one.  It makes a call only for a topic message whose
    thread the lookup binds to a user, and the call goes to that user's
    chat with no thread; without a message, outside a topic or for an
    unbound thread no call is made. *)
Theorem handle_admin_reply_frame
    (lookup : option Z -> option UserRow) update bot :
  exists calls,
    snd (handle_admin_reply lookup update bot) = bot ++ calls
    /\ length calls <= 1
    /\ (forall c, In c calls ->
        exists m u,
          u_message update = Some m
          /\ is_topic_message m = true
          /\ lookup (message_thread_id m) = Some u
          /\ target c = Some (user_id u, None)).
Proof.
  assert (Quiet : exists calls : list BotCall,
            snd (@Ok unit tt, bot) = bot ++ calls /\ length calls <= 1
            /\ (forall c, In c calls ->
                exists m u,
                  u_message update = Some m /\ is_topic_message m = true
                  /\ lookup (message_thread_id m) = Some u
                  /\ target c = Some (user_id u, None))).
  { exists []. rewrite app_nil_r. split; [reflexivity|].
    split; [cbn [length]; lia|]. intros c []. }
  unfold handle_admin_reply.
  destruct (u_message update) as [m|] eqn:Hm; [|exact Quiet].
  destruct (is_topic_message m) eqn:Ht; cbn [negb]; [|exact Quiet].
  destruct (lookup (message_thread_id m)) as [u|] eqn:Hu; [|exact Quiet].
  rewrite (_send_reply_to_user_dispatch update m (user_id u) bot Hm).
  destruct (first_kind m) as [k|]; [|exact Quiet].
  eexists. split; [reflexivity|]. split; [cbn [length]; lia|].
  intros c [<-|[]]. exists m, u. repeat (split; [assumption || reflexivity|]).
  apply relay_call_target.
Qed.

End RelayMore.

Section BrowserMore.

Implicit Types (bot : Bot) (update : Update).

Lemma keyboard_needs_pages (page total_pages : Z) :
  _get_filtered_messages_keyboard page total_pages <> None ->
  (1 < total_pages)%Z.
Proof.
  intros H. destruct (Z.leb_spec total_pages 1) as [L|L]; [|exact L].
  rewrite keyboard_single_page in H by exact L. congruence.
Qed.

(** X15.  Given what the persistence calls return, [view_filtered] makes
    exactly one [reply_text] call on an update that carries a message.  A
    caller who is not an administrator is sent the denial text whatever
    the log holds; an administrator whose log is empty, or whose first
    page comes back empty, is sent the no-messages text; both without a
    keyboard.  A keyboard is attached only for an administrator with
    more than five logged messages and a first page that is not empty. *)
Theorem view_filtered_one_reply
    (is_admin : Z -> bool) (total_count : Z)
    (fetch : Z -> Z -> list FilteredRow) update (m : Message) bot :
  u_message update = Some m ->
  exists (t : pystr) (kb : option InlineKeyboardMarkup),
    snd (view_filtered is_admin total_count fetch update bot)
    = bot ++ [reply_text t kb]
    /\ (is_admin (effective_user_id update) = false ->
        t = u8 "您没有权限执行此操作。" /\ kb = None)
    /\ (is_admin (effective_user_id update) = true ->
        total_count = 0%Z \/ fetch 5%Z 0%Z = [] ->
        t = u8 "没有找到被过滤的消息。" /\ kb = None)
    /\ (kb <> None ->
        is_admin (effective_user_id update) = true
        /\ (5 < total_count)%Z /\ fetch 5%Z 0%Z <> []).
Proof.
  intros Hm.
  assert (Plain : forall t : pystr,
            (is_admin (effective_user_id update) = false ->
             t = u8 "您没有权限执行此操作。") ->
            (is_admin (effective_user_id update) = true ->
             t = u8 "没有找到被过滤的消息。") ->
            exists (t' : pystr) (kb : option InlineKeyboardMarkup),
              snd (@Ok unit tt, bot ++ [reply_text t None])
              = bot ++ [reply_text t' kb]
              /\ (is_admin (effective_user_id update) = false ->
                  t' = u8 "您没有权限执行此操作。" /\ kb = None)
              /\ (is_admin (effective_user_id update) = true ->
                  total_count = 0%Z \/ fetch 5%Z 0%Z = [] ->
                  t' = u8 "没有找到被过滤的消息。" /\ kb = None)
              /\ (kb <> None ->
                  is_admin (effective_user_id update) = true
                  /\ (5 < total_count)%Z /\ fetch 5%Z 0%Z <> [])).
  { intros t Hd He. exists t, None. split; [reflexivity|].
    split; [intros H; split; [exact (Hd H)|reflexivity]|].
    split; [intros H _; split; [exact (He H)|reflexivity]|].
    intros H. exfalso. apply H. reflexivity. }
  unfold view_filtered, reply. rewrite Hm.
  destruct (is_admin (effective_user_id update)) eqn:Ha; cbn [negb].
  2:{ apply Plain; [reflexivity|discriminate]. }
  destruct (Z.eqb_spec total_count 0) as [H0|H0].
  { apply Plain; [discriminate|reflexivity]. }
  cbv zeta. change ((1 - 1) * 5)%Z with 0%Z.
  destruct (fetch 5%Z 0%Z) as [|r rs] eqn:Ef.
  { apply Plain; [discriminate|reflexivity]. }
  destruct (_get_filtered_messages_keyboard 1 ((total_count + 5 - 1) / 5))
    as [k|] eqn:Ek.
  - eexists _, (Some k). split; [reflexivity|].
    split; [discriminate|]. split.
    + intros _ [H|H]; [contradiction|discriminate].
    + intros _. split; [reflexivity|]. split; [|discriminate].
      assert (L : (1 < (total_count + 5 - 1) / 5)%Z).
      { apply (keyboard_needs_pages 1). rewrite Ek. discriminate. }
      destruct (Z.le_gt_cases total_count 5) as [Le|Gt]; [|lia].
      assert ((total_count + 5 - 1) / 5 <= 1)%Z; [|lia].
      apply Z.lt_succ_r, Z.div_lt_upper_bound; lia.
  - eexists _, None. split; [reflexivity|].
    split; [discriminate|]. split.
    + intros _ [H|H]; [contradiction|discriminate].
    + intros H. exfalso. apply H. reflexivity.
Qed.

Lemma format_entries_app (idx : Z) (a b : list FilteredRow) :
  format_entries idx (a ++ b)
  = format_entries idx a ++ format_entries (idx + Z.of_nat (length a)) b.
Proof.
  revert idx. induction a as [|r a IH]; intros idx.
  - cbn [app format_entries length Z.of_nat]. rewrite Z.add_0_r. reflexivity.
  - cbn [app format_entries length]. rewrite IH, <- app_assoc.
    do 3 f_equal. lia.
Qed.

(** X16.  [_format_filtered_messages] numbers the entries of a page from
    1 in the order of the rows, whatever the page number: the row that
    follows [a] is rendered under the number [length a + 1], after the
    header and the entries of [a]. *)
Theorem _format_filtered_messages_numbering
    (a b : list FilteredRow) (r : FilteredRow) (page total_pages : Z) :
  _format_filtered_messages (a ++ r :: b) page total_pages
  = _format_filtered_messages a page total_pages
    ++ format_entry (Z.of_nat (length a) + 1) r
    ++ format_entries (Z.of_nat (length a) + 2) b.
Proof.
  unfold _format_filtered_messages. rewrite format_entries_app.
  cbn [format_entries]. rewrite <- !app_assoc.
  replace (1 + Z.of_nat (length a))%Z with (Z.of_nat (length a) + 1)%Z by lia.
  replace (Z.of_nat (length a) + 1 + 1)%Z with (Z.of_nat (length a) + 2)%Z
    by lia.
  reflexivity.
Qed.

Lemma or_na_long (c : pystr) : (100 < length c)%nat -> or_na (Some c) = c.
Proof. destruct c; [cbn [length]; lia|reflexivity]. Qed.

(** X17.  An entry shows at most the first hundred characters of a
    content longer than that: two rows that differ only in what their
    contents hold after the hundredth character are rendered alike. *)
Theorem format_entry_truncates (idx : Z) (r : FilteredRow) (c1 c2 : pystr) :
  (100 < length c1)%nat -> (100 < length c2)%nat ->
  take 100 c1 = take 100 c2 ->
  format_entry idx
    {| first_name := first_name r; username := username r;
       reason := reason r; content := Some c1; filtered_at := filtered_at r |}
  = format_entry idx
      {| first_name := first_name r; username := username r;
         reason := reason r; content := Some c2;
         filtered_at := filtered_at r |}.
Proof.
  intros L1 L2 E. unfold format_entry.
  cbn [first_name username reason content filtered_at].
  rewrite !or_na_long by assumption.
  assert (T : forall c : pystr, (100 < length c)%nat ->
              truthy_str c && (100 <? length c)%nat = true).
  { intros c L. destruct c; [cbn [length] in L; lia|].
    apply Nat.ltb_lt in L. rewrite L. reflexivity. }
  rewrite !T by assumption. rewrite E. reflexivity.
Qed.

End BrowserMore.

(** ** The adapters *)

Section AdaptersMore.

Variable sdk : Sdk.

Implicit Types (a : Adapter) (model : option pystr) (contents : list part)
  (kwargs : list (pystr * json)).

Lemma wrap_raise {A} (prefix : pystr) (r : res A) e :
  wrap sdk prefix r = Raise e ->
  exists cause, e = ProviderError (prefix ++ describe sdk cause).
Proof. destruct r as [x|c]; [discriminate|]. intros [= <-]. eauto. Qed.

Lemma wrap_ok {A} (prefix : pystr) (r : res A) (x : A) :
  wrap sdk prefix r = Ok x -> r = Ok x.
Proof. destruct r; [intros [= ->]; reflexivity|discriminate]. Qed.

Lemma first_text_ok (texts : list (option pystr)) (t : option pystr) :
  first_text texts = Ok t -> exists s, t = Some s /\ s <> [].
Proof.
  unfold first_text. destruct texts as [|[[|c s]|] r]; try discriminate.
  intros [= <-]. exists (c :: s). split; [reflexivity|discriminate].
Qed.

Lemma adapter_prefix a model contents kwargs :
  exists r,
    adapter_generate_content sdk a model contents kwargs
    = wrap sdk (error_prefix (a_kind a)) r.
Proof.
  unfold adapter_generate_content, Gemini_generate_content,
    OpenAI_generate_content, Anthropic_generate_content,
    Custom_generate_content.
  destruct (a_kind a); cbv beta iota delta [error_prefix];
    eexists; reflexivity.
Qed.

Lemma chat_answer_text a model contents kwargs (t : option pystr) :
  a_kind a <> Gemini ->
  adapter_generate_content sdk a model contents kwargs = Ok t ->
  exists s, t = Some s /\ s <> [].
Proof.
  intros Hk H. unfold adapter_generate_content in H.
  destruct (a_kind a); [congruence| | |]; apply wrap_ok in H.
  - destruct (OpenAI_prepare_messages sdk contents); [|discriminate].
    destruct (has_key _ kwargs); [discriminate|].
    destruct (openai_create sdk a _ _); [|discriminate].
    eapply first_text_ok, H.
  - destruct (Anthropic_prepare_messages sdk contents); [|discriminate].
    destruct (has_key _ _); [discriminate|].
    destruct (anthropic_create sdk a _); [|discriminate].
    eapply first_text_ok, H.
  - cbv zeta in H. destruct (has_key _ kwargs); [discriminate|].
    destruct (openai_create sdk a _ _); [|discriminate].
    eapply first_text_ok, H.
Qed.

(** X18.  Whatever goes wrong inside an adapter's [generate_content]
    (preparing the messages, the call itself, a blocked or empty
    response) reaches the caller as one exception whose text is the
    class's prefix followed by the text of the cause.  The OpenAI, Claude
    and custom adapters never return an empty or missing text. *)
Theorem adapter_generate_content_outcomes a model contents kwargs :
  (forall e,
     adapter_generate_content sdk a model contents kwargs = Raise e ->
     exists cause,
       e = ProviderError (error_prefix (a_kind a) ++ describe sdk cause))
  /\ (a_kind a <> Gemini ->
      forall t,
        adapter_generate_content sdk a model contents kwargs = Ok t ->
        exists s, t = Some s /\ s <> []).
Proof.
  split.
  - intros e H. destruct (adapter_prefix a model contents kwargs) as [r E].
    rewrite E in H. eapply wrap_raise, H.
  - intros Hk t. apply chat_answer_text, Hk.
Qed.

Lemma encode_parts_text contents (acc : list pystr) :
  encodable sdk contents ->
  encode_parts sdk contents acc = Ok (acc ++ map part_text contents).
Proof.
  revert acc. induction contents as [|[s|img] rest IH]; intros acc He.
  - cbn [encode_parts map]. rewrite app_nil_r. reflexivity.
  - cbn [encode_parts map part_text]. rewrite IH.
    + rewrite <- app_assoc. reflexivity.
    + intros i Hi. apply He. right. exact Hi.
  - cbn [encode_parts map part_text].
    rewrite (He img) by (left; reflexivity). rewrite IH.
    + rewrite <- app_assoc. reflexivity.
    + intros i Hi. apply He. right. exact Hi.
Qed.

Lemma plain_parts_text contents (acc : list pystr) :
  plain_parts contents acc = acc ++ map part_text contents.
Proof.
  revert acc. induction contents as [|[s|img] rest IH]; intros acc.
  - cbn [plain_parts map]. rewrite app_nil_r. reflexivity.
  - cbn [plain_parts map part_text]. rewrite IH, <- app_assoc. reflexivity.
  - cbn [plain_parts map part_text]. rewrite IH, <- app_assoc. reflexivity.
Qed.

Lemma OpenAI_prepare_messages_text contents :
  encodable sdk contents ->
  OpenAI_prepare_messages sdk contents
  = Ok (match contents with
        | [] => []
        | _ => [user_message (map part_text contents)]
        end).
Proof.
  intros He. unfold OpenAI_prepare_messages.
  rewrite encode_parts_text by exact He. cbn [app].
  destruct contents; reflexivity.
Qed.

Lemma Anthropic_prepare_messages_text contents :
  encodable sdk contents ->
  Anthropic_prepare_messages sdk contents
  = Ok [user_message (map part_text contents)].
Proof.
  intros He. unfold Anthropic_prepare_messages.
  rewrite encode_parts_text by exact He. reflexivity.
Qed.

Lemma Custom_prepare_messages_text contents :
  Custom_prepare_messages contents
  = match contents with
    | [] => []
    | _ => [user_message (map part_text contents)]
    end.
Proof.
  unfold Custom_prepare_messages. rewrite plain_parts_text. cbn [app].
  destruct contents; reflexivity.
Qed.

Lemma same_texts_same_shape (c1 c2 : list part) :
  map part_text c1 = map part_text c2 ->
  match c1 with [] => [] | _ => [user_message (map part_text c1)] end
  = match c2 with [] => [] | _ => [user_message (map part_text c2)] end.
Proof.
  intros E. rewrite E. destruct c1, c2; try reflexivity; discriminate.
Qed.

Lemma chat_request_texts a model (c1 c2 : list part) kwargs :
  a_kind a <> Gemini ->
  encodable sdk c1 -> encodable sdk c2 ->
  map part_text c1 = map part_text c2 ->
  adapter_generate_content sdk a model c1 kwargs
  = adapter_generate_content sdk a model c2 kwargs.
Proof.
  intros Hk H1 H2 E. unfold adapter_generate_content.
  destruct (a_kind a); [congruence| | |].
  - unfold OpenAI_generate_content.
    rewrite !OpenAI_prepare_messages_text by assumption.
    rewrite (same_texts_same_shape c1 c2 E). reflexivity.
  - unfold Anthropic_generate_content.
    rewrite !Anthropic_prepare_messages_text by assumption.
    rewrite E. reflexivity.
  - unfold Custom_generate_content.
    rewrite !Custom_prepare_messages_text.
    rewrite (same_texts_same_shape c1 c2 E). reflexivity.
Qed.

(** X19.  The OpenAI, Claude and custom adapters send no image: with
    images that encode, the request and so the answer depend on the
    contents only through their texts, every image standing for the
    same placeholder text. *)
Theorem chat_adapters_drop_images a model (c1 c2 : list part) kwargs :
  a_kind a <> Gemini ->
  encodable sdk c1 -> encodable sdk c2 ->
  map part_text c1 = map part_text c2 ->
  adapter_generate_content sdk a model c1 kwargs
  = adapter_generate_content sdk a model c2 kwargs.
Proof. apply chat_request_texts. Qed.

(** X20.  With images that encode, the OpenAI adapter prepares the
    messages the custom adapter prepares: none for empty contents, else
    one user message that joins the texts, line by line.  The Claude
    adapter always prepares one user message, also for empty contents. *)
Theorem prepare_messages_agree contents :
  encodable sdk contents ->
  OpenAI_prepare_messages sdk contents = Ok (Custom_prepare_messages contents)
  /\ Anthropic_prepare_messages sdk contents
     = Ok [{| role := u8 "user";
              m_content := join nl (map part_text contents) |}]
  /\ Custom_prepare_messages contents
     = match contents with
       | [] => []
       | _ => [{| role := u8 "user";
                  m_content := join nl (map part_text contents) |}]
       end.
Proof.
  intros He. split; [|split].
  - rewrite OpenAI_prepare_messages_text by exact He.
    rewrite Custom_prepare_messages_text. reflexivity.
  - apply Anthropic_prepare_messages_text, He.
  - apply Custom_prepare_messages_text.
Qed.

Lemma dict_get_app (k : pystr) (d e : list (pystr * json)) :
  dict_get k (d ++ e)
  = match dict_get k d with Some v => Some v | None => dict_get k e end.
Proof.
  induction d as [|[k' v] d IH]; [reflexivity|].
  cbn [app dict_get]. destruct (str_eqb k k'); [reflexivity|exact IH].
Qed.

Lemma str_eqb_refl (s : pystr) : str_eqb s s = true.
Proof. unfold str_eqb. apply bool_decide_eq_true. reflexivity. Qed.

Lemma without_max_tokens_app (d e : list (pystr * json)) :
  without_max_tokens (d ++ e) = without_max_tokens d ++ without_max_tokens e.
Proof. unfold without_max_tokens. apply filter_app. Qed.

Lemma without_max_tokens_clean kwargs :
  dict_get (u8 "max_tokens") (without_max_tokens kwargs) = None.
Proof.
  unfold without_max_tokens.
  induction kwargs as [|[k v] d IH]; [reflexivity|].
  rewrite filter_cons. cbn [fst].
  destruct (str_eqb k (u8 "max_tokens")) eqn:E; cbn [negb].
  - destruct (decide _) as [T|F]; [destruct T|]. exact IH.
  - destruct (decide _) as [T|F]; [|exfalso; apply F; exact I].
    cbn [dict_get].
    replace (str_eqb (u8 "max_tokens") k) with false; [exact IH|].
    symmetry. unfold str_eqb in *.
    apply bool_decide_eq_false. apply bool_decide_eq_false in E. congruence.
Qed.

(** X21.  The Claude adapter never passes [max_tokens] twice, and
    leaving it out is the same as asking for 4096: the request and the
    answer are those of the call with [max_tokens=4096] added. *)
Theorem Anthropic_default_max_tokens a model contents kwargs :
  dict_get (u8 "max_tokens") (without_max_tokens kwargs) = None
  /\ (dict_get (u8 "max_tokens") kwargs = None ->
      Anthropic_generate_content sdk a model contents
        (kwargs ++ [(u8 "max_tokens", JNum (u8 "4096"))])
      = Anthropic_generate_content sdk a model contents kwargs).
Proof.
  split; [apply without_max_tokens_clean|]. intros Hk.
  unfold Anthropic_generate_content, max_tokens_of.
  rewrite dict_get_app, Hk, without_max_tokens_app.
  replace (without_max_tokens [(u8 "max_tokens", JNum (u8 "4096"))])
    with (@nil (pystr * json)).
  - rewrite app_nil_r. cbn [dict_get]. rewrite str_eqb_refl. reflexivity.
  - unfold without_max_tokens. rewrite filter_cons. cbn [fst].
    rewrite str_eqb_refl. cbn [negb].
    destruct (decide _) as [T|F]; [destruct T|]. reflexivity.
Qed.

End AdaptersMore.

(** ** Strings, auto-reply, availability and payloads *)

Section StringsMore.

Implicit Types (s t p : pystr) (c : N).












End StringsMore.

Section AutoReplyMore.

Variable be : Backend.


End AutoReplyMore.

Section Availability.

Variable be : Backend.

Lemma new_service_unavailable : is_available new_service = false.
Proof. reflexivity. Qed.

Lemma configured_available (s : ModelService) :
  configured s -> is_available s = true.
Proof.
  intros (Ha & _). unfold is_available.
  destruct (adapter s); [reflexivity|congruence].
Qed.

Lemma _initialize_model_service_result (config : Config) (w : World) :
  exists s,
    _initialize_model_service be config w = (Ok tt, with_service s w)
    /\ (s = new_service \/ configured s).
Proof.
  unfold _initialize_model_service.
  destruct (truthy_opt (AI_API_KEY config)); cbn [negb].
  - unfold try_except, on_service.
    destruct (initialize be (AI_PROVIDER config) (default [] (AI_API_KEY config))
                (AI_BASE_URL config) (AI_FILTER_MODEL config)
                (AI_VERIFICATION_MODEL config) [] (service w))
      as [[[]|e] s1] eqn:E.
    + exists s1. split; [reflexivity|]. right.
      destruct (initialize_ok _ _ _ _ _ _ _ _ _ E) as (k & _ & _ & _ & C & _).
      exact C.
    + exists new_service. split; [|left; reflexivity].
      cbn [service with_service]. rewrite clear_service_spec.
      destruct w; reflexivity.
  - exists new_service. split; [|left; reflexivity].
    unfold on_service. rewrite clear_service_spec. reflexivity.
Qed.

(** X23.  After [_initialize_model_service] the service reports itself
    available exactly when it is fully configured: an adapter together
    with a filter model and a verification model.  A new service is not
    available. *)
Theorem is_available_after_initialize (config : Config) (w : World) :
  let s := service (snd (_initialize_model_service be config w)) in
  is_available new_service = false
  /\ (is_available s = true <-> configured s)
  /\ (is_available s = false <-> s = new_service).
Proof.
  cbv zeta. destruct (_initialize_model_service_result config w) as (s & E & C).
  rewrite E. cbn [snd]. replace (service (with_service s w)) with s
    by (destruct w; reflexivity).
  split; [reflexivity|]. destruct C as [->|C].
  - split; split; try reflexivity.
    + discriminate.
    + intros (Ha & _). exfalso. apply Ha. reflexivity.
  - pose proof (configured_available s C) as Av. split; split; auto.
    + congruence.
    + intros ->. discriminate Av.
Qed.

End Availability.

Section Payloads.

Lemma decimal_value_snoc (l : pystr) (d : N) :
  decimal_value (l ++ [d]) = (10 * decimal_value l + (d - 48))%N.
Proof. unfold decimal_value. rewrite fold_left_app. reflexivity. Qed.

Lemma dec_aux_acc (f : nat) (n : N) (acc : pystr) :
  dec_aux f n acc = dec_aux f n [] ++ acc.
Proof.
  revert n acc. induction f as [|f IH]; intros n acc; [reflexivity|].
  cbn [dec_aux]. cbv zeta. destruct (n <? 10)%N; [reflexivity|].
  rewrite IH. rewrite (IH _ [digit (n mod 10)]).
  rewrite <- app_assoc. reflexivity.
Qed.

Lemma digit_range (d : N) : (d < 10)%N -> (48 <= digit d <= 57)%N.
Proof. unfold digit. lia. Qed.

Lemma dec_aux_value (f : nat) (n : N) :
  0 < f -> (n < 2 ^ N.of_nat f)%N ->
  decimal_value (dec_aux f n []) = n
  /\ Forall (fun d => (48 <= d <= 57)%N) (dec_aux f n [])
  /\ dec_aux f n [] <> [].
Proof.
  revert n. induction f as [|f IH]; intros n Hf Hn; [lia|].
  cbn [dec_aux]. cbv zeta.
  pose proof (N.mod_upper_bound n 10 ltac:(lia)) as Hm.
  destruct (N.ltb_spec n 10) as [L|L].
  - rewrite N.mod_small by exact L. split; [|split].
    + unfold decimal_value, digit. cbn [fold_left]. lia.
    + constructor; [apply digit_range, L|constructor].
    + discriminate.
  - rewrite dec_aux_acc.
    assert (Hd : (n / 10 < 2 ^ N.of_nat f)%N).
    { rewrite Nat2N.inj_succ, N.pow_succ_r' in Hn.
      apply N.Div0.div_lt_upper_bound. lia. }
    assert (Hf' : 0 < f).
    { destruct f; [|lia]. cbn in Hd.
      assert (1 <= n / 10)%N by (apply N.div_le_lower_bound; lia). lia. }
    destruct (IH _ Hf' Hd) as (V & D & NE). split; [|split].
    + rewrite decimal_value_snoc, V. unfold digit.
      pose proof (N.div_mod n 10 ltac:(lia)) as H.
      rewrite (N.add_comm 48), N.add_sub. symmetry. exact H.
    + apply Forall_app. split; [exact D|].
      constructor; [apply digit_range, Hm|constructor].
    + intros H. apply app_eq_nil in H as [_ H]. discriminate.
Qed.

Lemma dec_N_value (n : N) :
  decimal_value (dec_N n) = n
  /\ Forall (fun d => (48 <= d <= 57)%N) (dec_N n)
  /\ dec_N n <> [].
Proof.
  unfold dec_N. apply dec_aux_value; [lia|].
  rewrite Nat2N.inj_succ, N2Nat.id. destruct n as [|p]; [cbn; lia|].
  apply N.log2_spec. lia.
Qed.

Lemma dec_N_inj (a b : N) : dec_N a = dec_N b -> a = b.
Proof.
  intros H. rewrite <- (proj1 (dec_N_value a)), <- (proj1 (dec_N_value b)), H.
  reflexivity.
Qed.

Lemma dec_N_no_sign (n : N) (r : pystr) : dec_N n <> 45%N :: r.
Proof.
  intros H. destruct (dec_N_value n) as (_ & D & _). rewrite H in D.
  apply Forall_cons in D as [D _]. lia.
Qed.

Lemma dec_Z_inj (p q : Z) : dec_Z p = dec_Z q -> p = q.
Proof.
  unfold dec_Z. intros H. destruct p as [|p|p], q as [|q|q];
    try (symmetry in H; apply dec_N_no_sign in H; contradiction);
    try (apply dec_N_no_sign in H; contradiction);
    try (injection H as H); apply dec_N_inj in H; lia.
Qed.

(** X24.  The payload of a paging button determines the page it asks
    for: two payloads are equal only for the same page number, and for a
    page number that is not negative the digits after the prefix read
    back as that number.  The previous-page and next-page buttons of a
    page therefore never carry the same payload. *)
Theorem filtered_page_injective (p q : Z) :
  (filtered_page p = filtered_page q -> p = q)
  /\ (0 <= p ->
      after_prefix (u8 "filtered_page_") (filtered_page p)
      = Some (dec_Z p)
      /\ Z.of_N (decimal_value (dec_Z p)) = p)%Z
  /\ callback_data (prev_button p) <> callback_data (next_button p).
Proof.
  split; [|split].
  - unfold filtered_page. intros H. apply app_inv_head in H.
    apply dec_Z_inj, H.
  - intros Hp. unfold filtered_page. rewrite after_prefix_app.
    split; [reflexivity|].
    replace (dec_Z p) with (dec_N (Z.to_N p)) by (destruct p; [reflexivity..|lia]).
    rewrite (proj1 (dec_N_value _)). lia.
  - unfold prev_button, next_button. cbn [callback_data].
    unfold filtered_page. intros H. apply app_inv_head, dec_Z_inj in H. lia.
Qed.

End Payloads.

(** ** Analysis run on the adapters *)

Section PictureBlind.

Variable sdk : Sdk.
Variable constructs : provider_kind -> pystr -> option pystr -> bool.
Variable config : Config.
Variable image_opens : list N -> bool.

Lemma analysis_parts_picture (message : Message) (img : list N) :
  img <> [] -> image_opens img = true ->
  analysis_parts image_opens message (Some img)
  = (if truthy_opt (text message) then [PText (default [] (text message))]
     else []) ++ [PImage img].
Proof.
  intros Hn Ho. unfold analysis_parts.
  change (default [] (Some img)) with img. rewrite Ho.
  destruct img; [contradiction|reflexivity].
Qed.

Lemma encodable_picture (texts : list pystr) (img : list N) (tail : pystr) :
  png_save sdk img = Ok tt ->
  encodable sdk (map PText texts ++ [PImage img] ++ [PText tail]).
Proof.
  intros Hs i Hi. apply in_app_or in Hi as [Hi|[Hi|[Hi|[]]]].
  - apply in_map_iff in Hi as (t & [=] & _).
  - injection Hi as ->. exact Hs.
  - discriminate Hi.
Qed.

(** X25.  Run on the adapters, the analysis of a message by an OpenAI,
    Claude or custom provider does not depend on what its picture shows:
    two pictures that both open and encode give the same verdict. *)
Theorem analyze_message_ignores_picture (message : Message)
    (img1 img2 : list N) (w : World) (a : Adapter) :
  adapter (service w) = Some a ->
  a_kind a <> Gemini ->
  img1 <> [] -> img2 <> [] ->
  image_opens img1 = true -> image_opens img2 = true ->
  png_save sdk img1 = Ok tt -> png_save sdk img2 = Ok tt ->
  fst (analyze_message (sdk_backend sdk constructs) config image_opens
         message (Some img1) w)
  = fst (analyze_message (sdk_backend sdk constructs) config image_opens
           message (Some img2) w).
Proof.
  intros Ha Hk N1 N2 O1 O2 S1 S2.
  destruct (truthy_opt (filter_model_name (service w))) eqn:Hf.
  2:{ rewrite !analyze_message_disabled
        by (rewrite Hf, orb_true_r; reflexivity).
      reflexivity. }
  destruct (ENABLE_AI_FILTER config) eqn:He.
  2:{ rewrite !analyze_message_disabled
        by (rewrite He, orb_true_r; reflexivity).
      reflexivity. }
  assert (P : forall img, img <> [] -> image_opens img = true ->
              analysis_parts image_opens message (Some img) <> []).
  { intros img Hn Ho. rewrite analysis_parts_picture by assumption.
    destruct (truthy_opt (text message)); discriminate. }
  rewrite !(analyze_message_request _ _ _ _ _ _ a Ha Hf He) by auto.
  cbn [fst]. f_equal. unfold sdk_backend, analysis_call.
  cbn [answer pc_adapter pc_model pc_contents].
  rewrite !analysis_parts_picture by assumption.
  rewrite <- !app_assoc.
  set (texts := if truthy_opt (text message)
                then [default [] (text message)] else []).
  assert (T : (if truthy_opt (text message)
               then [PText (default [] (text message))] else [])
              = map PText texts).
  { subst texts. destruct (truthy_opt (text message)); reflexivity. }
  rewrite T. f_equal. apply chat_request_texts.
  - exact Hk.
  - apply encodable_picture, S1.
  - apply encodable_picture, S2.
  - rewrite !map_app. reflexivity.
Qed.

End PictureBlind.

(* ===================================================================== *)
(** ** The further properties on concrete inputs                          *)
(* ===================================================================== *)

(** The provider key is matched without regard to case, and the OpenAI
    defaults fill the model names. *)
Lemma initialize_success_witness :
  configured openai_service
  /\ snd (initialize (scripted (Ok None)) (u8 "OpenAI") (u8 "key") None None
            None [] new_service) = openai_service.
Proof.
  assert (E : initialize (scripted (Ok None)) (u8 "OpenAI") (u8 "key") None
                None None [] new_service = (Ok tt, openai_service))
    by (vm_compute; reflexivity).
  destruct (initialize_success (scripted (Ok None)) (u8 "OpenAI") (u8 "key")
              None None None [] new_service openai_service E)
    as (k & _ & _ & _ & C & _).
  split; [exact C|]. rewrite E. reflexivity.
Defined.

(** [custom] without a base URL fails and leaves the service alone. *)
Lemma initialize_failure_frame_witness :
  snd (initialize (scripted (Ok None)) (u8 "custom") (u8 "key") None None
         None [] sample_service) = sample_service.
Proof.
  apply (initialize_failure_frame (scripted (Ok None)) (u8 "custom")
           (u8 "key") None None None [] sample_service
           (ValueError (u8 "自定义API必须提供base_url"))).
  - vm_compute. reflexivity.
  - vm_compute. discriminate.
Defined.

(** Without a key a configured service is cleared and the filter is
    off. *)
Lemma no_api_key_disables_ai_witness :
  fst (analyze_message (scripted (Ok (Some bare_verdict))) no_key_config
         any_image_opens abusive_text None
         (snd (_initialize_model_service (scripted (Ok (Some bare_verdict)))
                 no_key_config (live []))))
  = Ok (verdict false (u8 "AI filter disabled")).
Proof.
  destruct (no_api_key_disables_ai (scripted (Ok (Some bare_verdict)))
              no_key_config any_image_opens (live []) abusive_text None
              (u8 "hi") None eq_refl) as (_ & H & _).
  rewrite H. reflexivity.
Defined.


Lemma clean_text_without_backtick_witness :
  clean_text bare_verdict = strip bare_verdict.
Proof.
  apply clean_text_without_backtick. vm_compute. reflexivity.
Defined.


(** A provider that is down: both generators are the local question. *)
Lemma challenge_fallback_is_local_witness :
  generate_unblock_question (scripted (Raise (ProviderError (u8 "down"))))
    (live [3; 1; 0; 2])
  = _get_local_question
      (with_trace [challenge_call sample_adapter (live [3; 1; 0; 2])
                     unblock_prompt] (live [3; 1; 0; 2]))
  /\ generate_verification_challenge
       (scripted (Raise (ProviderError (u8 "down")))) (live [3; 1; 0; 2])
     = _get_local_question
         (with_trace [challenge_call sample_adapter (live [3; 1; 0; 2])
                        verification_prompt] (live [3; 1; 0; 2])).
Proof.
  destruct (challenge_fallback_is_local
              (scripted (Raise (ProviderError (u8 "down"))))
              (live [3; 1; 0; 2]) sample_adapter eq_refl eq_refl) as [H1 H2].
  split; [apply H1|apply H2]; reflexivity.
Defined.


(** The draw 30 selects entry 1 of the 29; four draws are used. *)
Lemma _get_local_question_draws_witness :
  exists row opts,
    bank_rows !! 1 = Some row
    /\ fst (_get_local_question (live [30; 5; 2; 7; 9]))
       = Ok {| question := JStr row.1.1; correct_answer := JStr row.1.2;
               options := 29 |}
    /\ rng (snd (_get_local_question (live [30; 5; 2; 7; 9]))) = [9]
    /\ Permutation opts (map JStr row.2 ++ [JStr row.1.2]).
Proof.
  destruct (_get_local_question_draws (live [30; 5; 2; 7; 9])
              (live_reads_bank _)) as (row & opts & Hr & E & P & _).
  exists row, opts. split; [exact Hr|]. rewrite E.
  split; [reflexivity|]. split; [reflexivity|exact P].
Defined.

Lemma _send_reply_to_user_as_sender_witness :
  snd (_send_reply_to_user staff_update 777 [])
  = snd (send_message_by_type staff_text 777 None true []).
Proof.
  exact (_send_reply_to_user_as_sender staff_update staff_text 777 [] eq_refl).
Defined.

(** A caller who is not an administrator is turned away, whatever the
    log holds. *)
Lemma view_filtered_one_reply_witness :
  snd (view_filtered (fun _ => false) 12 sample_fetch staff_update [])
  = [reply_text (u8 "您没有权限执行此操作。") None].
Proof.
  destruct (view_filtered_one_reply (fun _ => false) 12 sample_fetch
              staff_update staff_text [] eq_refl) as (t & kb & E & D & _).
  destruct (D eq_refl) as [Ht Hk]. rewrite E, Ht, Hk. reflexivity.
Defined.

Lemma format_entry_truncates_witness :
  format_entry 1
    {| first_name := Some (u8 "Li"); username := None;
       reason := Some (u8 "spam"); content := Some (long_content 120);
       filtered_at := Some (u8 "2024-01-01 10:00:00") |}
  = format_entry 1
      {| first_name := Some (u8 "Li"); username := None;
         reason := Some (u8 "spam"); content := Some (long_content 121);
         filtered_at := Some (u8 "2024-01-01 10:00:00") |}.
Proof.
  apply (format_entry_truncates 1 sample_row (long_content 120)
           (long_content 121)).
  - vm_compute. lia.
  - vm_compute. lia.
  - reflexivity.
Defined.

(** The echo shows what the OpenAI adapter sends for a picture. *)
Lemma chat_adapters_drop_images_witness :
  adapter_generate_content sample_sdk openai_adapter None with_picture []
  = adapter_generate_content sample_sdk openai_adapter None with_placeholder []
  /\ adapter_generate_content sample_sdk openai_adapter None with_picture []
     = Ok (Some (u8 "hi" ++ nl ++ u8 "[图片已包含]")).
Proof.
  split; [|vm_compute; reflexivity].
  apply chat_adapters_drop_images.
  - vm_compute. discriminate.
  - intros img [H|[H|[]]]; [discriminate H|]. injection H as <-. reflexivity.
  - intros img [H|[H|[]]]; discriminate H.
  - reflexivity.
Defined.

Lemma prepare_messages_agree_witness :
  OpenAI_prepare_messages sample_sdk with_picture
  = Ok (Custom_prepare_messages with_picture).
Proof.
  apply (prepare_messages_agree sample_sdk with_picture).
  intros img [H|[H|[]]]; [discriminate H|]. injection H as <-. reflexivity.
Defined.

(** Two different pictures, one verdict. *)
Lemma analyze_message_ignores_picture_witness :
  fst (analyze_message (sdk_backend sample_sdk (fun _ _ _ => true))
         (sample_config true) any_image_opens abusive_text (Some [1%N])
         openai_world)
  = fst (analyze_message (sdk_backend sample_sdk (fun _ _ _ => true))
           (sample_config true) any_image_opens abusive_text (Some [2%N])
           openai_world).
Proof.
  apply (analyze_message_ignores_picture sample_sdk (fun _ _ _ => true)
           (sample_config true) any_image_opens abusive_text [1%N] [2%N]
           openai_world openai_adapter);
    try reflexivity; discriminate.
Defined.

(** Empty contents: the OpenAI adapter sends no message, the library
    refuses, and the caller sees the wrapped error. *)
Lemma adapter_generate_content_outcomes_witness :
  exists cause,
    ProviderError (u8 "OpenAI API调用失败: messages is empty")
    = ProviderError (error_prefix OpenAI ++ describe sample_sdk cause).
Proof.
  apply (proj1 (adapter_generate_content_outcomes sample_sdk openai_adapter
                  None [] [])).
  vm_compute. reflexivity.
Defined.

(** The echo of [max_tokens] with and without the keyword. *)
Lemma Anthropic_default_max_tokens_witness :
  Anthropic_generate_content sample_sdk claude_adapter None with_picture
    ([] ++ [(u8 "max_tokens", JNum (u8 "4096"))])
  = Anthropic_generate_content sample_sdk claude_adapter None with_picture []
  /\ Anthropic_generate_content sample_sdk claude_adapter None with_picture []
     = Ok (Some (u8 "4096")).
Proof.
  split; [|vm_compute; reflexivity].
  apply (proj2 (Anthropic_default_max_tokens sample_sdk claude_adapter None
                  with_picture [])).
  reflexivity.
Defined.

Lemma filtered_page_injective_witness :
  after_prefix (u8 "filtered_page_") (filtered_page 12) = Some (dec_Z 12)
  /\ Z.of_N (decimal_value (dec_Z 12)) = 12%Z.
Proof.
  apply (proj1 (proj2 (filtered_page_injective 12 0))). lia.
Defined.
